(** * facehugger: manifest-driven model downloads

    A shallow embedding of [facehugger/models.py] and
    [facehugger/facehugger.py], and the properties of the manifest loader,
    the command formatter, the cache inspector, the verifier and the entry
    point that the specification states.

    Python [str] values are [string]s (UTF-8 bytes), Python [int]s are [Z],
    [Optional[T]] is [option T], and a [dict] read from YAML is an association
    list with string keys in which a key is looked up by its first binding. *)

From Stdlib Require Import String Ascii List ZArith Lia Bool Sorted.
From Stdlib Require Import PrimFloat DecimalString.
Import ListNotations.

Set Warnings "-register-all".

Local Open Scope string_scope.
Local Open Scope list_scope.

(* ===================================================================== *)
(** ** Python builtins used by the program *)
(* ===================================================================== *)

Module Py.

(** [bool(s)] for a [str]: only the empty string is falsy. *)
Definition truthy_str (s : string) : bool :=
  match s with EmptyString => false | String _ _ => true end.

(** [bool(l)] for a [list]. *)
Definition truthy_list {A} (l : list A) : bool :=
  match l with [] => false | _ :: _ => true end.

(** [sep.join(parts)]. *)
Definition join (sep : string) (parts : list string) : string :=
  String.concat sep parts.

(** [str(n)] for an [int]. *)
Definition str_of_int (n : Z) : string :=
  NilZero.string_of_int (Z.to_int n).

(** [l[-1] = x] on a non-empty list. *)
Definition set_last {A} (l : list A) (x : A) : list A :=
  removelast l ++ [x].

(** [s.startswith(p)]. *)
Definition startswith (p s : string) : bool := String.prefix p s.

(** The one-byte line boundaries of [str.splitlines]: LF, VT, FF, FS, GS,
    RS (CR is treated apart because of CR LF). *)
Definition is_linebreak (c : ascii) : bool :=
  let n := nat_of_ascii c in
  (Nat.eqb n 10 || Nat.eqb n 11 || Nat.eqb n 12
   || Nat.eqb n 28 || Nat.eqb n 29 || Nat.eqb n 30)%bool.

Definition is_byte (n : nat) (c : ascii) : bool := Nat.eqb (nat_of_ascii c) n.

(** [s.splitlines()]: [cur] is the line being read.  The boundaries are the
    one-byte ones above, CR, CR LF, and NEL (U+0085), LS (U+2028) and
    PS (U+2029) in their UTF-8 encodings. *)
Fixpoint splitlines_from (cur s : string) : list string :=
  match s with
  | EmptyString => if truthy_str cur then [cur] else []
  | String c rest =>
      if is_byte 13 c then
        match rest with
        | String c' rest' =>
            if is_byte 10 c' then cur :: splitlines_from "" rest'
            else cur :: splitlines_from "" rest
        | EmptyString => cur :: splitlines_from "" rest
        end
      else if is_linebreak c then cur :: splitlines_from "" rest
      else
        match rest with
        | String c1 rest1 =>
            if (is_byte 194 c && is_byte 133 c1)%bool
            then cur :: splitlines_from "" rest1
            else
              match rest1 with
              | String c2 rest2 =>
                  if (is_byte 226 c && is_byte 128 c1
                      && (is_byte 168 c2 || is_byte 169 c2))%bool
                  then cur :: splitlines_from "" rest2
                  else splitlines_from (cur ++ String c "")%string rest
              | EmptyString => splitlines_from (cur ++ String c "")%string rest
              end
        | EmptyString => splitlines_from (cur ++ String c "")%string rest
        end
  end.

Definition splitlines (s : string) : list string := splitlines_from "" s.

End Py.

(* ===================================================================== *)
(** ** models.py *)
(* ===================================================================== *)

(** [Union[str, List[str]]]: one glob pattern or a list of them. *)
Inductive patterns : Type :=
| Single (pat : string)
| Many (pats : list string).

(** [bool(p)] for a pattern value: an empty string and an empty list are
    falsy. *)
Definition truthy_patterns (p : patterns) : bool :=
  match p with
  | Single s => Py.truthy_str s
  | Many l => Py.truthy_list l
  end.

(** [class ModelConfig(BaseModel)]. *)
Record ModelConfig : Type := {
  repo : string;
  ref : option string;
  include : option patterns;
  exclude : option patterns
}.

(** [class FacehuggerManifest(BaseModel)]. *)
Record FacehuggerManifest : Type := {
  models : list ModelConfig
}.

(** The default of [ModelConfig.ref]. *)
Definition ref_default : option string := Some "main".

(* ===================================================================== *)
(** ** The command formatter: [build_hf_command] *)
(* ===================================================================== *)

(** [if ref:] on an [Optional[str]]. *)
Definition truthy_opt_str (o : option string) : bool :=
  match o with Some s => Py.truthy_str s | None => false end.

(** The body of [if include: ...] (and of [if exclude: ...]): [parts] is the
    token list built so far, [flag] is [--include] or [--exclude]. *)
Definition extend_patterns (flag : string) (value : option patterns)
    (parts : list string) : list string :=
  match value with
  | None => parts
  | Some p =>
      if truthy_patterns p then
        match p with
        | Many l => fold_left (fun parts pat => parts ++ [flag; pat]) l parts
        | Single s => parts ++ [flag; s]
        end
      else parts
  end.

Definition build_hf_command (repo : string) (ref : option string)
    (include exclude : option patterns) : string :=
  let parts := ["hf"; "download"; repo] in
  let parts :=
    match ref with
    | Some r => if Py.truthy_str r then Py.set_last parts (repo ++ "@" ++ r)%string
                else parts
    | None => parts
    end in
  let parts := extend_patterns "--include" include parts in
  let parts := extend_patterns "--exclude" exclude parts in
  Py.join " " parts.

(** The rendering rule in the words of the specification: the repo token,
    with [@ref] appended when a ref is given, then one [--include <p>] pair
    per include pattern and one [--exclude <p>] pair per exclude pattern, in
    the given order, joined by single spaces. *)
Definition given_patterns (value : option patterns) : list string :=
  match value with
  | None => []
  | Some (Single s) => [s]
  | Some (Many l) => l
  end.

Definition format_equivalent_command (repo : string) (ref : option string)
    (include exclude : option patterns) : string :=
  Py.join " "
    (["hf"; "download";
      (repo ++ match ref with Some r => "@" ++ r | None => "" end)%string]
     ++ flat_map (fun p => ["--include"; p]) (given_patterns include)
     ++ flat_map (fun p => ["--exclude"; p]) (given_patterns exclude)).

(* ===================================================================== *)
(** ** Parsed YAML documents and pydantic validation *)
(* ===================================================================== *)

(** What [yaml.safe_load] builds: scalars, sequences and mappings.  Mapping
    keys are strings (a model field is looked up by its name, and every other
    key is ignored by the models below). *)
Inductive yaml : Type :=
| YNull
| YBool (b : bool)
| YInt (n : Z)
| YFloat (x : float)
| YStr (s : string)
| YSeq (items : list yaml)
| YMap (pairs : list (string * yaml)).

(** [bool(v)], as used by [yaml.safe_load(f) or {}]. *)
Definition truthy_yaml (v : yaml) : bool :=
  match v with
  | YNull => false
  | YBool b => b
  | YInt n => negb (Z.eqb n 0)
  | YFloat x => negb (PrimFloat.eqb x PrimFloat.zero)
  | YStr s => Py.truthy_str s
  | YSeq l => Py.truthy_list l
  | YMap m => Py.truthy_list m
  end.

(** [d.get(key)] on a mapping. *)
Fixpoint lookup (key : string) (pairs : list (string * yaml)) : option yaml :=
  match pairs with
  | [] => None
  | (k, v) :: rest => if String.eqb k key then Some v else lookup key rest
  end.

(** One line of a pydantic [ValidationError]: where, and which kind. *)
Inductive loc_item : Type :=
| Field (name : string)
| Index (i : nat).

Inductive error_type : Type :=
| missing          (* a required field is absent *)
| string_type      (* the input is not a str *)
| list_type        (* the input is not a list *)
| model_type.      (* the input is not a mapping *)

Record error_detail : Type := {
  loc : list loc_item;
  type : error_type
}.

(** The result of validating one value: the typed value, or every error
    found. *)
Inductive validated (A : Type) : Type :=
| Valid (a : A)
| Invalid (errors : list error_detail).
Arguments Valid {A} a.
Arguments Invalid {A} errors.

(** Validation of the fields of a model collects the errors of all of them. *)
Definition ap {A B} (f : validated (A -> B)) (x : validated A) : validated B :=
  match f, x with
  | Valid g, Valid a => Valid (g a)
  | Valid _, Invalid e => Invalid e
  | Invalid e, Valid _ => Invalid e
  | Invalid e1, Invalid e2 => Invalid (e1 ++ e2)
  end.

Definition at_loc {A} (l : loc_item) (x : validated A) : validated A :=
  match x with
  | Valid a => Valid a
  | Invalid errs =>
      Invalid (map (fun e => {| loc := l :: loc e; type := type e |}) errs)
  end.

(** [str]. *)
Definition validate_str (v : yaml) : validated string :=
  match v with
  | YStr s => Valid s
  | _ => Invalid [{| loc := []; type := string_type |}]
  end.

(** [List[T]]: every item, in order, under its index. *)
Fixpoint validate_items {A} (item : yaml -> validated A) (i : nat)
    (l : list yaml) : validated (list A) :=
  match l with
  | [] => Valid []
  | v :: rest =>
      ap (ap (Valid cons) (at_loc (Index i) (item v)))
         (validate_items item (S i) rest)
  end.

Definition validate_list {A} (item : yaml -> validated A) (v : yaml)
    : validated (list A) :=
  match v with
  | YSeq l => validate_items item 0 l
  | _ => Invalid [{| loc := []; type := list_type |}]
  end.

(** [Optional[T]]: [None] is accepted as it is. *)
Definition validate_optional {A} (inner : yaml -> validated A) (v : yaml)
    : validated (option A) :=
  match v with
  | YNull => Valid None
  | _ => ap (Valid Some) (inner v)
  end.

(** [Union[str, List[str]]]: a str is taken as one pattern, a list as a list
    of patterns; when neither member accepts the input the errors of both are
    reported. *)
Definition validate_patterns (v : yaml) : validated patterns :=
  match v with
  | YStr s => Valid (Single s)
  | _ =>
      match validate_list validate_str v with
      | Valid l => Valid (Many l)
      | Invalid errs =>
          ap (ap (Valid (fun _ p => p))
                (at_loc (Field "str") (validate_str v)))
             (at_loc (Field "list[str]") (Invalid errs))
      end
  end.

(** One field of a model: its value under [name] in the mapping, or the
    default when the key is absent; a required field has no default. *)
Definition field {A} (name : string) (default : option A)
    (inner : yaml -> validated A) (pairs : list (string * yaml))
    : validated A :=
  match lookup name pairs with
  | Some v => at_loc (Field name) (inner v)
  | None =>
      match default with
      | Some d => Valid d
      | None => Invalid [{| loc := [Field name]; type := missing |}]
      end
  end.

(** [ModelConfig.model_validate]. *)
Definition validate_ModelConfig (v : yaml) : validated ModelConfig :=
  match v with
  | YMap m =>
      ap (ap (ap (ap (Valid Build_ModelConfig)
        (field "repo" None validate_str m))
        (field "ref" (Some ref_default) (validate_optional validate_str) m))
        (field "include" (Some None) (validate_optional validate_patterns) m))
        (field "exclude" (Some None) (validate_optional validate_patterns) m)
  | _ => Invalid [{| loc := []; type := model_type |}]
  end.

(** [FacehuggerManifest.model_validate]. *)
Definition validate_FacehuggerManifest (v : yaml) : validated FacehuggerManifest :=
  match v with
  | YMap m =>
      ap (Valid Build_FacehuggerManifest)
         (field "models" None (validate_list validate_ModelConfig) m)
  | _ => Invalid [{| loc := []; type := model_type |}]
  end.

(* ===================================================================== *)
(** ** difflib: [SequenceMatcher] and [unified_diff]

    The part of the standard library's [difflib] that the entry point runs:
    [unified_diff(a, b, fromfile, tofile, lineterm)], which builds a
    [SequenceMatcher(None, a, b)] (no junk predicate, [autojunk] on) and walks
    its grouped opcodes.  Indices are Python ints, hence [Z]. *)
(* ===================================================================== *)

Module difflib.

Local Open Scope Z_scope.

(** [l[i]] for an index in range. *)
Definition item (l : list string) (i : Z) : string := nth (Z.to_nat i) l "".

(** [l[i1:i2]] for non-negative bounds. *)
Definition slice (l : list string) (i1 i2 : Z) : list string :=
  firstn (Z.to_nat (i2 - i1)) (skipn (Z.to_nat i1) l).

Definition len {A} (l : list A) : Z := Z.of_nat (length l).

(** [b2j]: for each element of [b], the increasing list of its positions;
    a [dict], kept in insertion order. *)
Definition b2j_t : Type := list (string * list Z).

(** [b2j.setdefault(elt, []).append(i)]. *)
Fixpoint setdefault_append (elt : string) (i : Z) (b2j : b2j_t) : b2j_t :=
  match b2j with
  | [] => [(elt, [i])]
  | (k, idxs) :: rest =>
      if String.eqb k elt then (k, idxs ++ [i]) :: rest
      else (k, idxs) :: setdefault_append elt i rest
  end.

(** [for i, elt in enumerate(b): ...], from position [i]. *)
Fixpoint enumerate_into (b : list string) (i : Z) (b2j : b2j_t) : b2j_t :=
  match b with
  | [] => b2j
  | elt :: rest => enumerate_into rest (i + 1) (setdefault_append elt i b2j)
  end.

(** [__chain_b] with [isjunk = None] and [autojunk = True]: no element is
    junk, and when [b] has 200 elements or more the elements that occur more
    than [n // 100 + 1] times are "popular" and leave [b2j]. *)
Definition chain_b (b : list string) : b2j_t :=
  let b2j := enumerate_into b 0 [] in
  let n := len b in
  if n >=? 200 then
    let ntest := n / 100 + 1 in
    filter (fun kv => negb (len (snd kv) >? ntest)) b2j
  else b2j.

(** [bjunk] is the empty set: [isjunk] is [None]. *)
Definition bjunk : list string := [].
Definition isbjunk (x : string) : bool := existsb (String.eqb x) bjunk.

(** [b2j.get(x, nothing)]. *)
Fixpoint b2j_get (b2j : b2j_t) (x : string) : list Z :=
  match b2j with
  | [] => []
  | (k, idxs) :: rest => if String.eqb k x then idxs else b2j_get rest x
  end.

(** [j2len.get(j, 0)] on a [dict] from positions to lengths. *)
Fixpoint j2len_get (j2len : list (Z * Z)) (j : Z) : Z :=
  match j2len with
  | [] => 0
  | (k, v) :: rest => if k =? j then v else j2len_get rest j
  end.

(** [Match(a, b, size)], and the triple [besti, bestj, bestsize]. *)
Record Match : Type := { m_a : Z; m_b : Z; m_size : Z }.

(** The inner loop of [find_longest_match]: [for j in b2j.get(a[i], nothing)],
    with its [continue] below [blo] and its [break] from [bhi] on. *)
Fixpoint scan_row (js : list Z) (i blo bhi : Z) (j2len newj2len : list (Z * Z))
    (best : Match) : list (Z * Z) * Match :=
  match js with
  | [] => (newj2len, best)
  | j :: rest =>
      if j <? blo then scan_row rest i blo bhi j2len newj2len best
      else if j >=? bhi then (newj2len, best)
      else
        let k := j2len_get j2len (j - 1) + 1 in
        let newj2len := (j, k) :: newj2len in
        let best :=
          if k >? m_size best
          then {| m_a := i - k + 1; m_b := j - k + 1; m_size := k |}
          else best in
        scan_row rest i blo bhi j2len newj2len best
  end.

(** The outer loop: [for i in range(alo, ahi)], [rows] rows left from [i]. *)
Fixpoint scan_rows (rows : nat) (a : list string) (b2j : b2j_t) (i blo bhi : Z)
    (j2len : list (Z * Z)) (best : Match) : Match :=
  match rows with
  | O => best
  | S rows' =>
      let '(newj2len, best) :=
        scan_row (b2j_get b2j (item a i)) i blo bhi j2len [] best in
      scan_rows rows' a b2j (i + 1) blo bhi newj2len best
  end.

(** The two loops that grow the block to the left: [junk] tells whether the
    elements taken must be junk (second pair of loops) or must not be (first
    pair).  Every turn lowers [besti], which stays above [alo]. *)
Fixpoint extend_left (turns : nat) (junk : bool) (a b : list string)
    (alo blo : Z) (best : Match) : Match :=
  match turns with
  | O => best
  | S turns' =>
      if ((m_a best >? alo) && (m_b best >? blo)
          && Bool.eqb (isbjunk (item b (m_b best - 1))) junk
          && String.eqb (item a (m_a best - 1)) (item b (m_b best - 1)))%bool
      then extend_left turns' junk a b alo blo
             {| m_a := m_a best - 1; m_b := m_b best - 1;
                m_size := m_size best + 1 |}
      else best
  end.

(** The two loops that grow the block to the right. *)
Fixpoint extend_right (turns : nat) (junk : bool) (a b : list string)
    (ahi bhi : Z) (best : Match) : Match :=
  match turns with
  | O => best
  | S turns' =>
      if ((m_a best + m_size best <? ahi) && (m_b best + m_size best <? bhi)
          && Bool.eqb (isbjunk (item b (m_b best + m_size best))) junk
          && String.eqb (item a (m_a best + m_size best))
               (item b (m_b best + m_size best)))%bool
      then extend_right turns' junk a b ahi bhi
             {| m_a := m_a best; m_b := m_b best; m_size := m_size best + 1 |}
      else best
  end.

Definition find_longest_match (a b : list string) (b2j : b2j_t)
    (alo ahi blo bhi : Z) : Match :=
  let best := {| m_a := alo; m_b := blo; m_size := 0 |} in
  let best := scan_rows (Z.to_nat (ahi - alo)) a b2j alo blo bhi [] best in
  let best := extend_left (Z.to_nat (m_a best - alo)) false a b alo blo best in
  let best :=
    extend_right (Z.to_nat (ahi - (m_a best + m_size best))) false a b ahi bhi
      best in
  let best := extend_left (Z.to_nat (m_a best - alo)) true a b alo blo best in
  let best :=
    extend_right (Z.to_nat (ahi - (m_a best + m_size best))) true a b ahi bhi
      best in
  best.

(** [matching_blocks.sort()]: tuples in lexicographic order. *)
Definition match_leb (x y : Match) : bool :=
  ((m_a x <? m_a y)
   || ((m_a x =? m_a y)
       && ((m_b x <? m_b y)
           || ((m_b x =? m_b y) && (m_size x <=? m_size y)))))%bool.

Fixpoint insert_sorted (x : Match) (l : list Match) : list Match :=
  match l with
  | [] => [x]
  | y :: rest => if match_leb x y then x :: l else y :: insert_sorted x rest
  end.

Definition sort (l : list Match) : list Match :=
  fold_right insert_sorted [] l.

(** [while queue: ...] of [get_matching_blocks].  [queue.pop()] takes the
    last item, so the list is kept in reverse (its head is the last item).
    [None] when [turns] turns were not enough to empty the queue. *)
Fixpoint queue_loop (turns : nat) (a b : list string) (b2j : b2j_t)
    (queue : list (Z * Z * Z * Z)) (matching_blocks : list Match)
    : option (list Match) :=
  match queue with
  | [] => Some matching_blocks
  | (alo, ahi, blo, bhi) :: queue =>
      match turns with
      | O => None
      | S turns' =>
          let x := find_longest_match a b b2j alo ahi blo bhi in
          let i := m_a x in
          let j := m_b x in
          let k := m_size x in
          if k =? 0 then queue_loop turns' a b b2j queue matching_blocks
          else
            let matching_blocks := matching_blocks ++ [x] in
            let queue :=
              if ((alo <? i) && (blo <? j))%bool
              then (alo, i, blo, j) :: queue else queue in
            let queue :=
              if ((i + k <? ahi) && (j + k <? bhi))%bool
              then (i + k, ahi, j + k, bhi) :: queue else queue in
            queue_loop turns' a b b2j queue matching_blocks
      end
  end.

(** The loop that collapses adjacent blocks; [cur] is [(i1, j1, k1)]. *)
Fixpoint collapse (blocks : list Match) (cur : Match)
    (non_adjacent : list Match) : list Match * Match :=
  match blocks with
  | [] => (non_adjacent, cur)
  | x :: rest =>
      if ((m_a cur + m_size cur =? m_a x)
          && (m_b cur + m_size cur =? m_b x))%bool
      then collapse rest
             {| m_a := m_a cur; m_b := m_b cur;
                m_size := m_size cur + m_size x |} non_adjacent
      else
        let non_adjacent :=
          if m_size cur =? 0 then non_adjacent else non_adjacent ++ [cur] in
        collapse rest x non_adjacent
  end.

(** Every turn of the queue loop that finds a block takes at least one
    position of [a] out of the ranges still to be looked at, and a turn that
    finds none takes a range out: [2 * len(a) + 1] turns empty the queue. *)
Definition queue_turns (a : list string) : nat := 2 * length a + 1.

Definition get_matching_blocks (a b : list string) : option (list Match) :=
  let la := len a in
  let lb := len b in
  match queue_loop (queue_turns a) a b (chain_b b) [(0, la, 0, lb)] [] with
  | None => None
  | Some matching_blocks =>
      let matching_blocks := sort matching_blocks in
      let '(non_adjacent, cur) :=
        collapse matching_blocks {| m_a := 0; m_b := 0; m_size := 0 |} [] in
      let non_adjacent :=
        if m_size cur =? 0 then non_adjacent else non_adjacent ++ [cur] in
      Some (non_adjacent ++ [{| m_a := la; m_b := lb; m_size := 0 |}])
  end.

Inductive tag : Type := replace | delete | insert | equal.

Definition is_equal (t : tag) : bool :=
  match t with equal => true | _ => false end.

(** An opcode [(tag, i1, i2, j1, j2)]. *)
Record opcode : Type := { op_tag : tag; i1 : Z; i2 : Z; j1 : Z; j2 : Z }.

(** The loop of [get_opcodes] over the matching blocks, from [(i, j)]. *)
Fixpoint opcodes_from (blocks : list Match) (i j : Z) (answer : list opcode)
    : list opcode :=
  match blocks with
  | [] => answer
  | x :: rest =>
      let ai := m_a x in
      let bj := m_b x in
      let size := m_size x in
      let answer :=
        if ((i <? ai) && (j <? bj))%bool
        then answer ++ [{| op_tag := replace; i1 := i; i2 := ai; j1 := j; j2 := bj |}]
        else if i <? ai
        then answer ++ [{| op_tag := delete; i1 := i; i2 := ai; j1 := j; j2 := bj |}]
        else if j <? bj
        then answer ++ [{| op_tag := insert; i1 := i; i2 := ai; j1 := j; j2 := bj |}]
        else answer in
      let i := ai + size in
      let j := bj + size in
      let answer :=
        if size =? 0 then answer
        else answer ++ [{| op_tag := equal; i1 := ai; i2 := i; j1 := bj; j2 := j |}] in
      opcodes_from rest i j answer
  end.

Definition get_opcodes (a b : list string) : option (list opcode) :=
  match get_matching_blocks a b with
  | None => None
  | Some blocks => Some (opcodes_from blocks 0 0 [])
  end.

(** [codes[0] = f(codes[0])] and [codes[-1] = f(codes[-1])], on a non-empty
    list. *)
Definition update_first {A} (f : A -> A) (l : list A) : list A :=
  match l with
  | [] => []
  | x :: rest => f x :: rest
  end.

Definition update_last {A} (f : A -> A) (l : list A) : list A :=
  rev (update_first f (rev l)).

(** The loop of [get_grouped_opcodes]: [groups] are the groups yielded so
    far, [group] the one being built. *)
Fixpoint group_loop (n : Z) (codes : list opcode) (group : list opcode)
    (groups : list (list opcode)) : list (list opcode) * list opcode :=
  match codes with
  | [] => (groups, group)
  | c :: rest =>
      if (is_equal (op_tag c) && (i2 c - i1 c >? n + n))%bool then
        let group :=
          group ++ [{| op_tag := op_tag c; i1 := i1 c;
                       i2 := Z.min (i2 c) (i1 c + n); j1 := j1 c;
                       j2 := Z.min (j2 c) (j1 c + n) |}] in
        let groups := groups ++ [group] in
        let c' := {| op_tag := op_tag c; i1 := Z.max (i1 c) (i2 c - n);
                     i2 := i2 c; j1 := Z.max (j1 c) (j2 c - n); j2 := j2 c |} in
        group_loop n rest [c'] groups
      else group_loop n rest (group ++ [c]) groups
  end.

Definition get_grouped_opcodes (a b : list string) (n : Z)
    : option (list (list opcode)) :=
  match get_opcodes a b with
  | None => None
  | Some codes =>
      let codes :=
        if Py.truthy_list codes then codes
        else [{| op_tag := equal; i1 := 0; i2 := 1; j1 := 0; j2 := 1 |}] in
      let codes :=
        update_first
          (fun c =>
             if is_equal (op_tag c)
             then {| op_tag := op_tag c; i1 := Z.max (i1 c) (i2 c - n);
                     i2 := i2 c; j1 := Z.max (j1 c) (j2 c - n); j2 := j2 c |}
             else c) codes in
      let codes :=
        update_last
          (fun c =>
             if is_equal (op_tag c)
             then {| op_tag := op_tag c; i1 := i1 c;
                     i2 := Z.min (i2 c) (i1 c + n); j1 := j1 c;
                     j2 := Z.min (j2 c) (j1 c + n) |}
             else c) codes in
      let '(groups, group) := group_loop n codes [] [] in
      match group with
      | [] => Some groups
      | [c] => if is_equal (op_tag c) then Some groups
               else Some (groups ++ [group])
      | _ => Some (groups ++ [group])
      end
  end.

Definition format_range_unified (start stop : Z) : string :=
  let beginning := start + 1 in
  let length := stop - start in
  if length =? 1 then Py.str_of_int beginning
  else
    let beginning := if length =? 0 then beginning - 1 else beginning in
    (Py.str_of_int beginning ++ "," ++ Py.str_of_int length)%string.

(** The lines one opcode of a group yields. *)
Definition opcode_lines (a b : list string) (c : opcode) : list string :=
  match op_tag c with
  | equal => map (fun line => (" " ++ line)%string) (slice a (i1 c) (i2 c))
  | replace =>
      map (fun line => ("-" ++ line)%string) (slice a (i1 c) (i2 c))
      ++ map (fun line => ("+" ++ line)%string) (slice b (j1 c) (j2 c))
  | delete => map (fun line => ("-" ++ line)%string) (slice a (i1 c) (i2 c))
  | insert => map (fun line => ("+" ++ line)%string) (slice b (j1 c) (j2 c))
  end.

(** The lines one group yields: its [@@] line, then the lines of its
    opcodes. *)
Definition group_lines (a b : list string) (lineterm : string)
    (group : list opcode) : list string :=
  match group with
  | [] => []
  | first :: _ =>
      let last := List.last group first in
      let file1_range := format_range_unified (i1 first) (i2 last) in
      let file2_range := format_range_unified (j1 first) (j2 last) in
      ("@@ -" ++ file1_range ++ " +" ++ file2_range ++ " @@" ++ lineterm)%string
      :: flat_map (opcode_lines a b) group
  end.

Definition tab : string := String (ascii_of_nat 9) "".

(** [list(unified_diff(a, b, fromfile, tofile, fromfiledate, tofiledate, n,
    lineterm))]: the two header lines come before the first group, and only
    when there is one. *)
Definition unified_diff (a b : list string)
    (fromfile tofile fromfiledate tofiledate : string) (n : Z)
    (lineterm : string) : option (list string) :=
  match get_grouped_opcodes a b n with
  | None => None
  | Some [] => Some []
  | Some groups =>
      let fromdate :=
        if Py.truthy_str fromfiledate then (tab ++ fromfiledate)%string else "" in
      let todate :=
        if Py.truthy_str tofiledate then (tab ++ tofiledate)%string else "" in
      Some (("--- " ++ fromfile ++ fromdate ++ lineterm)%string
            :: ("+++ " ++ tofile ++ todate ++ lineterm)%string
            :: flat_map (group_lines a b lineterm) groups)
  end.

(** *** What the proofs about the matcher speak of *)

(** The positions of [x] in [b], counted from [i]. *)
Fixpoint positions (b : list string) (x : string) (i : Z) : list Z :=
  match b with
  | [] => []
  | elt :: rest =>
      if String.eqb elt x then i :: positions rest x (i + 1)
      else positions rest x (i + 1)
  end.

Definition keys (b2j : b2j_t) : list string := map fst b2j.

Definition unpopular (a : list string) (i : Z) : bool :=
  Py.truthy_list (b2j_get (chain_b a) (item a i)).

Fixpoint run_length (a : list string) (k : nat) : Z :=
  match k with
  | O => 0
  | S k' => if unpopular a (Z.of_nat k') then run_length a k' + 1 else 0
  end.

Definition run_to (a : list string) (j : Z) : Z := run_length a (Z.to_nat (j + 1)).

(** The lengths of the runs of unpopular elements, and what the loops of
    [find_longest_match] keep true when both sequences are [a]: the best
    block so far lies on the diagonal and is at least as long as every run
    that ends above row [i]. *)
Definition best_inv (a : list string) (i : Z) (best : Match) : Prop :=
  m_a best = m_b best
  /\ 0 <= m_a best
  /\ 0 <= m_size best
  /\ m_a best + m_size best <= i + 1
  /\ (forall j, 0 <= j < i -> run_to a j <= m_size best).

Definition row_inv (a : list string) (i : Z) (js : list Z)
    (newj2len : list (Z * Z)) (best : Match) : Prop :=
  (In i js \/ (run_to a i <= m_size best /\ j2len_get newj2len i = run_to a i))
  /\ (forall j, j2len_get newj2len j <= run_to a j)
  /\ (forall j, j2len_get newj2len j <= run_to a i)
  /\ best_inv a i best.

Definition rows_inv (a : list string) (i : Z) (j2len : list (Z * Z))
    (best : Match) : Prop :=
  (forall j, j2len_get j2len j <= run_to a j)
  /\ (forall j, j2len_get j2len j <= run_to a (i - 1))
  /\ j2len_get j2len (i - 1) = run_to a (i - 1)
  /\ m_a best = m_b best
  /\ 0 <= m_a best
  /\ 0 <= m_size best
  /\ m_a best + m_size best <= i
  /\ (forall j, 0 <= j < i -> run_to a j <= m_size best).

(** A block within the ranges it was searched in, the bound on the lengths
    that [j2len] holds at row [i], and the weight of the ranges still in the
    queue. *)
Definition within (alo ahi blo bhi : Z) (x : Match) : Prop :=
  alo <= m_a x /\ blo <= m_b x /\ 0 <= m_size x
  /\ m_a x + m_size x <= ahi /\ m_b x + m_size x <= bhi.

Definition lengths_within (i alo blo : Z) (j2len : list (Z * Z)) : Prop :=
  forall j, 0 <= j2len_get j2len j
            /\ j2len_get j2len j <= i - alo
            /\ j2len_get j2len j <= Z.max 0 (j - blo + 1).

Definition range_ok (r : Z * Z * Z * Z) : Prop :=
  let '(alo, ahi, blo, bhi) := r in alo <= ahi /\ blo <= bhi.

Definition range_weight (r : Z * Z * Z * Z) : Z :=
  let '(alo, ahi, _, _) := r in 2 * (ahi - alo) + 1.

Definition queue_weight (queue : list (Z * Z * Z * Z)) : Z :=
  fold_right (fun r w => range_weight r + w) 0 queue.

(** *** What the proofs that the matcher is right speak of *)

(** A block of equal elements; what [j2len] holds at row [i]; a range of the
    queue within the sequences; a block that is right and in range; opcodes
    that show no change. *)
Definition matches (a b : list string) (x : Match) : Prop :=
  forall d, 0 <= d < m_size x -> item a (m_a x + d) = item b (m_b x + d).

Definition lengths_match (a b : list string) (i : Z) (j2len : list (Z * Z))
    : Prop :=
  forall j d, 0 <= d < j2len_get j2len j -> item a (i - d) = item b (j - d).

Definition range_in (la lb : Z) (r : Z * Z * Z * Z) : Prop :=
  let '(alo, ahi, blo, bhi) := r in
  0 <= alo /\ alo <= ahi /\ ahi <= la /\ 0 <= blo /\ blo <= bhi /\ bhi <= lb.

Definition sound (a b : list string) (x : Match) : Prop :=
  matches a b x /\ within 0 (len a) 0 (len b) x.

Definition unchanged (codes : list opcode) : Prop :=
  codes = [] \/ exists c, codes = [c] /\ is_equal (op_tag c) = true.

(** The opcodes that one matching block adds, from [(i, j)]. *)
Definition block_opcodes (x : Match) (i j : Z) : list opcode :=
  (if ((i <? m_a x) && (j <? m_b x))%bool
   then [{| op_tag := replace; i1 := i; i2 := m_a x; j1 := j; j2 := m_b x |}]
   else if i <? m_a x
   then [{| op_tag := delete; i1 := i; i2 := m_a x; j1 := j; j2 := m_b x |}]
   else if j <? m_b x
   then [{| op_tag := insert; i1 := i; i2 := m_a x; j1 := j; j2 := m_b x |}]
   else [])
  ++ (if m_size x =? 0 then []
      else [{| op_tag := equal; i1 := m_a x; i2 := m_a x + m_size x;
               j1 := m_b x; j2 := m_b x + m_size x |}]).

End difflib.

(* ===================================================================== *)
(** ** Collaborators, and the monad of a run

    The hub client, the [hf] subprocess, the file system, the YAML parser and
    the package metadata are outside the program: a [World] gives the result
    of each of their operations.  A run threads a clock (the number of
    operations performed on the hub and its cache so far, so that the same
    operation may give different results at different times) and collects the
    trace of what it did and logged. *)
(* ===================================================================== *)

Inductive exception : Type :=
| YAMLError (msg : string)
| ValidationError (errors : list error_detail)
| CalledProcessError (code : Z)
| FileNotFoundError (msg : string)
| RepositoryNotFoundError (msg : string)
| RevisionNotFoundError (msg : string)
| OtherError (name msg : string).

(** What a call to a collaborator does: it returns or it raises. *)
Inductive result (A : Type) : Type :=
| Returns (a : A)
| Raises (e : exception).
Arguments Returns {A} a.
Arguments Raises {A} e.

(** [subprocess.CompletedProcess], with the captured text output. *)
Record CompletedProcess : Type := {
  returncode : Z;
  stdout : string
}.

(** The result of [HfApi.verify_repo_checksums]. *)
Record Mismatch : Type := {
  path : string;
  expected : string;
  actual : string;
  algorithm : string
}.

Record FolderVerification : Type := {
  checked_count : Z;
  verified_path : string;
  mismatches : list Mismatch
}.

Record World : Type := {
  (** [importlib.metadata.version(name)]; [None] when it raises
      [PackageNotFoundError] *)
  metadata_version : string -> option string;
  (** [Path(p).is_file()] *)
  is_file : string -> bool;
  (** [yaml.safe_load] on the opened file at a path *)
  safe_load : string -> result yaml;
  (** the [hf cache ls] process started at a time: how it ended, or the
      error of starting it *)
  hf_cache_ls : nat -> result CompletedProcess;
  (** [snapshot_download(repo_id, revision, allow_patterns, ignore_patterns)] *)
  snapshot_download :
    nat -> string -> option string -> option patterns -> option patterns ->
    result unit;
  (** [HfApi().verify_repo_checksums(repo_id, repo_type, revision)] *)
  verify_repo_checksums :
    nat -> string -> option string -> option string -> result FolderVerification
}.

Inductive level : Type := INFO | WARNING | ERROR.

(** The arguments of a [%s] in a logging call. *)
Inductive log_arg : Type :=
| AStr (s : string)
| AInt (n : Z)
| AModel (entry : ModelConfig).

(** What a run does that can be seen from outside, in order. *)
Inductive event : Type :=
| Print (line : string)
| Log (lvl : level) (msg : string) (args : list log_arg)
| IsFile (file_path : string)
| OpenFile (file_path : string)
| Subprocess (cmd : list string)
| SnapshotDownload (repo_id : string) (revision : option string)
    (allow_patterns ignore_patterns : option patterns)
| VerifyRepoChecksums (repo_id : string) (repo_type revision : option string).

(** How a computation ends: with a value, by [sys.exit(f"{msg}{exc}")], or by
    an exception that nothing caught. *)
Inductive outcome (A : Type) : Type :=
| Ok (a : A)
| SystemExit (msg : string) (exc : option exception)
| Raised (e : exception).
Arguments Ok {A} a.
Arguments SystemExit {A} msg exc.
Arguments Raised {A} e.

Record ran (A : Type) : Type := {
  trace : list event;
  clock : nat;
  ending : outcome A
}.
Arguments trace {A} r.
Arguments clock {A} r.
Arguments ending {A} r.

Definition M (A : Type) : Type := nat -> ran A.

Definition ret {A} (a : A) : M A :=
  fun t => {| trace := []; clock := t; ending := Ok a |}.

Definition bind {A B} (m : M A) (f : A -> M B) : M B :=
  fun t =>
    let r := m t in
    match ending r with
    | Ok a =>
        let r' := f a (clock r) in
        {| trace := trace r ++ trace r'; clock := clock r'; ending := ending r' |}
    | SystemExit msg exc =>
        {| trace := trace r; clock := clock r; ending := SystemExit msg exc |}
    | Raised e =>
        {| trace := trace r; clock := clock r; ending := Raised e |}
    end.

Declare Scope run_scope.
Delimit Scope run_scope with run.
Notation "x <- m ;; k" := (bind m (fun x => k))
  (at level 100, m at next level, right associativity) : run_scope.
Notation "m ;; k" := (bind m (fun _ => k))
  (at level 100, right associativity) : run_scope.
Local Open Scope run_scope.

Definition emit (e : event) : M unit :=
  fun t => {| trace := [e]; clock := t; ending := Ok tt |}.

(** The time of an operation on the hub or its cache; the clock moves on. *)
Definition tick : M nat :=
  fun t => {| trace := []; clock := S t; ending := Ok t |}.

Definition raise {A} (e : exception) : M A :=
  fun t => {| trace := []; clock := t; ending := Raised e |}.

Definition sys_exit {A} (msg : string) (exc : option exception) : M A :=
  fun t => {| trace := []; clock := t; ending := SystemExit msg exc |}.

Definition lift {A} (r : result A) : M A :=
  match r with
  | Returns a => ret a
  | Raises e => raise e
  end.

(** [try: m  except ...: handler]: [handler e] is [None] for an exception
    that no [except] clause names. *)
Definition try_except {A} (m : M A) (handler : exception -> option (M A)) : M A :=
  fun t =>
    let r := m t in
    match ending r with
    | Raised e =>
        match handler e with
        | Some h =>
            let r' := h (clock r) in
            {| trace := trace r ++ trace r'; clock := clock r';
               ending := ending r' |}
        | None => r
        end
    | _ => r
    end.

(** [for x in l: body(x)]. *)
Fixpoint for_each {A} (l : list A) (body : A -> M unit) : M unit :=
  match l with
  | [] => ret tt
  | x :: rest => body x ;; for_each rest body
  end.

Definition logging_info (msg : string) (args : list log_arg) : M unit :=
  emit (Log INFO msg args).
Definition logging_warning (msg : string) (args : list log_arg) : M unit :=
  emit (Log WARNING msg args).
Definition logging_error (msg : string) (args : list log_arg) : M unit :=
  emit (Log ERROR msg args).

(** The exit status of the process for the way [main] ended: [sys.exit] with
    a message and an uncaught exception both give 1. *)
Definition exit_status {A} (o : outcome A) : Z :=
  match o with
  | Ok _ => 0%Z
  | SystemExit _ _ => 1%Z
  | Raised _ => 1%Z
  end.

(* ===================================================================== *)
(** ** facehugger.py *)
(* ===================================================================== *)

Definition nl : string := String (ascii_of_nat 10) "".
Definition esc : string := String (ascii_of_nat 27) "".

(** [f"{x}"] for an [Optional[str]]. *)
Definition str_of_opt (o : option string) : string :=
  match o with Some s => s | None => "None" end.

(** [f'@{ref}' if ref else ''] *)
Definition at_ref (ref : option string) : string :=
  match ref with
  | Some r => if Py.truthy_str r then ("@" ++ r)%string else ""
  | None => ""
  end.

(** The parsed command line. *)
Record Namespace : Type := {
  manifest : string;
  dry_run : bool;
  version : bool
}.

Section Program.

Variable w : World.

Definition load_manifest (file_path : string) : M FacehuggerManifest :=
  emit (IsFile file_path) ;;
  if negb (is_file w file_path) then
    sys_exit ("Manifest file not found: " ++ file_path)%string None
  else
    emit (OpenFile file_path) ;;
    data <- try_except
              (v <- lift (safe_load w file_path) ;;
               ret (if truthy_yaml v then v else YMap []))
              (fun exc =>
                 match exc with
                 | YAMLError _ =>
                     Some (sys_exit
                             ("Failed to parse manifest file " ++ file_path
                              ++ ": ")%string (Some exc))
                 | _ => None
                 end) ;;
    match validate_FacehuggerManifest data with
    | Valid manifest => ret manifest
    | Invalid errors =>
        sys_exit ("Facehugger manifest " ++ file_path
                  ++ " failed validation: ")%string
          (Some (ValidationError errors))
    end.

(** [subprocess.run(["hf", "cache", "ls"], check=True, text=True,
    capture_output=True, env=...)]: a non-zero return code raises
    [CalledProcessError]. *)
Definition subprocess_run_hf_cache_ls : M CompletedProcess :=
  t <- tick ;;
  emit (Subprocess ["hf"; "cache"; "ls"]) ;;
  cp <- lift (hf_cache_ls w t) ;;
  if Z.eqb (returncode cp) 0 then ret cp
  else raise (CalledProcessError (returncode cp)).

Definition get_cache_listing : M (list string) :=
  try_except
    (result <- subprocess_run_hf_cache_ls ;;
     ret (Py.splitlines (stdout result)))
    (fun exc =>
       match exc with
       | CalledProcessError code =>
           Some (logging_error "hf cache ls failed with exit code %s"
                   [AInt code] ;;
                 ret [])
       | _ => None
       end).

Definition download_model (repo : string) (ref : option string)
    (include exclude : option patterns) : M unit :=
  logging_info ("Downloading repo " ++ repo ++ at_ref ref)%string [] ;;
  t <- tick ;;
  emit (SnapshotDownload repo ref include exclude) ;;
  lift (snapshot_download w t repo ref include exclude) ;;
  emit (Print "").

Definition verify_cache (repo : string) (repo_type ref : option string)
    : M unit :=
  let cmd := ["hf"; "cache"; "verify"; repo] in
  let cmd := if truthy_opt_str ref
             then cmd ++ ["--revision"; str_of_opt ref] else cmd in
  let cmd := Py.join " " cmd in
  logging_info ("Verifying repo " ++ repo ++ at_ref ref
                ++ ", equivalent to: `" ++ cmd ++ "`")%string [] ;;
  checked <-
    try_except
      (t <- tick ;;
       emit (VerifyRepoChecksums repo repo_type ref) ;;
       result <- lift (verify_repo_checksums w t repo repo_type ref) ;;
       ret (Some result))
      (fun exc =>
         match exc with
         | RepositoryNotFoundError msg =>
             Some (logging_error
                     ("Repository " ++ repo ++ " not found: " ++ msg)%string
                     [] ;;
                   ret None)
         | RevisionNotFoundError msg =>
             Some (logging_error
                     ("Repository " ++ repo ++ " revision " ++ str_of_opt ref
                      ++ " not found: " ++ msg)%string [] ;;
                   ret None)
         | _ => None
         end) ;;
  match checked with
  | None => ret tt
  | Some result =>
      if Py.truthy_list (mismatches result) then
        logging_error
          ("❌ Repo " ++ repo
           ++ " checksum verification failed for the following file(s)")%string
          [] ;;
        for_each (mismatches result)
          (fun m =>
             logging_error
               ("  - " ++ path m ++ ": expected " ++ expected m ++ " ("
                ++ algorithm m ++ "), got " ++ actual m)%string [])
      else
        logging_info
          ("✅ Verified " ++ Py.str_of_int (checked_count result)
           ++ " file(s) for '" ++ repo ++ "' (" ++ str_of_opt repo_type
           ++ ") in " ++ verified_path result)%string []
  end.

(** The body of [for entry in models:]. *)
Definition process_entry (args : Namespace) (entry : ModelConfig) : M unit :=
  let repo := repo entry in
  if negb (Py.truthy_str repo) then
    logging_warning "Skipping entry without 'repo' key: %s" [AModel entry]
  else
    let ref := ref entry in
    let include := include entry in
    let exclude := exclude entry in
    let cmd_str := build_hf_command repo ref include exclude in
    logging_info ("Equivalent command: `" ++ cmd_str ++ "`")%string [] ;;
    if negb (dry_run args) then
      download_model repo ref include exclude ;;
      verify_cache repo None ref
    else ret tt.

(** One line of the colourised diff. *)
Definition log_diff_line (line : string) : M unit :=
  if (Py.startswith "+" line && negb (Py.startswith "+++" line))%bool then
    logging_info (esc ++ "[32m" ++ line ++ esc ++ "[0m")%string []
  else if (Py.startswith "-" line && negb (Py.startswith "---" line))%bool then
    logging_info (esc ++ "[31m" ++ line ++ esc ++ "[0m")%string []
  else logging_info line [].

(** [difflib.unified_diff(initial_cache, final_cache, fromfile="initial",
    tofile="final", lineterm="")], as a list.  The loop inside always ends
    within its turns ([DifflibFacts.unified_diff_returns]), so the [None]
    branch is never taken. *)
Definition cache_diff (initial_cache final_cache : list string) : list string :=
  match difflib.unified_diff initial_cache final_cache "initial" "final" "" ""
          3 "" with
  | Some lines => lines
  | None => []
  end.

(** The end of [main]: "After all downloads (or dry-run) show final cache
    state and diff". *)
Definition show_final_cache (initial_cache : list string) : M unit :=
  final_cache <- get_cache_listing ;;
  logging_info (nl ++ "Final cache state:")%string [] ;;
  for_each final_cache (fun line => logging_info line []) ;;
  let diff := Py.join "" (cache_diff initial_cache final_cache) in
  if Py.truthy_str diff then
    logging_info (nl ++ "Cache changes (colourised):")%string [] ;;
    for_each (Py.splitlines diff) log_diff_line
  else ret tt.

(** [main], from the parsed arguments [args = parser.parse_args()]. *)
Definition main (args : Namespace) : M unit :=
  if version args then
    let pkg_version :=
      match metadata_version w "facehugger" with
      | Some v => v
      | None => "0.0.0"
      end in
    emit (Print pkg_version)
  else
    let manifest_path := manifest args in
    data <- load_manifest manifest_path ;;
    let models := models data in
    initial_cache <-
      (if negb (Py.truthy_list models) then
         logging_info "No models defined in %s" [AStr manifest_path] ;;
         ret []
       else
         initial_cache <- get_cache_listing ;;
         logging_info (nl ++ "Initial cache state:")%string [] ;;
         for_each initial_cache (fun line => logging_info line []) ;;
         for_each models (process_entry args) ;;
         ret initial_cache) ;;
    show_final_cache initial_cache.

End Program.

(** A run of the program from the start. *)
Definition run (w : World) (args : Namespace) : ran unit := main w args 0.

(* ===================================================================== *)
(** ** Observations on traces, and worlds to run the program in *)
(* ===================================================================== *)

(** A capture of the cache listing: the [hf cache ls] subprocess. *)
Definition is_cache_capture (e : event) : bool :=
  match e with
  | Subprocess _ => true
  | _ => false
  end.

(** A download or a verification on the hub. *)
Definition is_transfer (e : event) : bool :=
  match e with
  | SnapshotDownload _ _ _ _ => true
  | VerifyRepoChecksums _ _ _ => true
  | _ => false
  end.

(** An access to the manifest file. *)
Definition is_manifest_access (e : event) : bool :=
  match e with
  | IsFile _ => true
  | OpenFile _ => true
  | _ => false
  end.

Definition count (p : event -> bool) (tr : list event) : nat :=
  length (filter p tr).

(** The audit line of an entry, and the warning for an entry that is
    skipped. *)
Definition rendered_command (entry : ModelConfig) : event :=
  Log INFO
    ("Equivalent command: `"
     ++ build_hf_command (repo entry) (ref entry) (include entry) (exclude entry)
     ++ "`")%string [].

Definition skip_warning (entry : ModelConfig) : event :=
  Log WARNING "Skipping entry without 'repo' key: %s" [AModel entry].

Definition is_rendered_command (e : event) : bool :=
  match e with
  | Log INFO msg [] => Py.startswith "Equivalent command: `" msg
  | _ => false
  end.

(** The notice of a manifest without entries. *)
Definition no_models_notice (manifest_path : string) : event :=
  Log INFO "No models defined in %s" [AStr manifest_path].

(** A world in which every manifest path is a file that parses to [doc], the
    cache listing process always ends as [ls], every download succeeds and
    every verification finds [checked] files without a mismatch. *)
Definition quiet_world (doc : yaml) (ls : CompletedProcess) (checked : Z)
    : World :=
  {| metadata_version := fun _ => None;
     is_file := fun _ => true;
     safe_load := fun _ => Returns doc;
     hf_cache_ls := fun _ => Returns ls;
     snapshot_download := fun _ _ _ _ _ => Returns tt;
     verify_repo_checksums := fun _ _ _ _ =>
       Returns {| checked_count := checked; verified_path := "/cache";
                  mismatches := [] |} |}.

(** What the verifier logs. *)
Definition verifying_notice (repo : string) (ref : option string) : event :=
  Log INFO
    ("Verifying repo " ++ repo ++ at_ref ref ++ ", equivalent to: `"
     ++ Py.join " "
          (if truthy_opt_str ref
           then ["hf"; "cache"; "verify"; repo; "--revision"; str_of_opt ref]
           else ["hf"; "cache"; "verify"; repo])
     ++ "`")%string [].

Definition mismatch_line (m : Mismatch) : event :=
  Log ERROR
    ("  - " ++ path m ++ ": expected " ++ expected m ++ " (" ++ algorithm m
     ++ "), got " ++ actual m)%string [].

Definition success_summary (repo : string) (repo_type : option string)
    (result : FolderVerification) : event :=
  Log INFO
    ("✅ Verified " ++ Py.str_of_int (checked_count result) ++ " file(s) for '"
     ++ repo ++ "' (" ++ str_of_opt repo_type ++ ") in "
     ++ verified_path result)%string [].

(** A world like [quiet_world] in which every verification ends as [v]. *)
Definition verifying_world (v : result FolderVerification) : World :=
  {| metadata_version := fun _ => None;
     is_file := fun _ => true;
     safe_load := fun _ => Returns YNull;
     hf_cache_ls := fun _ => Returns {| returncode := 0; stdout := "" |};
     snapshot_download := fun _ _ _ _ _ => Returns tt;
     verify_repo_checksums := fun _ _ _ _ => v |}.

Definition bad_digest : Mismatch :=
  {| path := "model.gguf"; expected := "aa11"; actual := "bb22";
     algorithm := "sha256" |}.





(** The manifest of the loader's test: two entries, the second without
    [ref]. *)
Definition two_entries : yaml :=
  YMap [("models",
         YSeq [YMap [("repo", YStr "test/model1"); ("ref", YStr "v1.0");
                     ("include", YStr "*.gguf"); ("exclude", YStr "*.ckpt")];
               YMap [("repo", YStr "test/model2")]])].

Definition listing_ok : CompletedProcess :=
  {| returncode := 0; stdout := "" |}.

(** A logging call. *)
Definition is_log (e : event) : bool :=
  match e with
  | Log _ _ _ => true
  | _ => false
  end.

(** What the loop over the entries does for one entry under [--dry-run]. *)
Definition dry_run_event (entry : ModelConfig) : event :=
  if Py.truthy_str (repo entry) then rendered_command entry
  else skip_warning entry.

(** A manifest with one entry whose repo is the empty string, followed by an
    entry with a repo. *)
Definition empty_repo_manifest : yaml :=
  YMap [("models", YSeq [YMap [("repo", YStr "")];
                         YMap [("repo", YStr "owner/model-repo")]])].

(** The header lines of the two listings, and a listing line as logged. *)
Definition initial_header : event :=
  Log INFO (nl ++ "Initial cache state:")%string [].
Definition final_header : event :=
  Log INFO (nl ++ "Final cache state:")%string [].
Definition log_line (line : string) : event := Log INFO line [].

(** The run [r] after the events [tr]. *)
Definition prefixed {A} (tr : list event) (r : ran A) : ran A :=
  {| trace := tr ++ trace r; clock := clock r; ending := ending r |}.

(** What the diff section of [main] logs for two listings: nothing when the
    diff is empty, else its header and one line per line of the diff. *)
Definition diff_line_event (line : string) : event :=
  if (Py.startswith "+" line && negb (Py.startswith "+++" line))%bool then
    Log INFO (esc ++ "[32m" ++ line ++ esc ++ "[0m")%string []
  else if (Py.startswith "-" line && negb (Py.startswith "---" line))%bool then
    Log INFO (esc ++ "[31m" ++ line ++ esc ++ "[0m")%string []
  else Log INFO line [].

Definition diff_header : event :=
  Log INFO (nl ++ "Cache changes (colourised):")%string [].

Definition diff_section (initial_cache final_cache : list string) : list event :=
  let diff := Py.join "" (cache_diff initial_cache final_cache) in
  if Py.truthy_str diff
  then diff_header :: map diff_line_event (Py.splitlines diff)
  else [].

(** The manifest with an empty list of models, and the command line that
    names it. *)
Definition no_models : yaml := YMap [("models", YSeq [])].

Definition plain_args : Namespace :=
  {| manifest := "facehugger.yaml"; dry_run := false; version := false |}.

Definition dry_args : Namespace :=
  {| manifest := "facehugger.yaml"; dry_run := true; version := false |}.

(** [bool(entry.repo)]. *)
Definition has_repo (entry : ModelConfig) : bool := Py.truthy_str (repo entry).

(** A listing process that prints one cached repository. *)
Definition listing_one : CompletedProcess :=
  {| returncode := 0; stdout := "models--owner--model-repo" |}.

(** A manifest whose only entry has an empty repo. *)
Definition only_empty_repo : yaml :=
  YMap [("models", YSeq [YMap [("repo", YStr "")]])].

(* ===================================================================== *)
(** ** More of the program: the environment of the subprocess, and notions
    to state what the loader, the formatter and the entry point do *)
(* ===================================================================== *)

(** [os.environ] as a [dict] from names to values: [env.get(key, default)]
    and [env[key] = value] (the value of a name that is there is replaced in
    place, a new name goes last). *)
Fixpoint environ_get (env : list (string * string)) (key default : string) : string :=
  match env with
  | [] => default
  | (k, v) :: rest => if String.eqb k key then v else environ_get rest key default
  end.

Fixpoint environ_set (env : list (string * string)) (key value : string)
    : list (string * string) :=
  match env with
  | [] => [(key, value)]
  | (k, v) :: rest =>
      if String.eqb k key then (k, value) :: rest
      else (k, v) :: environ_set rest key value
  end.

(** [get_hf_env], from [venv_bin = Path(sys.executable).parent] as a string
    and the environment of the process; the copy it returns is what the
    [hf cache ls] subprocess runs in.  In the first branch [env['PATH']] is
    there, since [current_path] is not empty. *)
Definition get_hf_env (venv_bin : string) (environ : list (string * string))
    : list (string * string) :=
  let env := environ in
  let current_path := environ_get env "PATH" "" in
  if Py.truthy_str current_path
  then environ_set env "PATH" (venv_bin ++ ":" ++ environ_get env "PATH" "")%string
  else environ_set env "PATH" venv_bin.

(** A value that is given and truthy: what [if ref:] and [if include:] let
    through. *)
Definition present_str (o : option string) : option string :=
  match o with
  | Some s => if Py.truthy_str s then Some s else None
  | None => None
  end.

Definition present_patterns (o : option patterns) : option patterns :=
  match o with
  | Some p => if truthy_patterns p then Some p else None
  | None => None
  end.


(** A model written back as the document that [model_dump()] gives: every
    field under its name, [None] as null. *)
Definition dump_patterns (p : option patterns) : yaml :=
  match p with
  | None => YNull
  | Some (Single s) => YStr s
  | Some (Many l) => YSeq (map YStr l)
  end.

Definition dump_ModelConfig (c : ModelConfig) : yaml :=
  YMap [("repo", YStr (repo c));
        ("ref", match ref c with Some r => YStr r | None => YNull end);
        ("include", dump_patterns (include c));
        ("exclude", dump_patterns (exclude c))].

Definition dump_FacehuggerManifest (m : FacehuggerManifest) : yaml :=
  YMap [("models", YSeq (map dump_ModelConfig (models m)))].

(** Downloads and verifications in a trace, and what the download logs
    first. *)
Definition is_download (e : event) : bool :=
  match e with SnapshotDownload _ _ _ _ => true | _ => false end.

Definition is_verification (e : event) : bool :=
  match e with VerifyRepoChecksums _ _ _ => true | _ => false end.

Definition downloading_notice (repo : string) (ref : option string) : event :=
  Log INFO ("Downloading repo " ++ repo ++ at_ref ref)%string [].

(** The outcomes of the checksum verification that [verify_cache] handles. *)
Definition handled (r : result FolderVerification) : bool :=
  match r with
  | Returns _ => true
  | Raises (RepositoryNotFoundError _) => true
  | Raises (RevisionNotFoundError _) => true
  | Raises _ => false
  end.

(** Worlds for the failures of the loader and of the hub: no manifest file;
    a file that cannot be read; downloads that fail. *)
Definition no_file_world : World :=
  {| metadata_version := fun _ => None;
     is_file := fun _ => false;
     safe_load := fun _ => Returns YNull;
     hf_cache_ls := fun _ => Returns listing_ok;
     snapshot_download := fun _ _ _ _ _ => Returns tt;
     verify_repo_checksums := fun _ _ _ _ =>
       Raises (RepositoryNotFoundError "") |}.

Definition broken_file_world (e : exception) : World :=
  {| metadata_version := fun _ => None;
     is_file := fun _ => true;
     safe_load := fun _ => Raises e;
     hf_cache_ls := fun _ => Returns listing_ok;
     snapshot_download := fun _ _ _ _ _ => Returns tt;
     verify_repo_checksums := fun _ _ _ _ =>
       Raises (RepositoryNotFoundError "") |}.

Definition failing_download_world (doc : yaml) (e : exception) : World :=
  {| metadata_version := fun _ => None;
     is_file := fun _ => true;
     safe_load := fun _ => Returns doc;
     hf_cache_ls := fun _ => Returns listing_ok;
     snapshot_download := fun _ _ _ _ _ => Raises e;
     verify_repo_checksums := fun _ _ _ _ =>
       Raises (RepositoryNotFoundError "") |}.

Definition no_hf_world (doc : yaml) (e : exception) : World :=
  {| metadata_version := fun _ => None;
     is_file := fun _ => true;
     safe_load := fun _ => Returns doc;
     hf_cache_ls := fun _ => Raises e;
     snapshot_download := fun _ _ _ _ _ => Returns tt;
     verify_repo_checksums := fun _ _ _ _ =>
       Raises (RepositoryNotFoundError "") |}.

(** A manifest with one model, and that model. *)
Definition one_model : yaml :=
  YMap [("models", YSeq [YMap [("repo", YStr "owner/model-repo")]])].

Definition the_model : ModelConfig :=
  {| repo := "owner/model-repo"; ref := Some "main"; include := None;
     exclude := None |}.

(** A byte that is no line boundary of [str.splitlines] and starts none. *)
Definition plain (c : ascii) : bool :=
  negb (Py.is_byte 13 c || Py.is_linebreak c || Py.is_byte 194 c
        || Py.is_byte 226 c).

(* ===================================================================== *)
(** ** Properties of the command formatter *)
(* ===================================================================== *)

Section CommandFormatter.

Lemma fold_extend_flat_map (flag : string) (l parts : list string) :
  fold_left (fun parts pat => parts ++ [flag; pat]) l parts
  = parts ++ flat_map (fun p => [flag; p]) l.
Proof.
  revert parts; induction l as [|p l IH]; intros parts; simpl.
  - now rewrite app_nil_r.
  - rewrite IH, <- app_assoc. reflexivity.
Qed.

Lemma append_empty_r (s : string) : (s ++ "")%string = s.
Proof. induction s as [|c s IH]; simpl; [reflexivity | now rewrite IH]. Qed.

Lemma truthy_str_false (s : string) : Py.truthy_str s = false -> s = "".
Proof. destruct s; [reflexivity | discriminate]. Qed.

Lemma extend_patterns_given (flag : string) (value : option patterns)
    (parts : list string) :
  value <> Some (Single "") ->
  extend_patterns flag value parts
  = parts ++ flat_map (fun p => [flag; p]) (given_patterns value).
Proof.
  intros Hne. destruct value as [[s|l]|]; simpl.
  - destruct s; [congruence | reflexivity].
  - destruct l as [|p l]; simpl; [now rewrite app_nil_r|].
    now rewrite fold_extend_flat_map, <- app_assoc.
  - now rewrite app_nil_r.
Qed.

End CommandFormatter.

(** C3 (as amended): for a ref that is absent or non-empty, and include and
    exclude values that are absent, a list, or a non-empty single pattern,
    [build_hf_command] returns exactly the string the rendering rule
    describes: [hf download <repo>], [@<ref>] appended when a ref is given,
    one [--include <p>] pair per include pattern and one [--exclude <p>] pair
    per exclude pattern in the given order, joined by single spaces. *)
Theorem build_hf_command_matches_rule
    (repo : string) (ref : option string) (include exclude : option patterns) :
  ref <> Some "" ->
  include <> Some (Single "") ->
  exclude <> Some (Single "") ->
  build_hf_command repo ref include exclude
  = format_equivalent_command repo ref include exclude.
Proof.
  intros Href Hinc Hexc.
  unfold build_hf_command, format_equivalent_command.
  rewrite !extend_patterns_given by assumption.
  rewrite <- app_assoc. f_equal. f_equal.
  destruct ref as [r|]; simpl.
  - destruct r; [congruence | reflexivity].
  - now rewrite append_empty_r.
Qed.

(** The example of the specification, through the theorem. *)
Lemma build_hf_command_matches_rule_witness :
  build_hf_command "owner/model-repo" (Some "main")
    (Some (Many ["*.gguf"; "*.safetensors"])) None
  = "hf download owner/model-repo@main --include *.gguf --include *.safetensors".
Proof.
  rewrite (build_hf_command_matches_rule "owner/model-repo" (Some "main")
             (Some (Many ["*.gguf"; "*.safetensors"])) None);
    [reflexivity | discriminate | discriminate | discriminate].
Defined.

(** C3 as stated fails: an empty ref that is given is not appended, and a
    single empty include pattern gives no [--include] pair. *)
Lemma build_hf_command_empty_ref_counterexample :
  build_hf_command "owner/model-repo" (Some "") (Some (Single "")) None
  = "hf download owner/model-repo"
  /\ format_equivalent_command "owner/model-repo" (Some "") (Some (Single "")) None
     = "hf download owner/model-repo@ --include "
  /\ build_hf_command "owner/model-repo" (Some "") (Some (Single "")) None
     <> format_equivalent_command "owner/model-repo" (Some "")
          (Some (Single "")) None.
Proof. repeat split; try reflexivity. discriminate. Qed.

(* ===================================================================== *)
(** ** Laws of the monad of a run *)
(* ===================================================================== *)

Section RunLaws.

Context {A B : Type}.

Lemma prefixed_nil (r : ran A) : prefixed [] r = r.
Proof. now destruct r. Qed.

Lemma prefixed_prefixed (tr tr' : list event) (r : ran A) :
  prefixed tr (prefixed tr' r) = prefixed (tr ++ tr') r.
Proof. unfold prefixed. cbn. now rewrite app_assoc. Qed.

Lemma bind_ret (a : A) (f : A -> M B) (t : nat) : bind (ret a) f t = f a t.
Proof. unfold bind, ret. cbn. now destruct (f a t). Qed.

Lemma bind_emit (e : event) (f : unit -> M B) (t : nat) :
  bind (emit e) f t = prefixed [e] (f tt t).
Proof. reflexivity. Qed.

Lemma bind_Ok (m : M A) (f : A -> M B) (t c : nat) (tr : list event) (a : A) :
  m t = {| trace := tr; clock := c; ending := Ok a |} ->
  bind m f t = prefixed tr (f a c).
Proof. intros H. unfold bind. rewrite H. reflexivity. Qed.

Lemma bind_SystemExit (m : M A) (f : A -> M B) (t c : nat)
    (tr : list event) (msg : string) (exc : option exception) :
  m t = {| trace := tr; clock := c; ending := SystemExit msg exc |} ->
  bind m f t = {| trace := tr; clock := c; ending := SystemExit msg exc |}.
Proof. intros H. unfold bind. rewrite H. reflexivity. Qed.

Lemma bind_Raised (m : M A) (f : A -> M B) (t c : nat)
    (tr : list event) (e : exception) :
  m t = {| trace := tr; clock := c; ending := Raised e |} ->
  bind m f t = {| trace := tr; clock := c; ending := Raised e |}.
Proof. intros H. unfold bind. rewrite H. reflexivity. Qed.

Lemma bind_assoc {C} (m : M A) (f : A -> M B) (g : B -> M C) (t : nat) :
  bind (bind m f) g t = bind m (fun x => bind (f x) g) t.
Proof.
  unfold bind. destruct (m t) as [tr c [a|msg exc|e]]; cbn; try reflexivity.
  destruct (f a c) as [tr' c' [b|msg exc|e]]; cbn; try reflexivity.
  now rewrite app_assoc.
Qed.

(** A loop whose body only emits one event per item. *)
Lemma for_each_emit (f : A -> event) (l : list A) (t : nat) :
  for_each l (fun x => emit (f x)) t
  = {| trace := map f l; clock := t; ending := Ok tt |}.
Proof.
  induction l as [|x l IH]; [reflexivity|].
  cbn [for_each]. unfold bind. cbn. rewrite IH. reflexivity.
Qed.

End RunLaws.

Lemma for_each_log_lines (l : list string) (t : nat) :
  for_each l (fun line => logging_info line []) t
  = {| trace := map log_line l; clock := t; ending := Ok tt |}.
Proof. exact (for_each_emit log_line l t). Qed.

(* ===================================================================== *)
(** ** Properties of the cache inspector and the verifier *)
(* ===================================================================== *)

(** C7: when the [hf cache ls] subprocess exits with a non-zero code,
    [get_cache_listing] logs an error and returns the empty list (it neither
    raises nor exits); when it exits with code zero, [get_cache_listing]
    returns its standard output split into lines. *)
Theorem get_cache_listing_exit_codes (w : World) (t : nat) (cp : CompletedProcess) :
  hf_cache_ls w t = Returns cp ->
  (returncode cp <> 0%Z ->
   get_cache_listing w t
   = {| trace := [Subprocess ["hf"; "cache"; "ls"];
                  Log ERROR "hf cache ls failed with exit code %s"
                    [AInt (returncode cp)]];
        clock := S t;
        ending := Ok [] |})
  /\ (returncode cp = 0%Z ->
      get_cache_listing w t
      = {| trace := [Subprocess ["hf"; "cache"; "ls"]];
           clock := S t;
           ending := Ok (Py.splitlines (stdout cp)) |}).
Proof.
  intros Hls. split; intros Hrc.
  - unfold get_cache_listing, try_except, subprocess_run_hf_cache_ls, bind.
    cbn. rewrite Hls. cbn.
    destruct (Z.eqb_spec (returncode cp) 0) as [E|E]; [contradiction|].
    reflexivity.
  - unfold get_cache_listing, try_except, subprocess_run_hf_cache_ls, bind.
    cbn. rewrite Hls. cbn. rewrite Hrc. reflexivity.
Qed.

Lemma get_cache_listing_exit_codes_witness :
  get_cache_listing
    (quiet_world YNull
       {| returncode := 0; stdout := "models--a" ++ nl ++ "models--b" |} 0) 0
  = {| trace := [Subprocess ["hf"; "cache"; "ls"]];
       clock := 1;
       ending := Ok ["models--a"; "models--b"] |}
  /\ get_cache_listing
       (quiet_world YNull {| returncode := 2; stdout := "" |} 0) 5
     = {| trace := [Subprocess ["hf"; "cache"; "ls"];
                    Log ERROR "hf cache ls failed with exit code %s" [AInt 2]];
          clock := 6;
          ending := Ok [] |}.
Proof.
  split.
  - apply (get_cache_listing_exit_codes
             (quiet_world YNull
                {| returncode := 0;
                   stdout := "models--a" ++ nl ++ "models--b" |} 0) 0
             {| returncode := 0; stdout := "models--a" ++ nl ++ "models--b" |});
      reflexivity.
  - apply (get_cache_listing_exit_codes
             (quiet_world YNull {| returncode := 2; stdout := "" |} 0) 5
             {| returncode := 2; stdout := "" |});
      [reflexivity | discriminate].
Defined.

(** What [verify_cache] does, by what the checksum verification gave. *)
Lemma verify_cache_run (w : World) (repo : string)
    (repo_type ref : option string) (t : nat) :
  verify_cache w repo repo_type ref t
  = prefixed [verifying_notice repo ref; VerifyRepoChecksums repo repo_type ref]
      match verify_repo_checksums w t repo repo_type ref with
      | Returns result =>
          {| trace :=
               if Py.truthy_list (mismatches result)
               then Log ERROR
                      ("❌ Repo " ++ repo
                       ++ " checksum verification failed for the following file(s)")
                      []
                    :: map mismatch_line (mismatches result)
               else [success_summary repo repo_type result];
             clock := S t; ending := Ok tt |}
      | Raises (RepositoryNotFoundError msg) =>
          {| trace := [Log ERROR ("Repository " ++ repo ++ " not found: " ++ msg)
                         []];
             clock := S t; ending := Ok tt |}
      | Raises (RevisionNotFoundError msg) =>
          {| trace := [Log ERROR ("Repository " ++ repo ++ " revision "
                                  ++ str_of_opt ref ++ " not found: " ++ msg)
                         []];
             clock := S t; ending := Ok tt |}
      | Raises e => {| trace := []; clock := S t; ending := Raised e |}
      end.
Proof.
  unfold verify_cache. cbv beta zeta. unfold logging_info at 1.
  rewrite bind_emit.
  replace (if truthy_opt_str ref
           then ["hf"; "cache"; "verify"; repo] ++ ["--revision"; str_of_opt ref]
           else ["hf"; "cache"; "verify"; repo])
    with (if truthy_opt_str ref
          then ["hf"; "cache"; "verify"; repo; "--revision"; str_of_opt ref]
          else ["hf"; "cache"; "verify"; repo])
    by now destruct (truthy_opt_str ref).
  fold (verifying_notice repo ref).
  change [verifying_notice repo ref; VerifyRepoChecksums repo repo_type ref]
    with ([verifying_notice repo ref] ++ [VerifyRepoChecksums repo repo_type ref]).
  rewrite <- prefixed_prefixed. f_equal.
  match goal with
  | |- bind (try_except ?b ?h) ?k t = _ =>
      set (blk := try_except b h); set (rest := k)
  end.
  destruct (verify_repo_checksums w t repo repo_type ref) as [result|e] eqn:H.
  - assert (Hb : blk t = {| trace := [VerifyRepoChecksums repo repo_type ref];
                            clock := S t; ending := Ok (Some result) |}).
    { unfold blk, try_except, bind, tick, emit. cbn. rewrite H. reflexivity. }
    rewrite (bind_Ok _ _ _ _ _ _ Hb). f_equal. unfold rest.
    destruct (mismatches result) as [|m ms] eqn:Em; cbn [Py.truthy_list].
    + reflexivity.
    + unfold logging_error at 1. rewrite bind_emit.
      change (fun m0 : Mismatch => logging_error _ []) with
        (fun m0 => emit (mismatch_line m0)).
      rewrite for_each_emit. reflexivity.
  - assert (Hb : blk t
                 = match e with
                   | RepositoryNotFoundError msg =>
                       {| trace := [VerifyRepoChecksums repo repo_type ref;
                                    Log ERROR ("Repository " ++ repo
                                               ++ " not found: " ++ msg) []];
                          clock := S t; ending := Ok None |}
                   | RevisionNotFoundError msg =>
                       {| trace := [VerifyRepoChecksums repo repo_type ref;
                                    Log ERROR ("Repository " ++ repo
                                               ++ " revision " ++ str_of_opt ref
                                               ++ " not found: " ++ msg) []];
                          clock := S t; ending := Ok None |}
                   | _ => {| trace := [VerifyRepoChecksums repo repo_type ref];
                             clock := S t; ending := Raised e |}
                   end).
    { unfold blk, try_except, bind, tick, emit. cbn. rewrite H.
      destruct e; reflexivity. }
    unfold bind. rewrite Hb. destruct e; reflexivity.
Qed.

(** C8: the verifier returns normally in each handled outcome.  When the
    repository or the revision is not found it logs an error and returns;
    when the result has mismatches it logs a failure line and one line per
    mismatch with its path, expected digest, algorithm and actual digest, and
    returns; otherwise it logs a success summary with the checked count and
    the verified path.  In none of the four cases is anything raised. *)
Theorem verify_cache_handled (w : World) (t : nat) (repo : string)
    (repo_type ref : option string) :
  (forall msg,
      verify_repo_checksums w t repo repo_type ref
      = Raises (RepositoryNotFoundError msg) ->
      verify_cache w repo repo_type ref t
      = {| trace := [verifying_notice repo ref;
                     VerifyRepoChecksums repo repo_type ref;
                     Log ERROR ("Repository " ++ repo ++ " not found: " ++ msg)
                       []];
           clock := S t; ending := Ok tt |})
  /\ (forall msg,
         verify_repo_checksums w t repo repo_type ref
         = Raises (RevisionNotFoundError msg) ->
         verify_cache w repo repo_type ref t
         = {| trace := [verifying_notice repo ref;
                        VerifyRepoChecksums repo repo_type ref;
                        Log ERROR ("Repository " ++ repo ++ " revision "
                                   ++ str_of_opt ref ++ " not found: " ++ msg)
                          []];
              clock := S t; ending := Ok tt |})
  /\ (forall result,
         verify_repo_checksums w t repo repo_type ref = Returns result ->
         mismatches result <> [] ->
         verify_cache w repo repo_type ref t
         = {| trace := [verifying_notice repo ref;
                        VerifyRepoChecksums repo repo_type ref;
                        Log ERROR
                          ("❌ Repo " ++ repo
                           ++ " checksum verification failed for the following file(s)")
                          []]
                       ++ map mismatch_line (mismatches result);
              clock := S t; ending := Ok tt |})
  /\ (forall result,
         verify_repo_checksums w t repo repo_type ref = Returns result ->
         mismatches result = [] ->
         verify_cache w repo repo_type ref t
         = {| trace := [verifying_notice repo ref;
                        VerifyRepoChecksums repo repo_type ref;
                        success_summary repo repo_type result];
              clock := S t; ending := Ok tt |}).
Proof.
  repeat split.
  - intros msg H. rewrite verify_cache_run, H. reflexivity.
  - intros msg H. rewrite verify_cache_run, H. reflexivity.
  - intros result H Hm. rewrite verify_cache_run, H.
    destruct (mismatches result) as [|m ms] eqn:E; [congruence|].
    reflexivity.
  - intros result H Hm. rewrite verify_cache_run, H, Hm. reflexivity.
Qed.

Lemma verify_cache_handled_witness :
  ending (verify_cache (verifying_world (Raises (RepositoryNotFoundError "404")))
            "owner/gone" None (Some "main") 0) = Ok tt
  /\ ending (verify_cache (verifying_world (Raises (RevisionNotFoundError "404")))
               "owner/model-repo" None (Some "v9") 0) = Ok tt
  /\ verify_cache
       (verifying_world
          (Returns {| checked_count := 3; verified_path := "/cache";
                      mismatches := [bad_digest] |}))
       "owner/model-repo" None (Some "main") 0
     = {| trace :=
            [Log INFO
               "Verifying repo owner/model-repo@main, equivalent to: `hf cache verify owner/model-repo --revision main`"
               [];
             VerifyRepoChecksums "owner/model-repo" None (Some "main");
             Log ERROR
               "❌ Repo owner/model-repo checksum verification failed for the following file(s)"
               [];
             Log ERROR "  - model.gguf: expected aa11 (sha256), got bb22" []];
          clock := 1; ending := Ok tt |}
  /\ verify_cache
       (verifying_world
          (Returns {| checked_count := 3; verified_path := "/cache";
                      mismatches := [] |}))
       "owner/model-repo" None (Some "main") 0
     = {| trace :=
            [Log INFO
               "Verifying repo owner/model-repo@main, equivalent to: `hf cache verify owner/model-repo --revision main`"
               [];
             VerifyRepoChecksums "owner/model-repo" None (Some "main");
             Log INFO
               "✅ Verified 3 file(s) for 'owner/model-repo' (None) in /cache"
               []];
          clock := 1; ending := Ok tt |}.
Proof.
  split; [|split; [|split]].
  - rewrite (proj1 (verify_cache_handled
                      (verifying_world (Raises (RepositoryNotFoundError "404")))
                      0 "owner/gone" None (Some "main")) "404" eq_refl).
    reflexivity.
  - rewrite (proj1 (proj2 (verify_cache_handled
                      (verifying_world (Raises (RevisionNotFoundError "404")))
                      0 "owner/model-repo" None (Some "v9"))) "404" eq_refl).
    reflexivity.
  - rewrite (proj1 (proj2 (proj2 (verify_cache_handled
                      (verifying_world
                         (Returns {| checked_count := 3;
                                     verified_path := "/cache";
                                     mismatches := [bad_digest] |}))
                      0 "owner/model-repo" None (Some "main"))))
               _ eq_refl); [reflexivity | discriminate].
  - rewrite (proj2 (proj2 (proj2 (verify_cache_handled
                      (verifying_world
                         (Returns {| checked_count := 3;
                                     verified_path := "/cache";
                                     mismatches := [] |}))
                      0 "owner/model-repo" None (Some "main"))))
               _ eq_refl); reflexivity.
Defined.

(* ===================================================================== *)
(** ** Properties of the entry point: [--version] *)
(* ===================================================================== *)

(** C4: with [--version] the program prints the package version (["0.0.0"]
    when the package metadata is not found) and ends with exit status 0; that
    is all it does: the manifest is never looked at, whatever the manifest
    argument is and whether or not the file exists. *)
Theorem version_prints_and_exits (w : World) (args : Namespace) :
  version args = true ->
  run w args
  = {| trace := [Print (match metadata_version w "facehugger" with
                        | Some v => v
                        | None => "0.0.0"
                        end)];
       clock := 0;
       ending := Ok tt |}
  /\ exit_status (ending (run w args)) = 0%Z
  /\ count is_manifest_access (trace (run w args)) = 0.
Proof.
  intros Hv. unfold run, main. rewrite Hv. repeat split.
Qed.

Lemma version_prints_and_exits_witness :
  run {| metadata_version := fun _ => Some "1.4.2";
         is_file := fun _ => false;
         safe_load := fun _ => Raises (YAMLError "unreadable");
         hf_cache_ls := fun _ => Raises (FileNotFoundError "hf");
         snapshot_download := fun _ _ _ _ _ => Raises (OtherError "OSError" "");
         verify_repo_checksums := fun _ _ _ _ =>
           Raises (OtherError "OSError" "") |}
      {| manifest := "missing.yaml"; dry_run := false; version := true |}
  = {| trace := [Print "1.4.2"]; clock := 0; ending := Ok tt |}.
Proof.
  apply (version_prints_and_exits
           {| metadata_version := fun _ => Some "1.4.2";
              is_file := fun _ => false;
              safe_load := fun _ => Raises (YAMLError "unreadable");
              hf_cache_ls := fun _ => Raises (FileNotFoundError "hf");
              snapshot_download := fun _ _ _ _ _ =>
                Raises (OtherError "OSError" "");
              verify_repo_checksums := fun _ _ _ _ =>
                Raises (OtherError "OSError" "") |}
           {| manifest := "missing.yaml"; dry_run := false; version := true |}).
  reflexivity.
Defined.

(* ===================================================================== *)
(** ** Properties of the manifest model and the manifest loader *)
(* ===================================================================== *)

(** The loader on a file that exists and parses: it looks at the file, opens
    it, and ends by the validation of the document (the empty mapping for a
    document that is falsy). *)
Lemma load_manifest_parsed (w : World) (file_path : string) (v : yaml) (t : nat) :
  is_file w file_path = true ->
  safe_load w file_path = Returns v ->
  load_manifest w file_path t
  = {| trace := [IsFile file_path; OpenFile file_path];
       clock := t;
       ending :=
         match validate_FacehuggerManifest
                 (if truthy_yaml v then v else YMap []) with
         | Valid m => Ok m
         | Invalid errors =>
             SystemExit
               ("Facehugger manifest " ++ file_path ++ " failed validation: ")
               (Some (ValidationError errors))
         end |}.
Proof.
  intros Hf Hv. unfold load_manifest, try_except, bind. cbn.
  rewrite Hf. cbn. rewrite Hv. cbn.
  destruct (validate_FacehuggerManifest _); reflexivity.
Qed.

(** C1 (as amended): a manifest whose [models] key is missing fails schema
    validation, and the loader exits with a non-zero status and a message
    that names the manifest and the missing field; a manifest whose [models]
    key is an empty list passes validation and is loaded as a manifest with
    an empty [models] sequence. *)
Theorem load_manifest_models_key (w : World) (file_path : string) (v : yaml)
    (pairs : list (string * yaml)) (t : nat) :
  is_file w file_path = true ->
  safe_load w file_path = Returns v ->
  (if truthy_yaml v then v else YMap []) = YMap pairs ->
  (lookup "models" pairs = None ->
   ending (load_manifest w file_path t)
   = SystemExit ("Facehugger manifest " ++ file_path ++ " failed validation: ")
       (Some (ValidationError [{| loc := [Field "models"]; type := missing |}]))
   /\ exit_status (ending (load_manifest w file_path t)) <> 0%Z)
  /\ (lookup "models" pairs = Some (YSeq []) ->
      ending (load_manifest w file_path t) = Ok {| models := [] |}).
Proof.
  intros Hf Hv Hdoc.
  rewrite (load_manifest_parsed w file_path v t Hf Hv). cbn [ending].
  rewrite Hdoc. unfold validate_FacehuggerManifest, field.
  split; intros Hm; rewrite Hm; cbn.
  - split; [reflexivity | discriminate].
  - reflexivity.
Qed.

Lemma load_manifest_models_key_witness :
  ending (load_manifest
            (quiet_world (YMap [("other_key", YStr "other_value")]) listing_ok 0)
            "facehugger.yaml" 0)
  = SystemExit "Facehugger manifest facehugger.yaml failed validation: "
      (Some (ValidationError [{| loc := [Field "models"]; type := missing |}]))
  /\ ending (load_manifest (quiet_world YNull listing_ok 0) "facehugger.yaml" 0)
     = SystemExit "Facehugger manifest facehugger.yaml failed validation: "
         (Some (ValidationError [{| loc := [Field "models"]; type := missing |}])).
Proof.
  split.
  - apply (proj1 (load_manifest_models_key
                    (quiet_world (YMap [("other_key", YStr "other_value")])
                       listing_ok 0)
                    "facehugger.yaml" (YMap [("other_key", YStr "other_value")])
                    [("other_key", YStr "other_value")] 0
                    eq_refl eq_refl eq_refl) eq_refl).
  - apply (proj1 (load_manifest_models_key
                    (quiet_world YNull listing_ok 0)
                    "facehugger.yaml" YNull [] 0
                    eq_refl eq_refl eq_refl) eq_refl).
Defined.

(** C1 as stated fails: a manifest with [models: []] passes validation; the
    loader returns a manifest whose [models] sequence is empty. *)
Lemma load_manifest_empty_models_counterexample :
  exists m,
    ending (load_manifest
              (quiet_world (YMap [("models", YSeq [])]) listing_ok 0)
              "facehugger.yaml" 0) = Ok m
    /\ models m = [].
Proof. exists {| models := [] |}. split; reflexivity. Qed.







(** The two entries of that manifest as they are loaded. *)
Example load_two_entries :
  ending (load_manifest (quiet_world two_entries listing_ok 0)
            "facehugger.yaml" 0)
  = Ok {| models :=
            [{| repo := "test/model1"; ref := Some "v1.0";
                include := Some (Single "*.gguf");
                exclude := Some (Single "*.ckpt") |};
             {| repo := "test/model2"; ref := Some "main";
                include := None; exclude := None |}] |}.
Proof. reflexivity. Qed.

(* ===================================================================== *)
(** ** Properties of the entry point: the loop over the entries *)
(* ===================================================================== *)

Lemma process_entry_empty_repo (w : World) (args : Namespace)
    (entry : ModelConfig) (t : nat) :
  repo entry = "" ->
  process_entry w args entry t
  = {| trace := [skip_warning entry]; clock := t; ending := Ok tt |}.
Proof. intros H. unfold process_entry. rewrite H. reflexivity. Qed.



(* ===================================================================== *)
(** ** The shape of a run of [main] *)
(* ===================================================================== *)

Lemma log_diff_line_emit (line : string) (t : nat) :
  log_diff_line line t = emit (diff_line_event line) t.
Proof.
  unfold log_diff_line, diff_line_event.
  destruct (Py.startswith "+" line && negb (Py.startswith "+++" line))%bool;
    [reflexivity|].
  destruct (Py.startswith "-" line && negb (Py.startswith "---" line))%bool;
    reflexivity.
Qed.

Lemma for_each_log_diff_lines (l : list string) (t : nat) :
  for_each l log_diff_line t
  = {| trace := map diff_line_event l; clock := t; ending := Ok tt |}.
Proof.
  induction l as [|x l IH]; [reflexivity|].
  cbn [for_each]. unfold bind. rewrite log_diff_line_emit. cbn.
  rewrite IH. reflexivity.
Qed.

(** The cache inspector, by the way the subprocess ends. *)
Lemma get_cache_listing_run (w : World) (t : nat) :
  get_cache_listing w t
  = match hf_cache_ls w t with
    | Returns cp =>
        if Z.eqb (returncode cp) 0
        then {| trace := [Subprocess ["hf"; "cache"; "ls"]]; clock := S t;
                ending := Ok (Py.splitlines (stdout cp)) |}
        else {| trace := [Subprocess ["hf"; "cache"; "ls"];
                          Log ERROR "hf cache ls failed with exit code %s"
                            [AInt (returncode cp)]];
                clock := S t; ending := Ok [] |}
    | Raises (CalledProcessError code) =>
        {| trace := [Subprocess ["hf"; "cache"; "ls"];
                     Log ERROR "hf cache ls failed with exit code %s"
                       [AInt code]];
           clock := S t; ending := Ok [] |}
    | Raises e =>
        {| trace := [Subprocess ["hf"; "cache"; "ls"]]; clock := S t;
           ending := Raised e |}
    end.
Proof.
  unfold get_cache_listing, try_except, subprocess_run_hf_cache_ls, bind. cbn.
  destruct (hf_cache_ls w t) as [cp|e]; cbn.
  - destruct (Z.eqb (returncode cp) 0); reflexivity.
  - destruct e; reflexivity.
Qed.

(** One capture, then only logging; the clock moves by one. *)
Lemma get_cache_listing_shape (w : World) (t : nat) :
  exists rest,
    trace (get_cache_listing w t) = Subprocess ["hf"; "cache"; "ls"] :: rest
    /\ forallb is_log rest = true
    /\ clock (get_cache_listing w t) = S t.
Proof.
  rewrite get_cache_listing_run.
  destruct (hf_cache_ls w t) as [cp|e].
  - destruct (Z.eqb (returncode cp) 0); eexists; repeat split.
  - destruct e; eexists; repeat split.
Qed.

(** The end of [main], by the way the final capture ends. *)
Lemma show_final_cache_run (w : World) (initial_cache : list string) (t : nat) :
  show_final_cache w initial_cache t
  = match ending (get_cache_listing w t) with
    | Ok final_cache =>
        {| trace := trace (get_cache_listing w t)
                    ++ final_header :: map log_line final_cache
                    ++ diff_section initial_cache final_cache;
           clock := S t; ending := Ok tt |}
    | SystemExit msg exc =>
        {| trace := trace (get_cache_listing w t); clock := S t;
           ending := SystemExit msg exc |}
    | Raised e =>
        {| trace := trace (get_cache_listing w t); clock := S t;
           ending := Raised e |}
    end.
Proof.
  destruct (get_cache_listing_shape w t) as [rest [_ [_ Hc]]].
  unfold show_final_cache.
  destruct (get_cache_listing w t) as [tg cg [final|msg exc|e]] eqn:Eg;
    cbn [trace clock ending] in *; subst cg;
    [ rewrite (bind_Ok _ _ _ _ _ _ Eg)
    | now rewrite (bind_SystemExit _ _ _ _ _ _ _ Eg)
    | now rewrite (bind_Raised _ _ _ _ _ _ Eg) ].
  unfold logging_info at 1. rewrite bind_emit.
  rewrite (bind_Ok _ _ _ _ _ _ (for_each_log_lines final (S t))).
  unfold diff_section.
  destruct (Py.truthy_str (Py.join "" (cache_diff initial_cache final))).
  - unfold logging_info at 1. rewrite bind_emit, for_each_log_diff_lines.
    unfold prefixed, final_header, diff_header; cbn [trace clock ending].
    f_equal; repeat (rewrite <- app_assoc; cbn [app]); reflexivity.
  - unfold prefixed, ret, final_header; cbn [trace clock ending].
    f_equal; repeat (rewrite <- app_assoc; cbn [app]);
      rewrite ?app_nil_r; reflexivity.
Qed.

Lemma forallb_map_log {A} (f : A -> event) (l : list A) :
  (forall x, is_log (f x) = true) -> forallb is_log (map f l) = true.
Proof. intros H. induction l; cbn; [reflexivity | now rewrite H, IHl]. Qed.

Lemma diff_section_logs (initial_cache final_cache : list string) :
  forallb is_log (diff_section initial_cache final_cache) = true.
Proof.
  unfold diff_section. destruct (Py.truthy_str _); [|reflexivity].
  cbn. apply forallb_map_log. intros line. unfold diff_line_event.
  destruct (_ && _)%bool; [reflexivity|]. destruct (_ && _)%bool; reflexivity.
Qed.

(** The end of [main] captures the listing once, first, and then only logs. *)
Lemma show_final_cache_shape (w : World) (initial_cache : list string) (t : nat) :
  exists rest,
    trace (show_final_cache w initial_cache t)
    = Subprocess ["hf"; "cache"; "ls"] :: rest
    /\ forallb is_log rest = true.
Proof.
  rewrite show_final_cache_run.
  destruct (get_cache_listing_shape w t) as [rest [Ht [Hl _]]].
  destruct (ending (get_cache_listing w t)) as [final|msg exc|e];
    cbn [trace]; rewrite Ht.
  - eexists. split; [reflexivity|].
    rewrite forallb_app, Hl. cbn. rewrite forallb_app, diff_section_logs.
    rewrite forallb_map_log; [reflexivity | reflexivity].
  - now exists rest.
  - now exists rest.
Qed.

(** The loader only looks at the manifest file, and does not move the
    clock. *)
Lemma load_manifest_shape (w : World) (file_path : string) (t : nat) :
  forallb is_manifest_access (trace (load_manifest w file_path t)) = true
  /\ clock (load_manifest w file_path t) = t.
Proof.
  unfold load_manifest, try_except, bind. cbn.
  destruct (is_file w file_path); cbn; [|split; reflexivity].
  destruct (safe_load w file_path) as [v|e]; cbn.
  - destruct (validate_FacehuggerManifest _); split; reflexivity.
  - destruct e; split; reflexivity.
Qed.

Lemma count_app (p : event -> bool) (l l' : list event) :
  count p (l ++ l') = count p l + count p l'.
Proof. unfold count. now rewrite filter_app, length_app. Qed.

Lemma count_none (p q : event -> bool) (l : list event) :
  (forall e, q e = true -> p e = false) ->
  forallb q l = true -> count p l = 0.
Proof.
  intros Hpq. unfold count. induction l as [|e l IH]; cbn; [reflexivity|].
  intros H. apply andb_prop in H as [He Hl]. rewrite (Hpq e He). auto.
Qed.

Lemma log_is_no_capture (e : event) : is_log e = true -> is_cache_capture e = false.
Proof. now destruct e. Qed.

Lemma log_is_no_transfer (e : event) : is_log e = true -> is_transfer e = false.
Proof. now destruct e. Qed.

Lemma access_is_no_capture (e : event) :
  is_manifest_access e = true -> is_cache_capture e = false.
Proof. now destruct e. Qed.

Lemma access_is_no_transfer (e : event) :
  is_manifest_access e = true -> is_transfer e = false.
Proof. now destruct e. Qed.

(** [main] without [--version], by the way each of its steps ends. *)
Lemma run_no_version (w : World) (args : Namespace) :
  version args = false ->
  run w args =
  let l := load_manifest w (manifest args) 0 in
  match ending l with
  | Ok data =>
      if negb (Py.truthy_list (models data)) then
        prefixed (trace l ++ [no_models_notice (manifest args)])
          (show_final_cache w [] (clock l))
      else
        let g := get_cache_listing w (clock l) in
        match ending g with
        | Ok initial =>
            let p := for_each (models data) (process_entry w args) (clock g) in
            let shown :=
              trace l ++ trace g ++ initial_header :: map log_line initial
              ++ trace p in
            match ending p with
            | Ok _ => prefixed shown (show_final_cache w initial (clock p))
            | SystemExit msg exc =>
                {| trace := shown; clock := clock p;
                   ending := SystemExit msg exc |}
            | Raised e =>
                {| trace := shown; clock := clock p; ending := Raised e |}
            end
        | SystemExit msg exc =>
            {| trace := trace l ++ trace g; clock := clock g;
               ending := SystemExit msg exc |}
        | Raised e =>
            {| trace := trace l ++ trace g; clock := clock g;
               ending := Raised e |}
        end
  | SystemExit msg exc =>
      {| trace := trace l; clock := clock l; ending := SystemExit msg exc |}
  | Raised e => {| trace := trace l; clock := clock l; ending := Raised e |}
  end.
Proof.
  intros Hv. unfold run, main. rewrite Hv. cbv zeta.
  destruct (load_manifest w (manifest args) 0) as [tl cl [data|msg exc|e]] eqn:El;
    cbn [trace clock ending];
    [ rewrite (bind_Ok _ _ _ _ _ _ El)
    | now rewrite (bind_SystemExit _ _ _ _ _ _ _ El)
    | now rewrite (bind_Raised _ _ _ _ _ _ El) ].
  destruct (Py.truthy_list (models data)); cbn [negb].
  - rewrite bind_assoc.
    destruct (get_cache_listing w cl) as [tg cg [initial|msg exc|e]] eqn:Eg;
      cbn [trace clock ending];
      [ rewrite (bind_Ok _ _ _ _ _ _ Eg)
      | now rewrite (bind_SystemExit _ _ _ _ _ _ _ Eg)
      | now rewrite (bind_Raised _ _ _ _ _ _ Eg) ].
    rewrite bind_assoc. unfold logging_info at 1. rewrite bind_emit.
    rewrite bind_assoc.
    rewrite (bind_Ok _ _ _ _ _ _ (for_each_log_lines initial cg)).
    rewrite bind_assoc.
    destruct (for_each (models data) (process_entry w args) cg)
      as [tp cp [[]|msg exc|e]] eqn:Ep; cbn [trace clock ending];
      [ rewrite (bind_Ok _ _ _ _ _ _ Ep), bind_ret
      | rewrite (bind_SystemExit _ _ _ _ _ _ _ Ep)
      | rewrite (bind_Raised _ _ _ _ _ _ Ep) ];
      rewrite ?prefixed_prefixed; unfold prefixed, initial_header;
      cbn [trace clock ending]; f_equal;
      repeat (rewrite <- app_assoc; cbn [app]); reflexivity.
  - rewrite bind_assoc. unfold logging_info at 1. rewrite bind_emit, bind_ret.
    rewrite prefixed_prefixed. reflexivity.
Qed.

(* ===================================================================== *)
(** ** Properties of the entry point: a manifest without entries *)
(* ===================================================================== *)




(* ===================================================================== *)
(** ** Properties of the entry point: [--dry-run] *)
(* ===================================================================== *)

Lemma process_entry_dry_run (w : World) (args : Namespace)
    (entry : ModelConfig) (t : nat) :
  dry_run args = true ->
  process_entry w args entry t
  = {| trace := [dry_run_event entry]; clock := t; ending := Ok tt |}.
Proof.
  intros Hd. unfold process_entry, dry_run_event. rewrite Hd.
  destruct (Py.truthy_str (repo entry)); reflexivity.
Qed.

Lemma for_each_dry_run (w : World) (args : Namespace)
    (entries : list ModelConfig) (t : nat) :
  dry_run args = true ->
  for_each entries (process_entry w args) t
  = {| trace := map dry_run_event entries; clock := t; ending := Ok tt |}.
Proof.
  intros Hd. induction entries as [|entry rest IH]; [reflexivity|].
  cbn [for_each].
  rewrite (bind_Ok _ _ _ _ _ _ (process_entry_dry_run w args entry t Hd)).
  rewrite IH. reflexivity.
Qed.

Lemma prefix_append (p s : string) : String.prefix p (p ++ s) = true.
Proof.
  induction p as [|c p IH]; cbn; [now destruct s|].
  destruct (Ascii.ascii_dec c c); [exact IH | congruence].
Qed.

Lemma rendered_command_is_rendered (entry : ModelConfig) :
  is_rendered_command (rendered_command entry) = true.
Proof.
  unfold is_rendered_command, rendered_command, Py.startswith.
  apply prefix_append.
Qed.

Lemma count_rendered_dry_run (entries : list ModelConfig) :
  count is_rendered_command (map dry_run_event entries)
  = length (filter has_repo entries).
Proof.
  unfold count. induction entries as [|entry rest IH]; [reflexivity|].
  cbn [map filter]. unfold dry_run_event at 1, has_repo at 1.
  destruct (Py.truthy_str (repo entry)).
  - rewrite rendered_command_is_rendered. cbn [length]. now rewrite IH.
  - cbn. exact IH.
Qed.

Lemma dry_run_event_no_transfer (entries : list ModelConfig) :
  count is_transfer (map dry_run_event entries) = 0.
Proof.
  unfold count. induction entries as [|entry rest IH]; [reflexivity|].
  cbn [map filter]. unfold dry_run_event at 1.
  destruct (Py.truthy_str (repo entry)); exact IH.
Qed.

Lemma load_manifest_no_transfer (w : World) (file_path : string) (t : nat) :
  count is_transfer (trace (load_manifest w file_path t)) = 0.
Proof.
  apply (count_none _ is_manifest_access); [exact access_is_no_transfer|].
  apply load_manifest_shape.
Qed.

Lemma get_cache_listing_no_transfer (w : World) (t : nat) :
  count is_transfer (trace (get_cache_listing w t)) = 0.
Proof.
  destruct (get_cache_listing_shape w t) as [rest [Ht [Hl _]]]. rewrite Ht.
  change (count is_transfer rest = 0).
  now apply (count_none _ is_log rest log_is_no_transfer).
Qed.

Lemma show_final_cache_no_transfer (w : World) (initial : list string) (t : nat) :
  count is_transfer (trace (show_final_cache w initial t)) = 0.
Proof.
  destruct (show_final_cache_shape w initial t) as [rest [Ht Hl]]. rewrite Ht.
  change (count is_transfer rest = 0).
  now apply (count_none _ is_log rest log_is_no_transfer).
Qed.

Lemma log_lines_no_transfer (l : list string) :
  count is_transfer (map log_line l) = 0.
Proof.
  apply (count_none _ is_log); [exact log_is_no_transfer|].
  now apply forallb_map_log.
Qed.

(** C5 (as amended): with [--dry-run] the run performs no download and no
    verification, whatever the manifest and the world; its loop over the
    entries does nothing but log, in manifest order, the rendered command of
    each entry that has a non-empty repo and the warning of each entry whose
    repo is empty, so that the rendered commands are as many as the entries
    with a non-empty repo; and when the manifest has entries and the initial
    listing returns, the run is the loading of the manifest, the initial
    capture and its listing, those log lines, and the final capture. *)
Theorem dry_run_renders_without_transfers (w : World) (args : Namespace) :
  version args = false ->
  dry_run args = true ->
  count is_transfer (trace (run w args)) = 0
  /\ (forall entries t,
         for_each entries (process_entry w args) t
         = {| trace := map dry_run_event entries; clock := t;
              ending := Ok tt |})
  /\ (forall entries,
         count is_rendered_command (map dry_run_event entries)
         = length (filter has_repo entries))
  /\ (forall m initial,
         ending (load_manifest w (manifest args) 0) = Ok m ->
         models m <> [] ->
         ending (get_cache_listing w 0) = Ok initial ->
         trace (run w args)
         = trace (load_manifest w (manifest args) 0)
           ++ trace (get_cache_listing w 0)
           ++ initial_header :: map log_line initial
           ++ map dry_run_event (models m)
           ++ trace (show_final_cache w initial 1)).
Proof.
  intros Hv Hd.
  pose proof (load_manifest_shape w (manifest args) 0) as [_ Hc0].
  split; [|split; [|split]].
  - rewrite (run_no_version w args Hv). cbv zeta. rewrite Hc0.
    pose proof (load_manifest_no_transfer w (manifest args) 0) as Hl.
    pose proof (get_cache_listing_no_transfer w 0) as Hg.
    destruct (ending (load_manifest w (manifest args) 0)) as [m|msg exc|e];
      cbn [trace]; try exact Hl.
    destruct (negb (Py.truthy_list (models m))).
    + unfold prefixed; cbn [trace]. rewrite !count_app, Hl.
      now rewrite show_final_cache_no_transfer.
    + destruct (ending (get_cache_listing w 0)) as [initial|msg exc|e];
        cbn [trace]; try (now rewrite count_app, Hl, Hg).
      rewrite (for_each_dry_run w args (models m) _ Hd). cbn [trace ending clock].
      unfold prefixed; cbn [trace].
      change (initial_header :: map log_line initial ++ map dry_run_event (models m))
        with ([initial_header] ++ map log_line initial
              ++ map dry_run_event (models m)).
      rewrite !count_app, Hl, Hg, log_lines_no_transfer,
        dry_run_event_no_transfer, show_final_cache_no_transfer.
      reflexivity.
  - intros entries t. now apply for_each_dry_run.
  - exact count_rendered_dry_run.
  - intros m initial Hm Hne Hi.
    rewrite (run_no_version w args Hv). cbv zeta. rewrite Hc0, Hm.
    destruct (models m) as [|entry rest] eqn:Em; [congruence|].
    cbn [Py.truthy_list negb]. rewrite Hi.
    rewrite (for_each_dry_run w args _ _ Hd). cbn [trace ending clock].
    destruct (get_cache_listing_shape w 0) as [r [_ [_ Hc1]]]. rewrite Hc1.
    unfold prefixed; cbn [trace].
    repeat (rewrite <- app_assoc; cbn [app]). reflexivity.
Qed.

Lemma dry_run_renders_without_transfers_witness :
  count is_transfer
    (trace (run (quiet_world empty_repo_manifest listing_one 1) dry_args)) = 0
  /\ trace (run (quiet_world empty_repo_manifest listing_one 1) dry_args)
     = [IsFile "facehugger.yaml"; OpenFile "facehugger.yaml";
        Subprocess ["hf"; "cache"; "ls"];
        initial_header;
        Log INFO "models--owner--model-repo" [];
        skip_warning {| repo := ""; ref := Some "main"; include := None;
                        exclude := None |};
        Log INFO "Equivalent command: `hf download owner/model-repo@main`" [];
        Subprocess ["hf"; "cache"; "ls"];
        final_header;
        Log INFO "models--owner--model-repo" []].
Proof.
  split.
  - exact (proj1 (dry_run_renders_without_transfers
                    (quiet_world empty_repo_manifest listing_one 1) dry_args
                    eq_refl eq_refl)).
  - rewrite (proj2 (proj2 (proj2 (dry_run_renders_without_transfers
               (quiet_world empty_repo_manifest listing_one 1) dry_args
               eq_refl eq_refl)))
               {| models :=
                    [{| repo := ""; ref := Some "main"; include := None;
                        exclude := None |};
                     {| repo := "owner/model-repo"; ref := Some "main";
                        include := None; exclude := None |}] |}
               ["models--owner--model-repo"]
               eq_refl ltac:(discriminate) eq_refl).
    reflexivity.
Defined.

(** C5 as stated fails: a valid manifest with one entry whose repo is the
    empty string gives, under [--dry-run], no rendered command at all. *)
Lemma dry_run_empty_repo_counterexample :
  (exists m,
      ending (load_manifest (quiet_world only_empty_repo listing_ok 0)
                "facehugger.yaml" 0) = Ok m
      /\ length (models m) = 1)
  /\ trace (run (quiet_world only_empty_repo listing_ok 0) dry_args)
     = [IsFile "facehugger.yaml"; OpenFile "facehugger.yaml";
        Subprocess ["hf"; "cache"; "ls"];
        initial_header;
        skip_warning {| repo := ""; ref := Some "main"; include := None;
                        exclude := None |};
        Subprocess ["hf"; "cache"; "ls"];
        final_header]
  /\ count is_rendered_command
       (trace (run (quiet_world only_empty_repo listing_ok 0) dry_args)) = 0.
Proof.
  split; [|split]; try reflexivity.
  eexists. split; reflexivity.
Qed.

(* ===================================================================== *)
(** ** Properties of the diff *)
(* ===================================================================== *)

Module DifflibFacts.

Import difflib.
Local Open Scope Z_scope.

(** *** [b2j] lists, for each element that is not popular, all its
    positions in increasing order *)

Lemma b2j_get_setdefault (e : string) (i : Z) (m : b2j_t) (x : string) :
  b2j_get (setdefault_append e i m) x
  = if String.eqb e x then b2j_get m x ++ [i] else b2j_get m x.
Proof.
  induction m as [|[k idxs] rest IH]; cbn.
  - destruct (String.eqb e x); reflexivity.
  - destruct (String.eqb_spec k e) as [Eke|Nke]; cbn.
    + subst k. destruct (String.eqb e x); reflexivity.
    + rewrite IH. destruct (String.eqb_spec k x) as [Ekx|Nkx]; [|reflexivity].
      subst k. destruct (String.eqb_spec e x); [congruence | reflexivity].
Qed.

Lemma b2j_get_enumerate (b : list string) (i : Z) (m : b2j_t) (x : string) :
  b2j_get (enumerate_into b i m) x = b2j_get m x ++ positions b x i.
Proof.
  revert i m; induction b as [|elt rest IH]; intros i m; cbn.
  - now rewrite app_nil_r.
  - rewrite IH, b2j_get_setdefault.
    destruct (String.eqb elt x); [now rewrite <- app_assoc | reflexivity].
Qed.

Lemma keys_setdefault (e : string) (i : Z) (m : b2j_t) :
  keys (setdefault_append e i m) = keys m
  \/ (~ In e (keys m) /\ keys (setdefault_append e i m) = keys m ++ [e]).
Proof.
  induction m as [|[k idxs] rest IH]; cbn.
  - right. split; [tauto | reflexivity].
  - destruct (String.eqb_spec k e) as [Eke|Nke]; cbn; [now left|].
    destruct IH as [IH|[Hn IH]].
    + left. unfold keys in IH. now rewrite IH.
    + right. split; [intros [H|H]; [congruence | tauto]|].
      unfold keys in IH. now rewrite IH.
Qed.

Lemma keys_nodup_setdefault (e : string) (i : Z) (m : b2j_t) :
  NoDup (keys m) -> NoDup (keys (setdefault_append e i m)).
Proof.
  intros H. destruct (keys_setdefault e i m) as [E|[Hn E]]; rewrite E; [exact H|].
  apply NoDup_app; [exact H | repeat constructor; intros [] | ].
  intros x Hx [Hx'|[]]. subst. contradiction.
Qed.

Lemma keys_nodup_enumerate (b : list string) (i : Z) (m : b2j_t) :
  NoDup (keys m) -> NoDup (keys (enumerate_into b i m)).
Proof.
  revert i m; induction b as [|elt rest IH]; intros i m H; cbn; [exact H|].
  apply IH. now apply keys_nodup_setdefault.
Qed.

Lemma b2j_get_not_key (m : b2j_t) (x : string) :
  ~ In x (keys m) -> b2j_get m x = [].
Proof.
  induction m as [|[k idxs] rest IH]; cbn; [reflexivity|].
  intros H. destruct (String.eqb_spec k x); [tauto|]. apply IH. tauto.
Qed.

Lemma b2j_get_filter (f : string * list Z -> bool) (m : b2j_t) (x : string) :
  NoDup (keys m) ->
  b2j_get (filter f m) x = [] \/ b2j_get (filter f m) x = b2j_get m x.
Proof.
  induction m as [|[k idxs] rest IH]; cbn; [now left|].
  intros H. inversion H as [|? ? Hk Hrest]; subst.
  destruct (f (k, idxs)); cbn.
  - destruct (String.eqb_spec k x); [now right | now apply IH].
  - destruct (String.eqb_spec k x) as [E|N]; [|now apply IH].
    subst k. left. apply b2j_get_not_key.
    intros Hin. apply Hk. unfold keys in *. apply in_map_iff in Hin as [[k' v] [E Hin]].
    apply in_map_iff. exists (k', v). split; [exact E|].
    now apply filter_In in Hin as [Hin _].
Qed.

Lemma chain_b_get (a : list string) (x : string) :
  b2j_get (chain_b a) x = [] \/ b2j_get (chain_b a) x = positions a x 0.
Proof.
  unfold chain_b.
  assert (Hall : b2j_get (enumerate_into a 0 []) x = positions a x 0)
    by now rewrite b2j_get_enumerate.
  destruct (len a >=? 200).
  - destruct (b2j_get_filter
                (fun kv => negb (len (snd kv) >? len a / 100 + 1))
                (enumerate_into a 0 []) x) as [E|E].
    + apply keys_nodup_enumerate. constructor.
    + now left.
    + right. now rewrite E.
  - now right.
Qed.

Lemma positions_spec (b : list string) (x : string) (i j : Z) :
  In j (positions b x i) <->
  i <= j < i + len b /\ nth (Z.to_nat (j - i)) b "" = x.
Proof.
  revert i; induction b as [|elt rest IH]; intros i; cbn [positions].
  - unfold len; cbn. split; [intros [] | lia].
  - assert (Hl : len (elt :: rest) = len rest + 1) by (unfold len; cbn [length]; lia).
    rewrite Hl.
    assert (Hstep : forall j', i + 1 <= j' ->
              nth (Z.to_nat (j' - i)) (elt :: rest) "" = nth (Z.to_nat (j' - (i + 1))) rest "").
    { intros j' Hj'. replace (Z.to_nat (j' - i)) with (S (Z.to_nat (j' - (i + 1)))) by lia.
      reflexivity. }
    destruct (String.eqb_spec elt x) as [E|N].
    + cbn [In]. rewrite IH. split.
      * intros [H|[H1 H2]].
        -- subst j. split; [unfold len; lia|]. now rewrite Z.sub_diag.
        -- split; [lia|]. now rewrite Hstep by lia.
      * intros [H1 H2]. destruct (Z.eq_dec i j) as [|Hne]; [now left|right].
        split; [lia|]. now rewrite <- Hstep by lia.
    + rewrite IH. split.
      * intros [H1 H2]. split; [lia|]. now rewrite Hstep by lia.
      * intros [H1 H2]. destruct (Z.eq_dec i j) as [|Hne].
        -- subst j. rewrite Z.sub_diag in H2. cbn in H2. contradiction.
        -- split; [lia|]. now rewrite <- Hstep by lia.
Qed.

Lemma positions_sorted (b : list string) (x : string) (i : Z) :
  StronglySorted Z.lt (positions b x i).
Proof.
  revert i; induction b as [|elt rest IH]; intros i; cbn [positions].
  - constructor.
  - destruct (String.eqb elt x); [|apply IH].
    constructor; [apply IH|]. apply Forall_forall. intros j Hj.
    apply positions_spec in Hj. lia.
Qed.

Section EqualSequences.

Variable a : list string.

Lemma run_length_nonneg (k : nat) : 0 <= run_length a k.
Proof.
  induction k as [|k IH]; cbn; [lia|].
  destruct (unpopular a (Z.of_nat k)); lia.
Qed.

Lemma run_length_bound (k : nat) : run_length a k <= Z.of_nat k.
Proof.
  induction k as [|k IH]; cbn [run_length]; [lia|].
  destruct (unpopular a (Z.of_nat k)); lia.
Qed.

Lemma run_to_nonneg (j : Z) : 0 <= run_to a j.
Proof. apply run_length_nonneg. Qed.

Lemma run_to_neg (j : Z) : j < 0 -> run_to a j = 0.
Proof.
  intros H. unfold run_to. replace (Z.to_nat (j + 1)) with O by lia. reflexivity.
Qed.

Lemma run_to_step (j : Z) :
  0 <= j ->
  run_to a j = if unpopular a j then run_to a (j - 1) + 1 else 0.
Proof.
  intros H. unfold run_to.
  replace (Z.to_nat (j + 1)) with (S (Z.to_nat j)) by lia.
  cbn [run_length]. rewrite Z2Nat.id by lia.
  replace (j - 1 + 1) with j by lia. reflexivity.
Qed.

Lemma run_to_bound (j : Z) : 0 <= j -> run_to a j <= j + 1.
Proof.
  intros H. unfold run_to. pose proof (run_length_bound (Z.to_nat (j + 1))). lia.
Qed.

Lemma item_nth (i : Z) : item a i = nth (Z.to_nat (i - 0)) a "".
Proof. unfold item. now rewrite Z.sub_0_r. Qed.

Lemma unpopular_positions (i : Z) :
  unpopular a i = true ->
  b2j_get (chain_b a) (item a i) = positions a (item a i) 0.
Proof.
  unfold unpopular. intros H.
  destruct (chain_b_get a (item a i)) as [E|E]; [|exact E].
  rewrite E in H. discriminate.
Qed.

Lemma unpopular_same (i j : Z) :
  unpopular a i = true ->
  In j (b2j_get (chain_b a) (item a i)) ->
  0 <= j < len a /\ unpopular a j = true.
Proof.
  intros Hi Hj. pose proof Hi as Hi'. unfold unpopular in Hi'.
  rewrite (unpopular_positions i Hi) in Hj.
  apply positions_spec in Hj as [Hr Hx]. rewrite <- item_nth in Hx.
  split; [lia|]. unfold unpopular. now rewrite Hx.
Qed.

Lemma unpopular_self (i : Z) :
  0 <= i < len a ->
  unpopular a i = true ->
  In i (b2j_get (chain_b a) (item a i)).
Proof.
  intros Hr Hi. rewrite (unpopular_positions i Hi).
  apply positions_spec. split; [lia | now rewrite <- item_nth].
Qed.

Lemma scan_row_inv (i : Z) (j2len : list (Z * Z)) :
  0 <= i < len a ->
  unpopular a i = true ->
  (forall j, j2len_get j2len j <= run_to a j) ->
  (forall j, j2len_get j2len j <= run_to a (i - 1)) ->
  j2len_get j2len (i - 1) = run_to a (i - 1) ->
  forall js newj2len best,
    StronglySorted Z.lt js ->
    Forall (fun j => 0 <= j < len a /\ unpopular a j = true) js ->
    row_inv a i js newj2len best ->
    row_inv a i [] (fst (scan_row js i 0 (len a) j2len newj2len best))
      (snd (scan_row js i 0 (len a) j2len newj2len best)).
Proof.
  intros Hi Hu Hle1 Hle2 Heq.
  pose proof (run_to_step i (proj1 Hi)) as Hstep; rewrite Hu in Hstep.
  induction js as [|j rest IH]; intros newj2len best Hs Hf Hinv; [exact Hinv|].
  inversion Hs as [|? ? Hs' Hgt]; subst.
  inversion Hf as [|? ? [Hj Huj] Hf']; subst.
  cbn [scan_row].
  destruct (Z.ltb_spec j 0) as [?|_]; [lia|].
  destruct (Z.geb_spec j (len a)) as [?|_]; [lia|].
  cbv zeta. apply IH; [exact Hs' | exact Hf' |].
  destruct Hinv as [Hdis [Hn1 [Hn2 [Hd [Ha [Hz [Hb Hprev]]]]]]].
  set (k := j2len_get j2len (j - 1) + 1).
  pose proof (run_to_step j (proj1 Hj)) as Hsj; rewrite Huj in Hsj.
  assert (Hkj : k <= run_to a j) by (pose proof (Hle1 (j - 1)); lia).
  assert (Hki : k <= run_to a i) by (pose proof (Hle2 (j - 1)); lia).
  assert (Hkii : j = i -> k = run_to a i) by (intros ->; unfold k; lia).
  assert (Hup : k > m_size best -> j = i).
  { intros Hk. destruct (Z.lt_trichotomy j i) as [Hlt|[E|Hlt]]; [|exact E|].
    - pose proof (Hprev j ltac:(lia)). lia.
    - destruct Hdis as [[E|Hin]|[Hr _]]; [lia| |lia].
      rewrite Forall_forall in Hgt. pose proof (Hgt i Hin). lia. }
  pose proof (run_to_bound i (proj1 Hi)) as Hbi.
  assert (Hget : forall j',
             j2len_get ((j, k) :: newj2len) j'
             = if j =? j' then k else j2len_get newj2len j') by reflexivity.
  unfold row_inv, best_inv. repeat apply conj.
  - destruct Hdis as [[E|Hin]|[Hr Hg]].
    + right. subst j. rewrite Hget, Z.eqb_refl. split; [|now apply Hkii].
      destruct (Z.gtb_spec k (m_size best)); cbn [m_size]; lia.
    + now left.
    + right. split.
      * destruct (Z.gtb_spec k (m_size best)); cbn [m_size]; lia.
      * rewrite Hget. destruct (Z.eqb_spec j i); [now apply Hkii | exact Hg].
  - intros j'. rewrite Hget. destruct (Z.eqb_spec j j'); [subst; exact Hkj | apply Hn1].
  - intros j'. rewrite Hget. destruct (Z.eqb_spec j j'); [exact Hki | apply Hn2].
  - destruct (Z.gtb_spec k (m_size best)) as [Hk|Hk]; cbn [m_a m_b]; [|exact Hd].
    rewrite (Hup ltac:(lia)). reflexivity.
  - destruct (Z.gtb_spec k (m_size best)) as [Hk|Hk]; cbn [m_a]; lia.
  - destruct (Z.gtb_spec k (m_size best)) as [Hk|Hk]; cbn [m_size]; lia.
  - destruct (Z.gtb_spec k (m_size best)) as [Hk|Hk]; cbn [m_a m_size]; lia.
  - intros j' Hj'. pose proof (Hprev j' Hj').
    destruct (Z.gtb_spec k (m_size best)) as [Hk|Hk]; cbn [m_size]; lia.
Qed.

Lemma scan_rows_inv (rows : nat) :
  forall i j2len best,
    0 <= i ->
    i + Z.of_nat rows = len a ->
    rows_inv a i j2len best ->
    let best' := scan_rows rows a (chain_b a) i 0 (len a) j2len best in
    m_a best' = m_b best' /\ 0 <= m_a best' /\ 0 <= m_size best'
    /\ m_a best' + m_size best' <= len a.
Proof.
  induction rows as [|rows IH]; intros i j2len best Hi Hn Hinv; cbn [scan_rows].
  - destruct Hinv as [_ [_ [_ [Hd [Ha [Hz [Hb _]]]]]]]. cbv zeta. repeat apply conj; lia.
  - destruct Hinv as [Hle1 [Hle2 [Heq [Hd [Ha [Hz [Hb Hprev]]]]]]].
    assert (Hr : 0 <= i < len a) by lia.
    pose proof (run_to_step i Hi) as Hstep.
    destruct (scan_row (b2j_get (chain_b a) (item a i)) i 0 (len a) j2len [] best)
      as [newj2len best'] eqn:Erow.
    apply IH; [lia | lia |].
    unfold rows_inv. replace (i + 1 - 1) with i by lia.
    destruct (unpopular a i) eqn:Hu.
    + pose proof (scan_row_inv i j2len Hr Hu Hle1 Hle2 Heq
                    (b2j_get (chain_b a) (item a i)) [] best) as Hrow.
      rewrite Erow in Hrow. cbn [fst snd] in Hrow.
      destruct Hrow as [Hdis [Hn1 [Hn2 [Hd' [Ha' [Hz' [Hb' Hprev']]]]]]].
      * rewrite (unpopular_positions i Hu). apply positions_sorted.
      * apply Forall_forall. intros j Hj. now apply (unpopular_same i j).
      * repeat apply conj; try assumption; try lia.
        -- left. now apply unpopular_self.
        -- intros j. cbn. apply run_to_nonneg.
        -- intros j. cbn. apply run_to_nonneg.
      * destruct Hdis as [[]|[Hri Hgi]].
        repeat apply conj; try assumption.
        intros j Hj. destruct (Z.eq_dec j i); [subst; exact Hri | apply Hprev'; lia].
    + unfold unpopular in Hu.
      destruct (b2j_get (chain_b a) (item a i)); [|discriminate].
      cbn in Erow. inversion Erow; subst.
      repeat apply conj; try assumption; try lia.
      * intros j. cbn. apply run_to_nonneg.
      * intros j. cbn. apply run_to_nonneg.
      * cbn. lia.
      * intros j Hj. destruct (Z.eq_dec j i); [subst; lia | apply Hprev; lia].
Qed.


Lemma extend_left_equal (turns : nat) :
  forall best,
    m_a best = m_b best ->
    Z.of_nat turns = m_a best ->
    extend_left turns false a a 0 0 best
    = {| m_a := 0; m_b := 0; m_size := m_size best + m_a best |}.
Proof.
  induction turns as [|turns IH]; intros best Hd Ht; cbn [extend_left].
  - destruct best as [x y z]; cbn in *. subst. f_equal; lia.
  - destruct (Z.gtb_spec (m_a best) 0) as [_|?]; [|lia].
    destruct (Z.gtb_spec (m_b best) 0) as [_|?]; [|lia].
    rewrite Hd, String.eqb_refl. cbn [andb isbjunk bjunk existsb Bool.eqb].
    rewrite IH; cbn [m_a m_b m_size]; [f_equal; lia | lia | lia].
Qed.

Lemma extend_right_equal (turns : nat) :
  forall best,
    m_a best = m_b best ->
    Z.of_nat turns = len a - (m_a best + m_size best) ->
    extend_right turns false a a (len a) (len a) best
    = {| m_a := m_a best; m_b := m_b best; m_size := len a - m_a best |}.
Proof.
  induction turns as [|turns IH]; intros best Hd Ht; cbn [extend_right].
  - destruct best as [x y z]; cbn in *. f_equal; lia.
  - destruct (Z.ltb_spec (m_a best + m_size best) (len a)) as [_|?]; [|lia].
    destruct (Z.ltb_spec (m_b best + m_size best) (len a)) as [_|?]; [|lia].
    rewrite Hd, String.eqb_refl. cbn [andb isbjunk bjunk existsb Bool.eqb].
    rewrite IH; cbn [m_a m_b m_size]; [f_equal; lia | lia | lia].
Qed.

(** On equal sequences the longest match is the whole of them. *)
Lemma find_longest_match_equal :
  find_longest_match a a (chain_b a) 0 (len a) 0 (len a)
  = {| m_a := 0; m_b := 0; m_size := len a |}.
Proof.
  unfold find_longest_match.
  assert (Hlen : 0 <= len a) by (unfold len; lia).
  pose proof (scan_rows_inv (Z.to_nat (len a - 0)) 0 []
                {| m_a := 0; m_b := 0; m_size := 0 |}) as H.
  cbv zeta in H.
  destruct H as [Hd [Ha [Hz Hb]]]; [lia | lia | |].
  { unfold rows_inv. cbn [m_a m_b m_size j2len_get].
    repeat apply conj; try lia; try (intros j; apply run_to_nonneg);
      try (now rewrite run_to_neg by lia). }
  set (best := scan_rows _ _ _ _ _ _ _ _) in *.
  cbv zeta.
  rewrite (extend_left_equal (Z.to_nat (m_a best - 0)) best Hd) by lia.
  cbn [m_a m_b m_size].
  rewrite (extend_right_equal (Z.to_nat (len a - (0 + (m_size best + m_a best)))))
    by (cbn [m_a m_b m_size]; lia).
  cbn [m_a m_b m_size].
  change (Z.to_nat (0 - 0)) with O. cbn [extend_left m_a m_size].
  replace (Z.to_nat (len a - (0 + (len a - 0)))) with O by lia.
  cbn [extend_right]. f_equal; lia.
Qed.

Lemma queue_loop_equal :
  queue_loop (queue_turns a) a a (chain_b a) [(0, len a, 0, len a)] []
  = Some (if len a =? 0 then []
          else [{| m_a := 0; m_b := 0; m_size := len a |}]).
Proof.
  unfold queue_turns. replace (2 * length a + 1)%nat with (S (2 * length a)) by lia.
  cbn [queue_loop]. rewrite find_longest_match_equal. cbn [m_a m_b m_size].
  destruct (Z.eqb_spec (len a) 0) as [E|N].
  - destruct (2 * length a)%nat; reflexivity.
  - replace (0 <? 0) with false by reflexivity. cbn [andb].
    replace (0 + len a <? len a) with false by (symmetry; apply Z.ltb_ge; lia).
    cbn [andb app]. destruct (2 * length a)%nat; reflexivity.
Qed.

Lemma get_matching_blocks_equal :
  get_matching_blocks a a
  = Some (if len a =? 0 then [{| m_a := 0; m_b := 0; m_size := 0 |}]
          else [{| m_a := 0; m_b := 0; m_size := len a |};
                {| m_a := len a; m_b := len a; m_size := 0 |}]).
Proof.
  unfold get_matching_blocks. rewrite queue_loop_equal.
  destruct (Z.eqb_spec (len a) 0) as [E|N].
  - cbn. now rewrite E.
  - cbn [sort fold_right insert_sorted collapse m_a m_b m_size].
    cbn [Z.add Z.eqb andb m_a m_b m_size app].
    pose proof (proj2 (Z.eqb_neq _ _) N) as Hne. rewrite Hne.
    reflexivity.
Qed.

Lemma get_opcodes_equal :
  get_opcodes a a
  = Some (if len a =? 0 then []
          else [{| op_tag := equal; i1 := 0; i2 := len a; j1 := 0;
                   j2 := len a |}]).
Proof.
  unfold get_opcodes. rewrite get_matching_blocks_equal.
  destruct (Z.eqb_spec (len a) 0) as [E|N]; [reflexivity|].
  cbn [opcodes_from m_a m_b m_size]. cbn [Z.ltb Z.compare andb Z.add app].
  replace (len a =? 0) with false by (symmetry; now apply Z.eqb_neq).
  rewrite Z.ltb_irrefl. cbn [andb]. rewrite Z.add_0_r.
  cbn [Z.eqb app]. reflexivity.
Qed.

Lemma get_grouped_opcodes_equal : get_grouped_opcodes a a 3 = Some [].
Proof.
  unfold get_grouped_opcodes. rewrite get_opcodes_equal.
  destruct (Z.eqb_spec (len a) 0) as [E|N]; [reflexivity|].
  cbn [Py.truthy_list update_first update_last rev app is_equal op_tag i1 i2
       j1 j2 group_loop].
  destruct (Z.gtb_spec
              (Z.min (len a) (Z.max 0 (len a - 3) + 3) - Z.max 0 (len a - 3))
              (3 + 3)) as [H|H]; [lia|].
  reflexivity.
Qed.

End EqualSequences.

Lemma unified_diff_equal (a : list string)
    (fromfile tofile fromfiledate tofiledate lineterm : string) :
  unified_diff a a fromfile tofile fromfiledate tofiledate 3 lineterm = Some [].
Proof. unfold unified_diff. now rewrite get_grouped_opcodes_equal. Qed.

(** *** The queue loop always ends within its turns *)

Section Bounds.

Variables (a b : list string) (b2j : b2j_t).
Variables alo ahi blo bhi : Z.

Lemma scan_row_within (i : Z) (j2len : list (Z * Z)) :
  alo <= i < ahi ->
  lengths_within i alo blo j2len ->
  forall js newj2len best,
    lengths_within (i + 1) alo blo newj2len ->
    within alo (i + 1) blo bhi best ->
    lengths_within (i + 1) alo blo
      (fst (scan_row js i blo bhi j2len newj2len best))
    /\ within alo (i + 1) blo bhi
         (snd (scan_row js i blo bhi j2len newj2len best)).
Proof.
  intros Hi Hold.
  induction js as [|j rest IH]; intros newj2len best Hnew Hbest; cbn [scan_row].
  - now split.
  - destruct (Z.ltb_spec j blo) as [?|Hj1]; [now apply IH|].
    destruct (Z.geb_spec j bhi) as [?|Hj2]; [now split|].
    cbv zeta. destruct (Hold (j - 1)) as [H0 [H1 H2]].
    apply IH.
    + intros j'. cbn [j2len_get].
      destruct (Z.eqb_spec j j'); [subst; lia | apply Hnew].
    + destruct Hbest as [B1 [B2 [B3 [B4 B5]]]].
      destruct (Z.gtb_spec (j2len_get j2len (j - 1) + 1) (m_size best));
        unfold within; cbn [m_a m_b m_size]; lia.
Qed.

Lemma scan_rows_within (rows : nat) :
  forall i j2len best,
    alo <= i ->
    i + Z.of_nat rows = ahi ->
    lengths_within i alo blo j2len ->
    within alo i blo bhi best ->
    within alo ahi blo bhi (scan_rows rows a b2j i blo bhi j2len best).
Proof.
  induction rows as [|rows IH]; intros i j2len best Hi Hn Hj Hb; cbn [scan_rows].
  - replace ahi with i by lia. exact Hb.
  - pose proof (scan_row_within i j2len ltac:(lia) Hj
                  (b2j_get b2j (item a i)) [] best) as H.
    destruct (scan_row (b2j_get b2j (item a i)) i blo bhi j2len [] best)
      as [newj2len best']. cbn [fst snd] in H.
    destruct H as [Hn' Hb'].
    + intros j. cbn [j2len_get]. lia.
    + unfold within in *. lia.
    + apply IH; [lia | lia | exact Hn' | exact Hb'].
Qed.

Lemma extend_left_within (turns : nat) (junk : bool) :
  forall best,
    within alo ahi blo bhi best ->
    within alo ahi blo bhi (extend_left turns junk a b alo blo best).
Proof.
  induction turns as [|turns IH]; intros best Hb; cbn [extend_left]; [exact Hb|].
  destruct (Z.gtb_spec (m_a best) alo); cbn [andb]; [|exact Hb].
  destruct (Z.gtb_spec (m_b best) blo); cbn [andb]; [|exact Hb].
  destruct (Bool.eqb _ junk && _)%bool; [|exact Hb].
  apply IH. unfold within in *. cbn [m_a m_b m_size]. lia.
Qed.

Lemma extend_right_within (turns : nat) (junk : bool) :
  forall best,
    within alo ahi blo bhi best ->
    within alo ahi blo bhi (extend_right turns junk a b ahi bhi best).
Proof.
  induction turns as [|turns IH]; intros best Hb; cbn [extend_right]; [exact Hb|].
  destruct (Z.ltb_spec (m_a best + m_size best) ahi); cbn [andb]; [|exact Hb].
  destruct (Z.ltb_spec (m_b best + m_size best) bhi); cbn [andb]; [|exact Hb].
  destruct (Bool.eqb _ junk && _)%bool; [|exact Hb].
  apply IH. unfold within in *. cbn [m_a m_b m_size]. lia.
Qed.

(** The block that [find_longest_match] returns lies within the ranges it
    was asked to look at. *)
Lemma find_longest_match_within :
  alo <= ahi -> blo <= bhi ->
  within alo ahi blo bhi (find_longest_match a b b2j alo ahi blo bhi).
Proof.
  intros Ha Hb. unfold find_longest_match. cbv zeta.
  apply extend_right_within, extend_left_within, extend_right_within,
    extend_left_within.
  apply scan_rows_within; [lia | lia | |].
  - intros j. cbn [j2len_get]. lia.
  - unfold within. cbn [m_a m_b m_size]. lia.
Qed.

End Bounds.

Lemma queue_weight_nonneg (queue : list (Z * Z * Z * Z)) :
  Forall range_ok queue -> 0 <= queue_weight queue.
Proof.
  induction queue as [|[[[alo ahi] blo] bhi] queue IH]; [cbn; lia|].
  intros H. inversion H as [|? ? Hr Hq]; subst.
  cbn [range_ok] in Hr. destruct Hr as [H1 H2]. specialize (IH Hq).
  cbn [queue_weight fold_right range_weight]. fold (queue_weight queue). lia.
Qed.

Lemma queue_loop_returns (a b : list string) (b2j : b2j_t) (turns : nat) :
  forall queue matching_blocks,
    Forall range_ok queue ->
    queue_weight queue <= Z.of_nat turns ->
    exists blocks, queue_loop turns a b b2j queue matching_blocks = Some blocks.
Proof.
  induction turns as [|turns IH]; intros queue mb Hok Hw.
  - destruct queue as [|[[[alo ahi] blo] bhi] queue]; [now eexists|].
    inversion Hok as [|? ? Hr Hok']; subst.
    cbn [range_ok] in Hr. destruct Hr as [H1 H2].
    pose proof (queue_weight_nonneg queue Hok').
    cbn [queue_weight fold_right range_weight] in Hw.
    fold (queue_weight queue) in Hw. lia.
  - destruct queue as [|[[[alo ahi] blo] bhi] queue]; [now eexists|].
    inversion Hok as [|? ? Hr Hok']; subst.
    cbn [range_ok] in Hr. destruct Hr as [H1 H2].
    cbn [queue_weight fold_right range_weight] in Hw.
    fold (queue_weight queue) in Hw.
    cbn [queue_loop]. cbv zeta.
    pose proof (find_longest_match_within a b b2j alo ahi blo bhi H1 H2)
      as [W1 [W2 [W3 [W4 W5]]]].
    set (x := find_longest_match a b b2j alo ahi blo bhi) in *.
    destruct (Z.eqb_spec (m_size x) 0) as [E|N]; [apply IH; [exact Hok' | lia]|].
    apply IH.
    + destruct (Z.ltb_spec alo (m_a x)), (Z.ltb_spec blo (m_b x)),
        (Z.ltb_spec (m_a x + m_size x) ahi),
        (Z.ltb_spec (m_b x + m_size x) bhi); cbn [andb];
        repeat constructor; try assumption; lia.
    + destruct (Z.ltb_spec alo (m_a x)), (Z.ltb_spec blo (m_b x)),
        (Z.ltb_spec (m_a x + m_size x) ahi),
        (Z.ltb_spec (m_b x + m_size x) bhi); cbn [andb];
        cbn [queue_weight fold_right range_weight];
        fold (queue_weight queue); lia.
Qed.

(** [get_matching_blocks] always returns: the turns it is given are
    enough. *)
Lemma get_matching_blocks_returns (a b : list string) :
  exists blocks, get_matching_blocks a b = Some blocks.
Proof.
  unfold get_matching_blocks. cbv zeta.
  destruct (queue_loop_returns a b (chain_b b) (queue_turns a)
              [(0, len a, 0, len b)] []) as [blocks E].
  - repeat constructor; unfold len; lia.
  - cbn [queue_weight fold_right range_weight]. unfold queue_turns, len. lia.
  - rewrite E. destruct (collapse _ _ _). now eexists.
Qed.

Lemma unified_diff_returns (a b : list string)
    (fromfile tofile fromfiledate tofiledate : string) (n : Z)
    (lineterm : string) :
  exists lines,
    unified_diff a b fromfile tofile fromfiledate tofiledate n lineterm
    = Some lines.
Proof.
  unfold unified_diff, get_grouped_opcodes, get_opcodes.
  destruct (get_matching_blocks_returns a b) as [blocks E]. rewrite E.
  cbv zeta. destruct (group_loop _ _ _ _) as [groups group].
  destruct group as [|c [|c' group]].
  - destruct groups; now eexists.
  - destruct (is_equal (op_tag c)).
    + destruct groups; now eexists.
    + destruct (groups ++ [[c]]); now eexists.
  - destruct (groups ++ [c :: c' :: group]); now eexists.
Qed.

End DifflibFacts.

(* ===================================================================== *)
(** ** Properties of the entry point: the diff of the two listings *)
(* ===================================================================== *)

(** The diff that [main] computes is the one [unified_diff] yields. *)
Lemma cache_diff_is_unified_diff (initial_cache final_cache : list string) :
  difflib.unified_diff initial_cache final_cache "initial" "final" "" "" 3 ""
  = Some (cache_diff initial_cache final_cache).
Proof.
  unfold cache_diff.
  destruct (DifflibFacts.unified_diff_returns initial_cache final_cache
              "initial" "final" "" "" 3 "") as [lines E].
  now rewrite E.
Qed.

(** C9: for every cache listing [L], the diff of [L] against itself has no
    line at all, the diff section of the entry point is then empty, and the
    end of [main] with that listing before and after is the final capture,
    its header and its lines, and nothing more: no diff header and no diff
    line is logged. *)
Theorem identical_listings_no_diff (L : list string) :
  difflib.unified_diff L L "initial" "final" "" "" 3 "" = Some []
  /\ diff_section L L = []
  /\ (forall w t,
         ending (get_cache_listing w t) = Ok L ->
         show_final_cache w L t
         = {| trace := trace (get_cache_listing w t)
                       ++ final_header :: map log_line L;
              clock := S t; ending := Ok tt |}).
Proof.
  assert (Hd : diff_section L L = []).
  { unfold diff_section, cache_diff.
    now rewrite DifflibFacts.unified_diff_equal. }
  split; [apply DifflibFacts.unified_diff_equal | split; [exact Hd|]].
  intros w t Hg. rewrite show_final_cache_run, Hg, Hd.
  now rewrite app_nil_r.
Qed.

Lemma identical_listings_no_diff_witness :
  show_final_cache (quiet_world no_models listing_one 0)
    ["models--owner--model-repo"] 1
  = {| trace := [Subprocess ["hf"; "cache"; "ls"]; final_header;
                 Log INFO "models--owner--model-repo" []];
       clock := 2; ending := Ok tt |}.
Proof.
  rewrite (proj2 (proj2 (identical_listings_no_diff
                           ["models--owner--model-repo"]))
             (quiet_world no_models listing_one 0) 1 eq_refl).
  reflexivity.
Defined.

(** A listing that changed, for comparison: the diff section is logged. *)
Example changed_listing_diff :
  diff_section ["models--a"] ["models--a"; "models--b"]
  = [diff_header;
     Log INFO "--- initial+++ final@@ -1 +1,2 @@ models--a+models--b" []].
Proof. reflexivity. Qed.

(* ===================================================================== *)
(** ** The cases of the test suite, on the embedding *)
(* ===================================================================== *)

(** [tests/test_build_hf_command.py]. *)
Example test_build_hf_command_basic :
  build_hf_command "owner/model-repo" None None None
  = "hf download owner/model-repo".
Proof. reflexivity. Qed.

Example test_build_hf_command_with_ref :
  build_hf_command "owner/model-repo" (Some "main") None None
  = "hf download owner/model-repo@main".
Proof. reflexivity. Qed.

Example test_build_hf_command_with_include_and_exclude :
  build_hf_command "owner/model-repo" None (Some (Single "*.gguf"))
    (Some (Single "*.ckpt"))
  = "hf download owner/model-repo --include *.gguf --exclude *.ckpt".
Proof. reflexivity. Qed.

Example test_build_hf_command_with_exclude_list :
  build_hf_command "owner/model-repo" None None (Some (Many ["*.ckpt"; "*.bin"]))
  = "hf download owner/model-repo --exclude *.ckpt --exclude *.bin".
Proof. reflexivity. Qed.

Example test_build_hf_command_with_all_parameters :
  build_hf_command "owner/model-repo" (Some "main") (Some (Single "*.gguf"))
    (Some (Single "*.ckpt"))
  = "hf download owner/model-repo@main --include *.gguf --exclude *.ckpt".
Proof. reflexivity. Qed.

(** [tests/test_load_manifest.py]: a [models] key without a value is null,
    which is not a list; a missing file ends the process before the file is
    opened; a parse error has its own message. *)
Example test_load_manifest_models_key_empty :
  ending (load_manifest (quiet_world (YMap [("models", YNull)]) listing_ok 0)
            "facehugger.yaml" 0)
  = SystemExit "Facehugger manifest facehugger.yaml failed validation: "
      (Some (ValidationError [{| loc := [Field "models"]; type := list_type |}])).
Proof. reflexivity. Qed.

Example test_load_manifest_file_not_exists :
  load_manifest
    {| metadata_version := fun _ => None;
       is_file := fun _ => false;
       safe_load := fun _ => Returns YNull;
       hf_cache_ls := fun _ => Returns listing_ok;
       snapshot_download := fun _ _ _ _ _ => Returns tt;
       verify_repo_checksums := fun _ _ _ _ =>
         Raises (RepositoryNotFoundError "") |}
    "/tmp/facehugger_nonexistent_file_12345.yaml" 0
  = {| trace := [IsFile "/tmp/facehugger_nonexistent_file_12345.yaml"];
       clock := 0;
       ending :=
         SystemExit
           "Manifest file not found: /tmp/facehugger_nonexistent_file_12345.yaml"
           None |}.
Proof. reflexivity. Qed.

Example test_load_manifest_invalid_yaml :
  ending (load_manifest
            {| metadata_version := fun _ => None;
               is_file := fun _ => true;
               safe_load := fun _ => Raises (YAMLError "mapping values are not allowed here");
               hf_cache_ls := fun _ => Returns listing_ok;
               snapshot_download := fun _ _ _ _ _ => Returns tt;
               verify_repo_checksums := fun _ _ _ _ =>
                 Raises (RepositoryNotFoundError "") |}
            "facehugger.yaml" 0)
  = SystemExit "Failed to parse manifest file facehugger.yaml: "
      (Some (YAMLError "mapping values are not allowed here")).
Proof. reflexivity. Qed.

(** A run that downloads and verifies one model. *)
Example run_one_model :
  run (quiet_world
         (YMap [("models", YSeq [YMap [("repo", YStr "owner/model-repo");
                                       ("include", YSeq [YStr "*.gguf"])]])])
         listing_one 2)
      plain_args
  = {| trace :=
         [IsFile "facehugger.yaml"; OpenFile "facehugger.yaml";
          Subprocess ["hf"; "cache"; "ls"];
          initial_header;
          Log INFO "models--owner--model-repo" [];
          Log INFO
            "Equivalent command: `hf download owner/model-repo@main --include *.gguf`"
            [];
          Log INFO "Downloading repo owner/model-repo@main" [];
          SnapshotDownload "owner/model-repo" (Some "main")
            (Some (Many ["*.gguf"])) None;
          Print "";
          Log INFO
            "Verifying repo owner/model-repo@main, equivalent to: `hf cache verify owner/model-repo --revision main`"
            [];
          VerifyRepoChecksums "owner/model-repo" None (Some "main");
          Log INFO "✅ Verified 2 file(s) for 'owner/model-repo' (None) in /cache"
            [];
          Subprocess ["hf"; "cache"; "ls"];
          final_header;
          Log INFO "models--owner--model-repo" []];
       clock := 4;
       ending := Ok tt |}.
Proof. reflexivity. Qed.

(* ===================================================================== *)
(** ** What the manifest model accepts *)
(* ===================================================================== *)












(** *** Writing a manifest out and loading it again *)

Lemma validate_items_dump_str (l : list string) (i : nat) :
  validate_items validate_str i (map YStr l) = Valid l.
Proof.
  revert i; induction l as [|s l IH]; intros i; cbn; [reflexivity|].
  now rewrite IH.
Qed.

Lemma validate_dump_patterns (name : string) (p : option patterns) :
  at_loc (Field name) (validate_optional validate_patterns (dump_patterns p))
  = Valid p.
Proof.
  destruct p as [[s|l]|]; try reflexivity.
  cbn. destruct l as [|s l]; [reflexivity|].
  cbn. now rewrite validate_items_dump_str.
Qed.

Lemma validate_dump_ModelConfig (c : ModelConfig) :
  validate_ModelConfig (dump_ModelConfig c) = Valid c.
Proof.
  destruct c as [r f i e]. unfold validate_ModelConfig, dump_ModelConfig, field.
  cbn [lookup String.eqb Ascii.eqb Bool.eqb repo ref include exclude].
  rewrite !validate_dump_patterns. destruct f; reflexivity.
Qed.

Lemma validate_items_dump (l : list ModelConfig) (i : nat) :
  validate_items validate_ModelConfig i (map dump_ModelConfig l) = Valid l.
Proof.
  revert i; induction l as [|c l IH]; intros i; cbn [map validate_items];
    [reflexivity|].
  now rewrite validate_dump_ModelConfig, IH.
Qed.

Lemma validate_dump_FacehuggerManifest (m : FacehuggerManifest) :
  validate_FacehuggerManifest (dump_FacehuggerManifest m) = Valid m.
Proof.
  destruct m as [l]. unfold validate_FacehuggerManifest, dump_FacehuggerManifest, field.
  cbn [lookup String.eqb Ascii.eqb Bool.eqb models validate_list].
  now rewrite validate_items_dump.
Qed.

(** X3: a manifest written out as a document (every field of every model
    under its name, [None] as null) loads back as the same manifest: nothing
    of a model is lost or changed by validation. *)
Theorem load_dumped_manifest (w : World) (file_path : string)
    (m : FacehuggerManifest) (t : nat) :
  is_file w file_path = true ->
  safe_load w file_path = Returns (dump_FacehuggerManifest m) ->
  ending (load_manifest w file_path t) = Ok m.
Proof.
  intros Hf Hv. rewrite (load_manifest_parsed w file_path _ t Hf Hv).
  cbn [ending dump_FacehuggerManifest truthy_yaml Py.truthy_list].
  fold (dump_FacehuggerManifest m).
  now rewrite validate_dump_FacehuggerManifest.
Qed.


Lemma load_dumped_manifest_witness :
  ending (load_manifest
            (quiet_world
               (dump_FacehuggerManifest
                  {| models :=
                       [{| repo := "test/model1"; ref := None;
                           include := Some (Many ["*.gguf"; "*.json"]);
                           exclude := Some (Single "*.ckpt") |};
                        the_model] |})
               listing_ok 0)
            "facehugger.yaml" 0)
  = Ok {| models :=
            [{| repo := "test/model1"; ref := None;
                include := Some (Many ["*.gguf"; "*.json"]);
                exclude := Some (Single "*.ckpt") |};
             the_model] |}.
Proof.
  apply (load_dumped_manifest
           (quiet_world
              (dump_FacehuggerManifest
                 {| models :=
                      [{| repo := "test/model1"; ref := None;
                          include := Some (Many ["*.gguf"; "*.json"]);
                          exclude := Some (Single "*.ckpt") |};
                       the_model] |})
              listing_ok 0)
           "facehugger.yaml"); reflexivity.
Defined.

(* ===================================================================== *)
(** ** The failures of the loader *)
(* ===================================================================== *)

(** X4: when the manifest path is not a file, the loader exits with the
    message [Manifest file not found: <path>] after looking at the path and
    nothing else: the file is neither opened nor parsed. *)
Theorem load_manifest_missing_file (w : World) (file_path : string) (t : nat) :
  is_file w file_path = false ->
  load_manifest w file_path t
  = {| trace := [IsFile file_path]; clock := t;
       ending := SystemExit ("Manifest file not found: " ++ file_path) None |}.
Proof.
  intros Hf. unfold load_manifest, bind. cbn. rewrite Hf. reflexivity.
Qed.


Lemma load_manifest_missing_file_witness :
  load_manifest no_file_world "missing.yaml" 0
  = {| trace := [IsFile "missing.yaml"]; clock := 0;
       ending := SystemExit "Manifest file not found: missing.yaml" None |}.
Proof. apply (load_manifest_missing_file no_file_world "missing.yaml" 0). reflexivity. Defined.

(** X5: when reading the file raises, a YAML error ends the process with the
    message [Failed to parse manifest file <path>: <error>] (not the message
    of a validation failure), and any other exception is not caught: it
    leaves the loader as it is. *)
Theorem load_manifest_unreadable (w : World) (file_path : string) (t : nat)
    (e : exception) :
  is_file w file_path = true ->
  safe_load w file_path = Raises e ->
  load_manifest w file_path t
  = {| trace := [IsFile file_path; OpenFile file_path]; clock := t;
       ending :=
         match e with
         | YAMLError _ =>
             SystemExit ("Failed to parse manifest file " ++ file_path ++ ": ")
               (Some e)
         | _ => Raised e
         end |}.
Proof.
  intros Hf Hv. unfold load_manifest, try_except, bind. cbn.
  rewrite Hf. cbn. rewrite Hv. cbn. destruct e; reflexivity.
Qed.

Lemma load_manifest_unreadable_witness :
  ending (load_manifest (broken_file_world (YAMLError "bad indentation"))
            "facehugger.yaml" 0)
  = SystemExit "Failed to parse manifest file facehugger.yaml: "
      (Some (YAMLError "bad indentation"))
  /\ ending (load_manifest
               (broken_file_world (OtherError "PermissionError" "denied"))
               "facehugger.yaml" 0)
     = Raised (OtherError "PermissionError" "denied").
Proof.
  split.
  - rewrite (load_manifest_unreadable
               (broken_file_world (YAMLError "bad indentation"))
               "facehugger.yaml" 0 (YAMLError "bad indentation")
               eq_refl eq_refl).
    reflexivity.
  - rewrite (load_manifest_unreadable
               (broken_file_world (OtherError "PermissionError" "denied"))
               "facehugger.yaml" 0 (OtherError "PermissionError" "denied")
               eq_refl eq_refl).
    reflexivity.
Defined.

(* ===================================================================== *)
(** ** The environment of the subprocess *)
(* ===================================================================== *)

Lemma environ_get_set_same (env : list (string * string)) (key value d : string) :
  environ_get (environ_set env key value) key d = value.
Proof.
  induction env as [|[k v] rest IH]; cbn.
  - now rewrite String.eqb_refl.
  - destruct (String.eqb k key) eqn:E; cbn; rewrite E; [reflexivity | exact IH].
Qed.

Lemma environ_get_set_other (env : list (string * string))
    (key key' value d : string) :
  key' <> key ->
  environ_get (environ_set env key value) key' d = environ_get env key' d.
Proof.
  intros Hne. induction env as [|[k v] rest IH]; cbn.
  - destruct (String.eqb_spec key key'); [congruence | reflexivity].
  - destruct (String.eqb_spec k key) as [E|N]; cbn.
    + subst k. destruct (String.eqb_spec key key'); [congruence | reflexivity].
    + destruct (String.eqb k key'); [reflexivity | exact IH].
Qed.

Lemma environ_set_keys (env : list (string * string)) (key value : string) :
  map fst (environ_set env key value)
  = if existsb (String.eqb key) (map fst env) then map fst env
    else map fst env ++ [key].
Proof.
  induction env as [|[k v] rest IH]; cbn; [reflexivity|].
  rewrite (String.eqb_sym key k).
  destruct (String.eqb k key); cbn; [reflexivity|].
  rewrite IH. now destruct (existsb (String.eqb key) (map fst rest)).
Qed.

(** X6: in the environment that [get_hf_env] returns, [PATH] is the venv's
    bin directory followed by [:] and the old [PATH] when there is a
    non-empty one, and the venv's bin directory alone otherwise, so that it
    always starts with the venv's bin directory; every other variable has
    the value it had. *)
Theorem get_hf_env_path_first (venv_bin : string) (environ : list (string * string)) :
  (forall d,
      environ_get (get_hf_env venv_bin environ) "PATH" d
      = if Py.truthy_str (environ_get environ "PATH" "")
        then (venv_bin ++ ":" ++ environ_get environ "PATH" "")%string
        else venv_bin)
  /\ (forall d, String.prefix venv_bin
                  (environ_get (get_hf_env venv_bin environ) "PATH" d) = true)
  /\ (forall key d,
         key <> "PATH" ->
         environ_get (get_hf_env venv_bin environ) key d
         = environ_get environ key d).
Proof.
  assert (H1 : forall d,
      environ_get (get_hf_env venv_bin environ) "PATH" d
      = if Py.truthy_str (environ_get environ "PATH" "")
        then (venv_bin ++ ":" ++ environ_get environ "PATH" "")%string
        else venv_bin).
  { intros d. unfold get_hf_env. cbv zeta.
    destruct (Py.truthy_str (environ_get environ "PATH" ""));
      apply environ_get_set_same. }
  split; [exact H1 | split].
  - intros d. rewrite H1.
    destruct (Py.truthy_str (environ_get environ "PATH" "")).
    + apply prefix_append.
    + rewrite <- (append_empty_r venv_bin) at 2. apply prefix_append.
  - intros key d Hne. unfold get_hf_env. cbv zeta.
    destruct (Py.truthy_str (environ_get environ "PATH" ""));
      now apply environ_get_set_other.
Qed.


Lemma get_hf_env_path_first_witness :
  environ_get
    (get_hf_env "/venv/bin" [("HOME", "/root"); ("PATH", "/usr/bin:/bin")])
    "HOME" ""
  = "/root"
  /\ get_hf_env "/venv/bin" [("HOME", "/root"); ("PATH", "/usr/bin:/bin")]
     = [("HOME", "/root"); ("PATH", "/venv/bin:/usr/bin:/bin")]
  /\ get_hf_env "/venv/bin" [("HOME", "/root")]
     = [("HOME", "/root"); ("PATH", "/venv/bin")].
Proof.
  split; [|split; reflexivity].
  rewrite (proj2 (proj2 (get_hf_env_path_first "/venv/bin"
                           [("HOME", "/root"); ("PATH", "/usr/bin:/bin")]))
             "HOME" "" ltac:(discriminate)).
  reflexivity.
Defined.

(* ===================================================================== *)
(** ** The command formatter on values that are given but falsy *)
(* ===================================================================== *)

(** X7: for every repo, ref, include and exclude, [build_hf_command] renders
    the rule of the specification applied to the values that are truthy: a
    ref that is the empty string, a single pattern that is the empty string
    and an empty list of patterns are rendered exactly as an absent one. *)
Theorem build_hf_command_falsy_absent
    (repo : string) (ref : option string) (include exclude : option patterns) :
  build_hf_command repo ref include exclude
  = format_equivalent_command repo (present_str ref)
      (present_patterns include) (present_patterns exclude).
Proof.
  assert (Hext : forall flag value parts,
             extend_patterns flag value parts
             = extend_patterns flag (present_patterns value) parts).
  { intros flag [p|] parts; [|reflexivity]. cbn.
    destruct (truthy_patterns p) eqn:E; cbn; [now rewrite E | reflexivity]. }
  assert (Hne : forall value, present_patterns value <> Some (Single "")).
  { intros [[s|l]|]; cbn; try discriminate.
    - destruct s; cbn; discriminate.
    - destruct l; cbn; discriminate. }
  unfold build_hf_command, format_equivalent_command. cbv zeta.
  rewrite (Hext "--include"), (Hext "--exclude").
  rewrite !extend_patterns_given by apply Hne.
  rewrite <- app_assoc. f_equal. f_equal.
  destruct ref as [r|]; cbn; [|now rewrite append_empty_r].
  destruct r; cbn; [now rewrite append_empty_r | reflexivity].
Qed.


(* ===================================================================== *)
(** ** The download and the verification of one model *)
(* ===================================================================== *)

Lemma download_model_run (w : World) (repo : string) (ref : option string)
    (include exclude : option patterns) (t : nat) :
  download_model w repo ref include exclude t
  = match snapshot_download w t repo ref include exclude with
    | Returns _ =>
        {| trace := [downloading_notice repo ref;
                     SnapshotDownload repo ref include exclude; Print ""];
           clock := S t; ending := Ok tt |}
    | Raises e =>
        {| trace := [downloading_notice repo ref;
                     SnapshotDownload repo ref include exclude];
           clock := S t; ending := Raised e |}
    end.
Proof.
  unfold download_model, bind. cbn.
  destruct (snapshot_download w t repo ref include exclude) as [[]|e];
    reflexivity.
Qed.


(** X8: [download_model] logs its notice, calls the snapshot download once
    with the repo, ref, include and exclude it was given (unchanged), and
    prints an empty line when the download returns; when the download raises,
    the exception leaves [download_model] as it is and nothing is printed. *)
Theorem download_model_outcomes (w : World) (repo : string)
    (ref : option string) (include exclude : option patterns) (t : nat) :
  (snapshot_download w t repo ref include exclude = Returns tt ->
   download_model w repo ref include exclude t
   = {| trace := [downloading_notice repo ref;
                  SnapshotDownload repo ref include exclude; Print ""];
        clock := S t; ending := Ok tt |})
  /\ (forall e,
         snapshot_download w t repo ref include exclude = Raises e ->
         download_model w repo ref include exclude t
         = {| trace := [downloading_notice repo ref;
                        SnapshotDownload repo ref include exclude];
              clock := S t; ending := Raised e |}).
Proof.
  split; [intros H | intros e H]; rewrite download_model_run, H; reflexivity.
Qed.

Lemma download_model_outcomes_witness :
  download_model (quiet_world one_model listing_ok 1) "owner/model-repo"
    (Some "main") (Some (Single "*.gguf")) None 3
  = {| trace := [Log INFO "Downloading repo owner/model-repo@main" [];
                 SnapshotDownload "owner/model-repo" (Some "main")
                   (Some (Single "*.gguf")) None;
                 Print ""];
       clock := 4; ending := Ok tt |}
  /\ download_model
       (failing_download_world one_model (OtherError "OSError" "disk full"))
       "owner/model-repo" None None None 3
     = {| trace := [Log INFO "Downloading repo owner/model-repo" [];
                    SnapshotDownload "owner/model-repo" None None None];
          clock := 4; ending := Raised (OtherError "OSError" "disk full") |}.
Proof.
  split.
  - apply (proj1 (download_model_outcomes (quiet_world one_model listing_ok 1)
                    "owner/model-repo" (Some "main") (Some (Single "*.gguf"))
                    None 3)).
    reflexivity.
  - apply (proj2 (download_model_outcomes
                    (failing_download_world one_model
                       (OtherError "OSError" "disk full"))
                    "owner/model-repo" None None None 3)).
    reflexivity.
Defined.

Lemma verify_cache_shape (w : World) (repo : string) (repo_type ref : option string)
    (t : nat) :
  exists logs,
    trace (verify_cache w repo repo_type ref t)
    = verifying_notice repo ref :: VerifyRepoChecksums repo repo_type ref :: logs
    /\ forallb is_log logs = true
    /\ clock (verify_cache w repo repo_type ref t) = S t.
Proof.
  rewrite verify_cache_run.
  destruct (verify_repo_checksums w t repo repo_type ref) as [result|e].
  - destruct (mismatches result) as [|m ms] eqn:Em; cbn [Py.truthy_list].
    + eexists; repeat split.
    + eexists; (split; [reflexivity|]); (split; [|reflexivity]).
      cbn [forallb is_log andb]. now apply forallb_map_log.
  - destruct e; eexists; repeat split.
Qed.

Lemma verify_cache_ending (w : World) (repo : string)
    (repo_type ref : option string) (t : nat) :
  ending (verify_cache w repo repo_type ref t)
  = match verify_repo_checksums w t repo repo_type ref with
    | Returns _ => Ok tt
    | Raises (RepositoryNotFoundError _) => Ok tt
    | Raises (RevisionNotFoundError _) => Ok tt
    | Raises e => Raised e
    end.
Proof.
  rewrite verify_cache_run.
  destruct (verify_repo_checksums w t repo repo_type ref) as [result|e].
  - reflexivity.
  - destruct e; reflexivity.
Qed.


(** X9: whatever the verification does, [verify_cache] logs its notice first,
    calls the checksum verification exactly once, and then only logs; it
    ends normally when the verification returned or raised one of the two
    not-found errors, and by the exception that the verification raised in
    every other case, which it does not catch. *)
Theorem verify_cache_one_call (w : World) (repo : string)
    (repo_type ref : option string) (t : nat) :
  (exists logs,
      trace (verify_cache w repo repo_type ref t)
      = verifying_notice repo ref :: VerifyRepoChecksums repo repo_type ref
          :: logs
      /\ forallb is_log logs = true)
  /\ clock (verify_cache w repo repo_type ref t) = S t
  /\ (handled (verify_repo_checksums w t repo repo_type ref) = true ->
      ending (verify_cache w repo repo_type ref t) = Ok tt)
  /\ (forall e,
         verify_repo_checksums w t repo repo_type ref = Raises e ->
         handled (Raises e) = false ->
         ending (verify_cache w repo repo_type ref t) = Raised e).
Proof.
  destruct (verify_cache_shape w repo repo_type ref t) as [logs [Ht [Hl Hc]]].
  split; [now exists logs | split; [exact Hc | split]].
  - intros Hh. rewrite verify_cache_ending.
    destruct (verify_repo_checksums w t repo repo_type ref) as [r|[]];
      try reflexivity; discriminate.
  - intros e He Hh. rewrite verify_cache_ending, He.
    destruct e; try reflexivity; discriminate.
Qed.

Lemma verify_cache_one_call_witness :
  ending (verify_cache
            (verifying_world (Raises (OtherError "ConnectionError" "reset")))
            "owner/model-repo" None (Some "main") 0)
  = Raised (OtherError "ConnectionError" "reset")
  /\ ending (verify_cache
               (verifying_world (Raises (RevisionNotFoundError "404")))
               "owner/model-repo" None (Some "main") 0)
     = Ok tt.
Proof.
  split.
  - apply (proj2 (proj2 (proj2 (verify_cache_one_call
             (verifying_world (Raises (OtherError "ConnectionError" "reset")))
             "owner/model-repo" None (Some "main") 0)))
             (OtherError "ConnectionError" "reset")); reflexivity.
  - apply (proj1 (proj2 (proj2 (verify_cache_one_call
             (verifying_world (Raises (RevisionNotFoundError "404")))
             "owner/model-repo" None (Some "main") 0)))); reflexivity.
Defined.

(* ===================================================================== *)
(** ** The loop over the entries, without [--dry-run] *)
(* ===================================================================== *)

Lemma process_entry_run (w : World) (args : Namespace) (entry : ModelConfig)
    (t : nat) :
  dry_run args = false ->
  has_repo entry = true ->
  process_entry w args entry t
  = match snapshot_download w t (repo entry) (ref entry) (include entry)
            (exclude entry) with
    | Returns _ =>
        prefixed [rendered_command entry;
                  downloading_notice (repo entry) (ref entry);
                  SnapshotDownload (repo entry) (ref entry) (include entry)
                    (exclude entry);
                  Print ""]
          (verify_cache w (repo entry) None (ref entry) (S t))
    | Raises e =>
        {| trace := [rendered_command entry;
                     downloading_notice (repo entry) (ref entry);
                     SnapshotDownload (repo entry) (ref entry) (include entry)
                       (exclude entry)];
           clock := S t; ending := Raised e |}
    end.
Proof.
  intros Hd Hr. unfold process_entry, has_repo in *. rewrite Hr, Hd.
  cbn [negb]. unfold logging_info at 1. rewrite bind_emit.
  pose proof (download_model_run w (repo entry) (ref entry) (include entry)
                (exclude entry) t) as Hdl.
  destruct (snapshot_download w t (repo entry) (ref entry) (include entry)
              (exclude entry)) as [[]|e].
  - rewrite (bind_Ok _ _ _ _ _ _ Hdl), prefixed_prefixed. reflexivity.
  - rewrite (bind_Raised _ _ _ _ _ _ Hdl). reflexivity.
Qed.

(** X10: without [--dry-run], when the download of an entry raises, the loop
    stops there with that exception: the command of the entry was logged and
    the download was tried, but the entry is not verified and the entries
    after it are not looked at. *)
Theorem download_failure_stops_loop (w : World) (args : Namespace)
    (entry : ModelConfig) (rest : list ModelConfig) (t : nat) (e : exception) :
  dry_run args = false ->
  has_repo entry = true ->
  snapshot_download w t (repo entry) (ref entry) (include entry) (exclude entry)
  = Raises e ->
  for_each (entry :: rest) (process_entry w args) t
  = {| trace := [rendered_command entry;
                 downloading_notice (repo entry) (ref entry);
                 SnapshotDownload (repo entry) (ref entry) (include entry)
                   (exclude entry)];
       clock := S t; ending := Raised e |}.
Proof.
  intros Hd Hr He. cbn [for_each].
  pose proof (process_entry_run w args entry t Hd Hr) as Hp. rewrite He in Hp.
  now rewrite (bind_Raised _ _ _ _ _ _ Hp).
Qed.


Lemma download_failure_stops_loop_witness :
  for_each [the_model; {| repo := "owner/other"; ref := Some "main";
                          include := None; exclude := None |}]
    (process_entry
       (failing_download_world one_model (OtherError "OSError" "disk full"))
       plain_args) 1
  = {| trace := [Log INFO "Equivalent command: `hf download owner/model-repo@main`" [];
                 Log INFO "Downloading repo owner/model-repo@main" [];
                 SnapshotDownload "owner/model-repo" (Some "main") None None];
       clock := 2; ending := Raised (OtherError "OSError" "disk full") |}.
Proof.
  rewrite (download_failure_stops_loop
             (failing_download_world one_model (OtherError "OSError" "disk full"))
             plain_args the_model
             [{| repo := "owner/other"; ref := Some "main"; include := None;
                 exclude := None |}] 1 (OtherError "OSError" "disk full")
             eq_refl eq_refl eq_refl).
  reflexivity.
Defined.

(** X11: without [--dry-run], when the download of an entry returns and its
    verification returns or raises a not-found error (a mismatch included),
    the loop goes on with the next entry: the entry takes two operations on
    the hub, its download and then its verification, and the rest of the
    loop runs after them. *)
Theorem loop_continues_after_verification (w : World) (args : Namespace)
    (entry : ModelConfig) (rest : list ModelConfig) (t : nat) :
  dry_run args = false ->
  has_repo entry = true ->
  snapshot_download w t (repo entry) (ref entry) (include entry) (exclude entry)
  = Returns tt ->
  handled (verify_repo_checksums w (S t) (repo entry) None (ref entry)) = true ->
  for_each (entry :: rest) (process_entry w args) t
  = prefixed
      ([rendered_command entry;
        downloading_notice (repo entry) (ref entry);
        SnapshotDownload (repo entry) (ref entry) (include entry)
          (exclude entry);
        Print ""]
       ++ trace (verify_cache w (repo entry) None (ref entry) (S t)))
      (for_each rest (process_entry w args) (S (S t))).
Proof.
  intros Hd Hr Hs Hh. cbn [for_each].
  pose proof (process_entry_run w args entry t Hd Hr) as Hp. rewrite Hs in Hp.
  pose proof (verify_cache_ending w (repo entry) None (ref entry) (S t)) as Hv.
  destruct (verify_cache_shape w (repo entry) None (ref entry) (S t))
    as [logs [_ [_ Hc]]].
  assert (Hok : ending (verify_cache w (repo entry) None (ref entry) (S t))
                = Ok tt).
  { rewrite Hv.
    destruct (verify_repo_checksums w (S t) (repo entry) None (ref entry))
      as [r|[]]; try reflexivity; discriminate. }
  clear Hv.
  destruct (verify_cache w (repo entry) None (ref entry) (S t))
    as [tv cv ev] eqn:Ev. cbn [trace clock ending] in *. subst cv ev.
  unfold prefixed in Hp. cbn [trace clock ending] in Hp.
  now rewrite (bind_Ok _ _ _ _ _ _ Hp).
Qed.


Lemma loop_continues_after_verification_witness :
  for_each [the_model; {| repo := ""; ref := Some "main"; include := None;
                          exclude := None |}]
    (process_entry (verifying_world (Raises (RepositoryNotFoundError "404")))
       plain_args) 1
  = {| trace :=
         [Log INFO "Equivalent command: `hf download owner/model-repo@main`" [];
          Log INFO "Downloading repo owner/model-repo@main" [];
          SnapshotDownload "owner/model-repo" (Some "main") None None;
          Print "";
          Log INFO
            "Verifying repo owner/model-repo@main, equivalent to: `hf cache verify owner/model-repo --revision main`"
            [];
          VerifyRepoChecksums "owner/model-repo" None (Some "main");
          Log ERROR "Repository owner/model-repo not found: 404" [];
          skip_warning {| repo := ""; ref := Some "main"; include := None;
                          exclude := None |}];
       clock := 3; ending := Ok tt |}.
Proof.
  rewrite (loop_continues_after_verification
             (verifying_world (Raises (RepositoryNotFoundError "404")))
             plain_args the_model
             [{| repo := ""; ref := Some "main"; include := None;
                 exclude := None |}] 1 eq_refl eq_refl eq_refl eq_refl).
  reflexivity.
Defined.

Lemma trace_bind {A B} (m : M A) (f : A -> M B) (t : nat) :
  trace (bind m f t)
  = trace (m t)
    ++ match ending (m t) with
       | Ok a => trace (f a (clock (m t)))
       | _ => []
       end.
Proof.
  unfold bind. destruct (ending (m t)); cbn [trace];
    [reflexivity | now rewrite app_nil_r | now rewrite app_nil_r].
Qed.

Lemma bind_Ok_inv {A B} (m : M A) (f : A -> M B) (t : nat) (b : B) :
  ending (bind m f t) = Ok b ->
  exists a, ending (m t) = Ok a /\ ending (f a (clock (m t))) = Ok b.
Proof.
  unfold bind. destruct (ending (m t)) as [a| |]; cbn [ending];
    [now exists a | discriminate | discriminate].
Qed.

Lemma for_each_count_zero {A} (p : event -> bool) (body : A -> M unit)
    (l : list A) :
  (forall x t, count p (trace (body x t)) = 0) ->
  forall t, count p (trace (for_each l body t)) = 0.
Proof.
  intros H. induction l as [|x l IH]; intros t; [reflexivity|].
  cbn [for_each]. rewrite trace_bind, count_app, H.
  destruct (ending (body x t)); [apply IH | reflexivity | reflexivity].
Qed.

Lemma log_is_no_download (e : event) : is_log e = true -> is_download e = false.
Proof. now destruct e. Qed.

Lemma log_is_no_verification (e : event) :
  is_log e = true -> is_verification e = false.
Proof. now destruct e. Qed.

Lemma access_is_no_download (e : event) :
  is_manifest_access e = true -> is_download e = false.
Proof. now destruct e. Qed.

Lemma access_is_no_verification (e : event) :
  is_manifest_access e = true -> is_verification e = false.
Proof. now destruct e. Qed.

(** What one turn of the loop over the entries is made of, for each way it
    can go. *)
Lemma process_entry_cases (w : World) (args : Namespace) (entry : ModelConfig)
    (t : nat) :
  (exists e, trace (process_entry w args entry t) = [e] /\ is_log e = true
             /\ ending (process_entry w args entry t) = Ok tt
             /\ (has_repo entry = false \/ dry_run args = true))
  \/ (exists e1 e2 exc,
         trace (process_entry w args entry t)
         = [e1; e2; SnapshotDownload (repo entry) (ref entry) (include entry)
                      (exclude entry)]
         /\ is_log e1 = true /\ is_log e2 = true
         /\ ending (process_entry w args entry t) = Raised exc)
  \/ (exists e1 e2 e3 logs,
         trace (process_entry w args entry t)
         = [e1; e2; SnapshotDownload (repo entry) (ref entry) (include entry)
                      (exclude entry); Print ""; e3;
            VerifyRepoChecksums (repo entry) None (ref entry)] ++ logs
         /\ is_log e1 = true /\ is_log e2 = true /\ is_log e3 = true
         /\ forallb is_log logs = true
         /\ has_repo entry = true /\ dry_run args = false).
Proof.
  destruct (has_repo entry) eqn:Hr.
  - destruct (dry_run args) eqn:Hd.
    + left. rewrite (process_entry_dry_run w args entry t Hd).
      exists (dry_run_event entry). unfold dry_run_event. unfold has_repo in Hr.
      rewrite Hr. repeat split. now right.
    + rewrite (process_entry_run w args entry t Hd Hr).
      destruct (snapshot_download w t _ _ _ _) as [[]|exc].
      * right; right.
        destruct (verify_cache_shape w (repo entry) None (ref entry) (S t))
          as [logs [Ht [Hl _]]].
        exists (rendered_command entry),
          (downloading_notice (repo entry) (ref entry)),
          (verifying_notice (repo entry) (ref entry)), logs.
        unfold prefixed; cbn [trace]. rewrite Ht. repeat split; assumption.
      * right; left.
        exists (rendered_command entry),
          (downloading_notice (repo entry) (ref entry)), exc. repeat split.
  - left. unfold has_repo in Hr.
    assert (Hrepo : repo entry = "") by now apply truthy_str_false.
    rewrite (process_entry_empty_repo w args entry t Hrepo).
    exists (skip_warning entry). repeat split. now left.
Qed.

Lemma process_entry_no_capture (w : World) (args : Namespace)
    (entry : ModelConfig) (t : nat) :
  count is_cache_capture (trace (process_entry w args entry t)) = 0.
Proof.
  destruct (process_entry_cases w args entry t)
    as [[e [Ht [He _]]]|[[e1 [e2 [exc [Ht [H1 [H2 _]]]]]]
       |[e1 [e2 [e3 [logs [Ht [H1 [H2 [H3 [Hl _]]]]]]]]]]]; rewrite Ht.
  - unfold count. cbn. now rewrite (log_is_no_capture e He).
  - unfold count. cbn.
    now rewrite (log_is_no_capture e1 H1), (log_is_no_capture e2 H2).
  - rewrite count_app, (count_none _ is_log logs log_is_no_capture Hl).
    unfold count. cbn.
    now rewrite (log_is_no_capture e1 H1), (log_is_no_capture e2 H2),
      (log_is_no_capture e3 H3).
Qed.

Lemma loop_counts (w : World) (args : Namespace) (entries : list ModelConfig) :
  forall t,
    ending (for_each entries (process_entry w args) t) = Ok tt ->
    count is_download (trace (for_each entries (process_entry w args) t))
    = (if dry_run args then 0 else length (filter has_repo entries))
    /\ count is_verification
         (trace (for_each entries (process_entry w args) t))
       = (if dry_run args then 0 else length (filter has_repo entries)).
Proof.
  induction entries as [|entry rest IH]; intros t Hok.
  - cbn. destruct (dry_run args); split; reflexivity.
  - cbn [for_each] in *. apply bind_Ok_inv in Hok as [[] [Hp Hrest]].
    rewrite trace_bind, Hp, !count_app.
    destruct (IH _ Hrest) as [IHd IHv]. rewrite IHd, IHv. clear IH IHd IHv.
    destruct (process_entry_cases w args entry t)
      as [[e [Ht [He [_ Hwhy]]]]|[[e1 [e2 [exc [Ht [H1 [H2 Hend]]]]]]
         |[e1 [e2 [e3 [logs [Ht [H1 [H2 [H3 [Hl [Hr Hd]]]]]]]]]]]].
    + rewrite Ht. unfold count. cbn [filter length].
      rewrite (log_is_no_download e He), (log_is_no_verification e He).
      cbn [length plus].
      destruct Hwhy as [Hr|Hd]; [|rewrite Hd; now split].
      cbn [filter]. rewrite Hr. now split.
    + congruence.
    + rewrite Ht, !count_app.
      rewrite (count_none _ is_log logs log_is_no_download Hl),
        (count_none _ is_log logs log_is_no_verification Hl).
      unfold count. cbn [filter].
      rewrite (log_is_no_download e1 H1), (log_is_no_download e2 H2),
        (log_is_no_download e3 H3), (log_is_no_verification e1 H1),
        (log_is_no_verification e2 H2), (log_is_no_verification e3 H3).
      cbn [is_download is_verification filter length]. rewrite Hr, Hd.
      cbn [length]. split; lia.
Qed.


(* ===================================================================== *)
(** ** Whole runs *)
(* ===================================================================== *)

(** X12: a run without [--version] that ends normally has loaded a manifest;
    it captured the cache listing twice when the manifest has entries and
    once when it has none, and it made as many downloads and as many
    verifications as the manifest has entries with a non-empty repo, or none
    of either under [--dry-run]. *)
Theorem completed_run_counts (w : World) (args : Namespace) :
  version args = false ->
  ending (run w args) = Ok tt ->
  exists m,
    ending (load_manifest w (manifest args) 0) = Ok m
    /\ count is_cache_capture (trace (run w args))
       = (if Py.truthy_list (models m) then 2 else 1)
    /\ count is_download (trace (run w args))
       = (if dry_run args then 0 else length (filter has_repo (models m)))
    /\ count is_verification (trace (run w args))
       = (if dry_run args then 0 else length (filter has_repo (models m))).
Proof.
  intros Hv. rewrite (run_no_version w args Hv). cbv zeta.
  pose proof (load_manifest_shape w (manifest args) 0) as [Hacc Hc0].
  rewrite Hc0.
  destruct (ending (load_manifest w (manifest args) 0)) as [m| |];
    cbn [ending]; try discriminate.
  intros Hok. exists m. split; [reflexivity|].
  assert (Hl1 : count is_cache_capture (trace (load_manifest w (manifest args) 0)) = 0)
    by (apply (count_none _ is_manifest_access); [exact access_is_no_capture | exact Hacc]).
  assert (Hl2 : count is_download (trace (load_manifest w (manifest args) 0)) = 0)
    by (apply (count_none _ is_manifest_access); [exact access_is_no_download | exact Hacc]).
  assert (Hl3 : count is_verification (trace (load_manifest w (manifest args) 0)) = 0)
    by (apply (count_none _ is_manifest_access); [exact access_is_no_verification | exact Hacc]).
  assert (Hfinal : forall initial t,
             count is_cache_capture (trace (show_final_cache w initial t)) = 1
             /\ count is_download (trace (show_final_cache w initial t)) = 0
             /\ count is_verification (trace (show_final_cache w initial t)) = 0).
  { intros initial t.
    destruct (show_final_cache_shape w initial t) as [rest [Ht Hl]]. rewrite Ht.
    change (S (count is_cache_capture rest) = 1 /\ count is_download rest = 0
            /\ count is_verification rest = 0).
    now rewrite (count_none _ is_log rest log_is_no_capture Hl),
      (count_none _ is_log rest log_is_no_download Hl),
      (count_none _ is_log rest log_is_no_verification Hl). }
  destruct (Py.truthy_list (models m)) eqn:Hm; cbn [negb] in *.
  - destruct (get_cache_listing_shape w 0) as [rest [Ht [Hl Hc]]].
    rewrite Hc in *.
    destruct (ending (get_cache_listing w 0)) as [initial| |];
      cbn [ending] in Hok; try discriminate.
    destruct (ending (for_each (models m) (process_entry w args) 1))
      as [[]| |] eqn:Ep; cbn [ending] in Hok; try discriminate.
    destruct (loop_counts w args (models m) 1 Ep) as [Hd Hvf].
    destruct (Hfinal initial
                (clock (for_each (models m) (process_entry w args) 1)))
      as [F1 [F2 F3]].
    unfold prefixed; cbn [trace].
    change (initial_header :: map log_line initial
            ++ trace (for_each (models m) (process_entry w args) 1))
      with ([initial_header] ++ map log_line initial
            ++ trace (for_each (models m) (process_entry w args) 1)).
    rewrite !count_app, Hl1, Hl2, Hl3, F1, F2, F3, Hd, Hvf, Ht.
    rewrite (for_each_count_zero is_cache_capture (process_entry w args)
               (models m) (process_entry_no_capture w args) 1).
    assert (Hlines : forall p, (forall e, is_log e = true -> p e = false) ->
               count p (map log_line initial) = 0).
    { intros p Hp. apply (count_none _ is_log); [exact Hp|].
      now apply forallb_map_log. }
    rewrite (Hlines _ log_is_no_capture), (Hlines _ log_is_no_download),
      (Hlines _ log_is_no_verification).
    change (count is_cache_capture (Subprocess ["hf"; "cache"; "ls"] :: rest))
      with (S (count is_cache_capture rest)).
    change (count is_download (Subprocess ["hf"; "cache"; "ls"] :: rest))
      with (count is_download rest).
    change (count is_verification (Subprocess ["hf"; "cache"; "ls"] :: rest))
      with (count is_verification rest).
    rewrite (count_none _ is_log rest log_is_no_capture Hl),
      (count_none _ is_log rest log_is_no_download Hl),
      (count_none _ is_log rest log_is_no_verification Hl).
    cbn. repeat split; lia.
  - destruct (Hfinal [] 0) as [F1 [F2 F3]].
    unfold prefixed; cbn [trace].
    rewrite !count_app, Hl1, Hl2, Hl3, F1, F2, F3.
    destruct (models m); [|discriminate].
    cbn. destruct (dry_run args); repeat split.
Qed.


Lemma completed_run_counts_witness :
  exists m,
    ending (load_manifest (quiet_world empty_repo_manifest listing_one 1)
              "facehugger.yaml" 0) = Ok m
    /\ count is_cache_capture
         (trace (run (quiet_world empty_repo_manifest listing_one 1) plain_args))
       = (if Py.truthy_list (models m) then 2 else 1)
    /\ count is_download
         (trace (run (quiet_world empty_repo_manifest listing_one 1) plain_args))
       = length (filter has_repo (models m))
    /\ count is_verification
         (trace (run (quiet_world empty_repo_manifest listing_one 1) plain_args))
       = length (filter has_repo (models m)).
Proof.
  apply (completed_run_counts (quiet_world empty_repo_manifest listing_one 1)
           plain_args); reflexivity.
Defined.

(** X13: when the loader exits (no file, a parse error, a validation error),
    the run ends there with exit status 1: it has looked at the manifest file
    and done nothing else, no capture of the cache, no download, no
    verification and no logging. *)
Theorem manifest_failure_is_fatal (w : World) (args : Namespace)
    (msg : string) (exc : option exception) :
  version args = false ->
  ending (load_manifest w (manifest args) 0) = SystemExit msg exc ->
  run w args
  = {| trace := trace (load_manifest w (manifest args) 0); clock := 0;
       ending := SystemExit msg exc |}
  /\ exit_status (ending (run w args)) = 1%Z
  /\ forallb is_manifest_access (trace (run w args)) = true.
Proof.
  intros Hv Hl.
  assert (E : run w args
              = {| trace := trace (load_manifest w (manifest args) 0);
                   clock := 0; ending := SystemExit msg exc |}).
  { rewrite (run_no_version w args Hv). cbv zeta. rewrite Hl.
    now rewrite (proj2 (load_manifest_shape w (manifest args) 0)). }
  rewrite E. cbn [trace ending exit_status]. repeat split.
  apply load_manifest_shape.
Qed.


Lemma manifest_failure_is_fatal_witness :
  run no_file_world plain_args
  = {| trace := [IsFile "facehugger.yaml"]; clock := 0;
       ending := SystemExit "Manifest file not found: facehugger.yaml" None |}.
Proof.
  apply (manifest_failure_is_fatal no_file_world plain_args
           "Manifest file not found: facehugger.yaml" None); reflexivity.
Defined.

(** X14: when the manifest has entries and the [hf cache ls] subprocess of
    the initial capture cannot be run (any error but a non-zero exit), the
    run ends with that exception right after loading the manifest: no entry
    is processed, with or without [--dry-run]. *)
Theorem initial_capture_failure_aborts (w : World) (args : Namespace)
    (m : FacehuggerManifest) (e : exception) :
  version args = false ->
  ending (load_manifest w (manifest args) 0) = Ok m ->
  models m <> [] ->
  hf_cache_ls w 0 = Raises e ->
  (forall code, e <> CalledProcessError code) ->
  run w args
  = {| trace := trace (load_manifest w (manifest args) 0)
                ++ [Subprocess ["hf"; "cache"; "ls"]];
       clock := 1; ending := Raised e |}.
Proof.
  intros Hv Hl Hm Hls Hne. rewrite (run_no_version w args Hv). cbv zeta.
  rewrite Hl. destruct (models m) as [|entry rest]; [congruence|].
  cbn [Py.truthy_list negb].
  rewrite (proj2 (load_manifest_shape w (manifest args) 0)).
  rewrite get_cache_listing_run, Hls.
  destruct e; try reflexivity. exfalso. now apply (Hne code).
Qed.


Lemma initial_capture_failure_aborts_witness :
  run (no_hf_world one_model (FileNotFoundError "hf")) dry_args
  = {| trace := [IsFile "facehugger.yaml"; OpenFile "facehugger.yaml";
                 Subprocess ["hf"; "cache"; "ls"]];
       clock := 1; ending := Raised (FileNotFoundError "hf") |}.
Proof.
  rewrite (initial_capture_failure_aborts
             (no_hf_world one_model (FileNotFoundError "hf")) dry_args
             {| models := [the_model] |} (FileNotFoundError "hf")
             eq_refl eq_refl ltac:(discriminate) eq_refl ltac:(discriminate)).
  reflexivity.
Defined.



(* ===================================================================== *)
(** ** The diff is right: it is empty only for equal sequences *)
(* ===================================================================== *)

Module DiffSoundness.

Import difflib.
Import DifflibFacts.
Local Open Scope Z_scope.

(** *** The diff from an empty sequence *)

Lemma slice_all (l : list string) : slice l 0 (len l) = l.
Proof.
  unfold slice, len. cbn [Z.to_nat skipn].
  rewrite Z.sub_0_r, Nat2Z.id. apply firstn_all.
Qed.

Lemma get_opcodes_from_empty (b : list string) :
  b <> [] ->
  get_opcodes [] b
  = Some [{| op_tag := insert; i1 := 0; i2 := 0; j1 := 0; j2 := len b |}].
Proof.
  intros Hb. unfold get_opcodes, get_matching_blocks. cbn.
  destruct (Z.ltb_spec 0 (len b)) as [_|H].
  - reflexivity.
  - destruct b; [congruence|]. unfold len in H. cbn [length] in H. lia.
Qed.

Lemma unified_diff_from_empty (b : list string) :
  b <> [] ->
  unified_diff [] b "initial" "final" "" "" 3 ""
  = Some ("--- initial" :: "+++ final"
          :: ("@@ -0,0 +" ++ format_range_unified 0 (len b) ++ " @@")%string
          :: map (fun line => ("+" ++ line)%string) b).
Proof.
  intros Hb. unfold unified_diff, get_grouped_opcodes.
  rewrite (get_opcodes_from_empty b Hb).
  cbn [Py.truthy_list update_first update_last rev app is_equal op_tag
       group_loop andb].
  cbn [flat_map group_lines List.last i1 i2 j1 j2 opcode_lines op_tag app
       Py.truthy_str].
  rewrite slice_all, !app_nil_r. reflexivity.
Qed.

(** *** The blocks of the matcher hold equal elements *)

Section Matching.

Variables a b : list string.

Lemma item_nth0 (l : list string) (i : Z) :
  item l i = nth (Z.to_nat (i - 0)) l "".
Proof. unfold item. now rewrite Z.sub_0_r. Qed.

Lemma b2j_get_item (x : string) (j : Z) :
  In j (b2j_get (chain_b b) x) -> item b j = x.
Proof.
  intros H. destruct (chain_b_get b x) as [E|E]; rewrite E in H; [destruct H|].
  apply positions_spec in H as [_ H]. now rewrite item_nth0.
Qed.

Lemma scan_row_matches (i blo bhi : Z) (j2len : list (Z * Z)) :
  lengths_match a b (i - 1) j2len ->
  forall js newj2len best,
    Forall (fun j => item b j = item a i) js ->
    lengths_match a b i newj2len ->
    matches a b best ->
    lengths_match a b i (fst (scan_row js i blo bhi j2len newj2len best))
    /\ matches a b (snd (scan_row js i blo bhi j2len newj2len best)).
Proof.
  intros Hold.
  induction js as [|j rest IH]; intros newj2len best Hjs Hnew Hbest;
    cbn [scan_row]; [now split|].
  inversion Hjs as [|? ? Hj Hrest]; subst.
  destruct (j <? blo); [now apply IH|].
  destruct (j >=? bhi); [now split|].
  cbv zeta.
  assert (Hk : forall d, 0 <= d < j2len_get j2len (j - 1) + 1 ->
                         item a (i - d) = item b (j - d)).
  { intros d Hd. destruct (Z.eq_dec d 0) as [->|Hne].
    - now rewrite !Z.sub_0_r.
    - pose proof (Hold (j - 1) (d - 1) ltac:(lia)) as H.
      replace (i - 1 - (d - 1)) with (i - d) in H by lia.
      replace (j - 1 - (d - 1)) with (j - d) in H by lia. exact H. }
  apply IH; [exact Hrest | |].
  - intros j' d. cbn [j2len_get].
    destruct (Z.eqb_spec j j'); [subst; apply Hk | apply Hnew].
  - destruct (_ >? m_size best); [|exact Hbest].
    intros d Hd. cbn [m_a m_b m_size] in *.
    pose proof (Hk (j2len_get j2len (j - 1) + 1 - 1 - d) ltac:(lia)) as H.
    replace (i - (j2len_get j2len (j - 1) + 1 - 1 - d))
      with (i - (j2len_get j2len (j - 1) + 1) + 1 + d) in H by lia.
    replace (j - (j2len_get j2len (j - 1) + 1 - 1 - d))
      with (j - (j2len_get j2len (j - 1) + 1) + 1 + d) in H by lia.
    exact H.
Qed.

Lemma scan_rows_matches (blo bhi : Z) (rows : nat) :
  forall i j2len best,
    lengths_match a b (i - 1) j2len ->
    matches a b best ->
    matches a b (scan_rows rows a (chain_b b) i blo bhi j2len best).
Proof.
  induction rows as [|rows IH]; intros i j2len best Hj Hb; cbn [scan_rows];
    [exact Hb|].
  pose proof (scan_row_matches i blo bhi j2len Hj
                (b2j_get (chain_b b) (item a i)) [] best) as H.
  destruct (scan_row _ i blo bhi j2len [] best) as [newj2len best'].
  cbn [fst snd] in H. destruct H as [Hn Hb'].
  - apply Forall_forall. intros j Hin. now apply b2j_get_item.
  - intros j d Hd. cbn in Hd. lia.
  - exact Hb.
  - apply IH; [|exact Hb']. now replace (i + 1 - 1) with i by lia.
Qed.

Lemma extend_left_matches (turns : nat) (junk : bool) (alo blo : Z) :
  forall best,
    matches a b best ->
    matches a b (extend_left turns junk a b alo blo best).
Proof.
  induction turns as [|turns IH]; intros best Hb; cbn [extend_left]; [exact Hb|].
  destruct (m_a best >? alo); cbn [andb]; [|exact Hb].
  destruct (m_b best >? blo); cbn [andb]; [|exact Hb].
  destruct (Bool.eqb _ junk); cbn [andb]; [|exact Hb].
  destruct (String.eqb_spec (item a (m_a best - 1)) (item b (m_b best - 1)))
    as [E|_]; [|exact Hb].
  apply IH. intros d Hd. cbn [m_a m_b m_size] in *.
  destruct (Z.eq_dec d 0) as [->|Hne].
  - now rewrite !Z.add_0_r.
  - pose proof (Hb (d - 1) ltac:(lia)) as H.
    replace (m_a best + (d - 1)) with (m_a best - 1 + d) in H by lia.
    replace (m_b best + (d - 1)) with (m_b best - 1 + d) in H by lia.
    exact H.
Qed.

Lemma extend_right_matches (turns : nat) (junk : bool) (ahi bhi : Z) :
  forall best,
    0 <= m_size best ->
    matches a b best ->
    matches a b (extend_right turns junk a b ahi bhi best).
Proof.
  induction turns as [|turns IH]; intros best Hs Hb; cbn [extend_right];
    [exact Hb|].
  destruct (m_a best + m_size best <? ahi); cbn [andb]; [|exact Hb].
  destruct (m_b best + m_size best <? bhi); cbn [andb]; [|exact Hb].
  destruct (Bool.eqb _ junk); cbn [andb]; [|exact Hb].
  destruct (String.eqb_spec (item a (m_a best + m_size best))
              (item b (m_b best + m_size best))) as [E|_]; [|exact Hb].
  apply IH; cbn [m_size]; [lia|].
  intros d Hd. cbn [m_a m_b m_size] in *.
  destruct (Z.eq_dec d (m_size best)) as [->|Hne]; [exact E|].
  apply Hb. lia.
Qed.

(** The block that [find_longest_match] returns is a match: its elements
    are the same in [a] and in [b]. *)
Lemma find_longest_match_sound (alo ahi blo bhi : Z) :
  alo <= ahi -> blo <= bhi ->
  matches a b (find_longest_match a b (chain_b b) alo ahi blo bhi).
Proof.
  intros Ha Hb. unfold find_longest_match. cbv zeta.
  set (b0 := scan_rows _ _ _ _ _ _ _ _).
  assert (W0 : within alo ahi blo bhi b0).
  { apply scan_rows_within; [lia | lia | |].
    - intros j. cbn [j2len_get]. lia.
    - unfold within. cbn [m_a m_b m_size]. lia. }
  assert (M0 : matches a b b0).
  { apply scan_rows_matches.
    - intros j d Hd. cbn in Hd. lia.
    - intros d Hd. cbn in Hd. lia. }
  set (b1 := extend_left _ false a b alo blo b0).
  assert (W1 : within alo ahi blo bhi b1) by now apply extend_left_within.
  assert (M1 : matches a b b1) by now apply extend_left_matches.
  set (b2 := extend_right _ false a b ahi bhi b1).
  assert (W2 : within alo ahi blo bhi b2) by now apply extend_right_within.
  assert (M2 : matches a b b2)
    by (apply extend_right_matches; [apply W1 | exact M1]).
  set (b3 := extend_left _ true a b alo blo b2).
  assert (W3 : within alo ahi blo bhi b3) by now apply extend_left_within.
  assert (M3 : matches a b b3) by now apply extend_left_matches.
  apply extend_right_matches; [apply W3 | exact M3].
Qed.

End Matching.

Section Blocks.

Variables a b : list string.

Lemma within_widen (alo ahi blo bhi : Z) (x : Match) :
  range_in (len a) (len b) (alo, ahi, blo, bhi) ->
  within alo ahi blo bhi x ->
  within 0 (len a) 0 (len b) x.
Proof. unfold range_in, within. lia. Qed.

Lemma queue_loop_sound (turns : nat) :
  forall queue matching_blocks blocks,
    Forall (range_in (len a) (len b)) queue ->
    Forall (sound a b) matching_blocks ->
    queue_loop turns a b (chain_b b) queue matching_blocks = Some blocks ->
    Forall (sound a b) blocks.
Proof.
  induction turns as [|turns IH]; intros queue mb blocks Hq Hmb Hrun.
  - destruct queue as [|[[[alo ahi] blo] bhi] queue]; cbn in Hrun;
      [now inversion Hrun; subst | discriminate].
  - destruct queue as [|[[[alo ahi] blo] bhi] queue];
      [cbn in Hrun; now inversion Hrun; subst|].
    inversion Hq as [|? ? Hr Hq']; subst.
    cbn [queue_loop] in Hrun. cbv zeta in Hrun.
    pose proof Hr as Hr'. cbn [range_in] in Hr'.
    pose proof (find_longest_match_within a b (chain_b b) alo ahi blo bhi
                  ltac:(lia) ltac:(lia)) as W.
    pose proof (find_longest_match_sound a b alo ahi blo bhi
                  ltac:(lia) ltac:(lia)) as S.
    set (x := find_longest_match a b (chain_b b) alo ahi blo bhi) in *.
    destruct (m_size x =? 0); [now apply (IH queue mb)|].
    apply (IH _ _ _) in Hrun; [exact Hrun | |].
    + unfold within in W.
      destruct (alo <? m_a x) eqn:E1, (blo <? m_b x) eqn:E2,
        (m_a x + m_size x <? ahi) eqn:E3, (m_b x + m_size x <? bhi) eqn:E4;
        cbn [andb]; repeat constructor; try assumption;
        cbn [range_in]; lia.
    + apply Forall_app. split; [exact Hmb|]. constructor; [|constructor].
      split; [exact S | now apply (within_widen alo ahi blo bhi)].
Qed.

Lemma insert_sorted_Forall (P : Match -> Prop) (x : Match) (l : list Match) :
  P x -> Forall P l -> Forall P (insert_sorted x l).
Proof.
  intros Hx. induction l as [|y l IH]; intros Hl; cbn.
  - now constructor.
  - inversion Hl; subst. destruct (match_leb x y); constructor; auto.
Qed.

Lemma sort_Forall (P : Match -> Prop) (l : list Match) :
  Forall P l -> Forall P (sort l).
Proof.
  induction 1 as [|x l Hx Hl IH]; cbn; [constructor|].
  now apply insert_sorted_Forall.
Qed.

Lemma collapse_sound (blocks : list Match) :
  forall cur non_adjacent,
    Forall (sound a b) blocks ->
    sound a b cur ->
    Forall (fun x => sound a b x /\ m_size x <> 0) non_adjacent ->
    Forall (fun x => sound a b x /\ m_size x <> 0)
      (fst (collapse blocks cur non_adjacent))
    /\ sound a b (snd (collapse blocks cur non_adjacent)).
Proof.
  induction blocks as [|x rest IH]; intros cur acc Hb Hc Ha; cbn [collapse];
    [now split|].
  inversion Hb as [|? ? Hx Hrest]; subst.
  destruct ((m_a cur + m_size cur =? m_a x)
            && (m_b cur + m_size cur =? m_b x))%bool eqn:E.
  - apply andb_prop in E as [E1 E2].
    apply Z.eqb_eq in E1. apply Z.eqb_eq in E2.
    apply IH; [exact Hrest | | exact Ha].
    destruct Hc as [Mc Wc], Hx as [Mx Wx]. unfold within in *. split.
    + intros d Hd. cbn [m_a m_b m_size] in *.
      destruct (Z.lt_ge_cases d (m_size cur)) as [Hlt|Hge].
      * apply Mc. lia.
      * pose proof (Mx (d - m_size cur) ltac:(lia)) as H.
        replace (m_a x + (d - m_size cur)) with (m_a cur + d) in H by lia.
        replace (m_b x + (d - m_size cur)) with (m_b cur + d) in H by lia.
        exact H.
    + unfold within. cbn [m_a m_b m_size]. lia.
  - apply IH; [exact Hrest | exact Hx |].
    destruct (Z.eqb_spec (m_size cur) 0); [exact Ha|].
    apply Forall_app. split; [exact Ha|]. constructor; [|constructor].
    now split.
Qed.

(** What [get_matching_blocks] returns: blocks of equal elements, none of
    them empty, and the sentinel. *)
Lemma get_matching_blocks_sound (blocks : list Match) :
  get_matching_blocks a b = Some blocks ->
  exists non_adjacent,
    blocks = non_adjacent
             ++ [{| m_a := len a; m_b := len b; m_size := 0 |}]
    /\ Forall (fun x => sound a b x /\ m_size x <> 0) non_adjacent.
Proof.
  unfold get_matching_blocks. cbv zeta.
  destruct (queue_loop _ a b (chain_b b) _ []) as [mb|] eqn:Eq; [|discriminate].
  assert (Hla : 0 <= len a) by (unfold len; lia).
  assert (Hlb : 0 <= len b) by (unfold len; lia).
  apply queue_loop_sound in Eq;
    [| repeat constructor; cbn [range_in]; lia | constructor].
  pose proof (collapse_sound (sort mb) {| m_a := 0; m_b := 0; m_size := 0 |} []
                (sort_Forall _ _ Eq)) as H.
  destruct (collapse (sort mb) _ []) as [non_adjacent cur].
  cbn [fst snd] in H. destruct H as [Hn Hc].
  - split; [intros d Hd; cbn in Hd; lia|].
    unfold within. cbn [m_a m_b m_size]. lia.
  - constructor.
  - intros E. inversion E; subst. eexists. split; [reflexivity|].
    destruct (Z.eqb_spec (m_size cur) 0); [exact Hn|].
    apply Forall_app. split; [exact Hn|]. constructor; [|constructor].
    now split.
Qed.

End Blocks.

Section Opcodes.

Variables a b : list string.

Lemma opcodes_from_step (x : Match) (rest : list Match) (i j : Z)
    (answer : list opcode) :
  opcodes_from (x :: rest) i j answer
  = opcodes_from rest (m_a x + m_size x) (m_b x + m_size x)
      (answer ++ block_opcodes x i j).
Proof.
  cbn [opcodes_from]. cbv zeta. unfold block_opcodes. f_equal.
  destruct ((i <? m_a x) && (j <? m_b x))%bool, (i <? m_a x), (j <? m_b x),
    (m_size x =? 0); cbn [app]; rewrite <- ?app_assoc, ?app_nil_r;
    reflexivity.
Qed.

Lemma opcodes_from_answer (blocks : list Match) :
  forall i j answer,
    opcodes_from blocks i j answer = answer ++ opcodes_from blocks i j [].
Proof.
  induction blocks as [|x rest IH]; intros i j answer.
  - cbn. now rewrite app_nil_r.
  - rewrite !opcodes_from_step, IH. rewrite (IH _ _ ([] ++ _)).
    cbn [app]. now rewrite app_assoc.
Qed.

Lemma block_opcodes_equal_last (x : Match) (i j : Z) :
  m_size x <> 0 ->
  exists tags,
    block_opcodes x i j
    = tags ++ [{| op_tag := equal; i1 := m_a x; i2 := m_a x + m_size x;
                  j1 := m_b x; j2 := m_b x + m_size x |}]
    /\ (tags = [] -> ~ i < m_a x /\ ~ j < m_b x).
Proof.
  intros Hs. unfold block_opcodes.
  destruct (Z.eqb_spec (m_size x) 0) as [|_]; [contradiction|].
  destruct (Z.ltb_spec i (m_a x)), (Z.ltb_spec j (m_b x)); cbn [andb];
    eexists; (split; [reflexivity|]); intros E; try discriminate; lia.
Qed.

Lemma list_ext (l l' : list string) :
  len l = len l' ->
  (forall d, 0 <= d < len l -> item l d = item l' d) ->
  l = l'.
Proof.
  unfold len, item. intros Hl H.
  apply (nth_ext l l' "" ""); [lia|].
  intros n Hn. specialize (H (Z.of_nat n) ltac:(lia)).
  now rewrite Nat2Z.id in H.
Qed.

Lemma empty_of_len (l : list string) : len l <= 0 -> l = [].
Proof. destruct l; [reflexivity|]. unfold len. cbn [length]. lia. Qed.

(** When the opcodes show no change, the sequences are the same. *)
Lemma unchanged_opcodes_equal (codes : list opcode) :
  get_opcodes a b = Some codes -> unchanged codes -> a = b.
Proof.
  unfold get_opcodes.
  destruct (get_matching_blocks a b) as [blocks|] eqn:Eb; [|discriminate].
  destruct (get_matching_blocks_sound a b blocks Eb) as [na [-> Hna]].
  intros E Hu. injection E as Ec. subst codes.
  destruct na as [|x [|y rest]].
  - (* only the sentinel *)
    cbn [app] in Hu. rewrite opcodes_from_step in Hu.
    cbn [opcodes_from app] in Hu.
    unfold block_opcodes in Hu. cbn [m_a m_b m_size Z.eqb] in Hu.
    rewrite app_nil_r in Hu.
    destruct (Z.ltb_spec 0 (len a)), (Z.ltb_spec 0 (len b)); cbn [andb] in Hu;
      try (destruct Hu as [Hu|[c [Hu Hc]]];
           [discriminate | inversion Hu; subst; discriminate]).
    now rewrite (empty_of_len a), (empty_of_len b).
  - (* one block and the sentinel *)
    inversion Hna as [|? ? [[Mx Wx] Sx] _]; subst.
    cbn [app] in Hu. rewrite !opcodes_from_step in Hu.
    cbn [opcodes_from app] in Hu.
    destruct (block_opcodes_equal_last x 0 0 Sx) as [tags [Ex Htags]].
    rewrite Ex in Hu.
    unfold within in Wx.
    destruct Hu as [Hu|[c [Hu Hc]]].
    + destruct tags; discriminate.
    + destruct tags as [|t tags].
      * cbn [app] in Hu. injection Hu as Hc' Hs.
        destruct (Htags eq_refl) as [H1 H2].
        unfold block_opcodes in Hs. cbn [m_a m_b m_size Z.eqb] in Hs.
        rewrite app_nil_r in Hs.
        destruct (Z.ltb_spec (m_a x + m_size x) (len a)),
          (Z.ltb_spec (m_b x + m_size x) (len b)); cbn [andb] in Hs;
          try discriminate.
        apply list_ext; [lia|].
        intros d Hd. pose proof (Mx d ltac:(lia)) as Hitem.
        replace (m_a x + d) with d in Hitem by lia.
        replace (m_b x + d) with d in Hitem by lia. exact Hitem.
      * cbn [app] in Hu. injection Hu as Hc' Hs.
        destruct tags; discriminate.
  - (* two blocks or more *)
    exfalso.
    inversion Hna as [|? ? [_ Sx] Hna']; subst.
    inversion Hna' as [|? ? [_ Sy] _]; subst.
    cbn [app] in Hu. rewrite !opcodes_from_step in Hu.
    rewrite opcodes_from_answer in Hu.
    destruct (block_opcodes_equal_last x 0 0 Sx) as [tx [Ex _]].
    destruct (block_opcodes_equal_last y (m_a x + m_size x)
                (m_b x + m_size x) Sy) as [ty [Ey _]].
    rewrite Ex, Ey in Hu.
    assert (Hlen : forall l : list opcode, unchanged l -> (length l <= 1)%nat).
    { intros l [->|[c [-> _]]]; cbn; lia. }
    apply Hlen in Hu. rewrite !length_app in Hu. cbn [length] in Hu. lia.
Qed.

End Opcodes.

Lemma group_loop_no_group (n : Z) (codes : list opcode) :
  forall group groups,
    fst (group_loop n codes group groups) = [] ->
    groups = [] /\ snd (group_loop n codes group groups) = group ++ codes.
Proof.
  induction codes as [|c rest IH]; intros group groups H; cbn [group_loop] in *.
  - split; [exact H | now rewrite app_nil_r].
  - destruct (is_equal (op_tag c) && (i2 c - i1 c >? n + n))%bool.
    + cbv zeta in H. apply IH in H as [H _]. destruct groups; discriminate.
    + apply IH in H as [Hg Hs]. split; [exact Hg|].
      now rewrite Hs, <- app_assoc.
Qed.

Lemma update_first_length {A} (f : A -> A) (l : list A) :
  length (update_first f l) = length l.
Proof. now destruct l. Qed.

Lemma update_last_length {A} (f : A -> A) (l : list A) :
  length (update_last f l) = length l.
Proof.
  unfold update_last. now rewrite length_rev, update_first_length, length_rev.
Qed.

(** When no group is yielded, the opcodes show no change. *)
Lemma no_group_unchanged (a b : list string) (n : Z) :
  get_grouped_opcodes a b n = Some [] ->
  exists codes, get_opcodes a b = Some codes /\ unchanged codes.
Proof.
  unfold get_grouped_opcodes.
  destruct (get_opcodes a b) as [raw|]; [|discriminate].
  cbv zeta. intros H. exists raw. split; [reflexivity|].
  destruct raw as [|c0 [|c1 rest]].
  - now left.
  - right. exists c0. split; [reflexivity|].
    destruct c0 as [tg x1 x2 y1 y2].
    cbn [Py.truthy_list update_first update_last rev app] in H.
    destruct tg; try reflexivity; exfalso;
      cbn [is_equal op_tag group_loop andb app] in H; discriminate.
  - exfalso.
    set (codes := update_last _ (update_first _ _)) in H.
    assert (Hlen : (2 <= length codes)%nat).
    { unfold codes. rewrite update_last_length, update_first_length.
      cbn [Py.truthy_list length]. lia. }
    pose proof (group_loop_no_group n codes [] []) as Hg.
    destruct (group_loop n codes [] []) as [groups group]. cbn [fst snd] in Hg.
    destruct group as [|c [|c' group]].
    + injection H as ->. destruct (Hg eq_refl) as [_ Hs].
      cbn [app] in Hs. rewrite <- Hs in Hlen. cbn in Hlen. lia.
    + destruct (is_equal (op_tag c)).
      * injection H as ->. destruct (Hg eq_refl) as [_ Hs].
        cbn [app] in Hs. rewrite <- Hs in Hlen. cbn in Hlen. lia.
      * destruct groups; discriminate.
    + destruct groups; discriminate.
Qed.

(** An empty diff means equal sequences. *)
Lemma unified_diff_empty_equal (a b : list string)
    (fromfile tofile fromfiledate tofiledate : string) (n : Z)
    (lineterm : string) :
  unified_diff a b fromfile tofile fromfiledate tofiledate n lineterm = Some [] ->
  a = b.
Proof.
  unfold unified_diff.
  destruct (get_grouped_opcodes a b n) as [[|g groups]|] eqn:E;
    try discriminate.
  intros _. destruct (no_group_unchanged a b n E) as [codes [Ec Hu]].
  exact (unchanged_opcodes_equal a b codes Ec Hu).
Qed.

(** A diff that is not empty starts with the [---] line. *)
Lemma unified_diff_header (a b : list string)
    (fromfile tofile lineterm : string) (n : Z) (lines : list string) :
  unified_diff a b fromfile tofile "" "" n lineterm = Some lines ->
  lines = []
  \/ exists rest,
       lines = ("--- " ++ fromfile ++ lineterm)%string
               :: ("+++ " ++ tofile ++ lineterm)%string :: rest.
Proof.
  unfold unified_diff.
  destruct (get_grouped_opcodes a b n) as [[|g groups]|]; try discriminate.
  - intros E. injection E as <-. now left.
  - intros E. injection E as <-. right. cbn [Py.truthy_str]. eexists.
    reflexivity.
Qed.

End DiffSoundness.

(* ===================================================================== *)
(** ** When the entry point shows a diff, and what it shows *)
(* ===================================================================== *)

Lemma join_header (rest : list string) :
  exists tail,
    Py.join "" ("--- initial" :: "+++ final" :: rest)
    = ("--- initial+++ final" ++ tail)%string.
Proof.
  destruct rest as [|x rest].
  - now exists "".
  - eexists. cbn. reflexivity.
Qed.

Lemma cache_diff_header (initial_cache final_cache : list string) :
  cache_diff initial_cache final_cache = []
  \/ exists rest,
       cache_diff initial_cache final_cache
       = "--- initial" :: "+++ final" :: rest.
Proof.
  exact (DiffSoundness.unified_diff_header initial_cache final_cache "initial" "final" "" 3
           _ (cache_diff_is_unified_diff initial_cache final_cache)).
Qed.

(** X16: the entry point shows a diff section exactly when the final cache
    listing differs from the initial one: the diff of two listings is empty
    if and only if they are the same list of lines, and so is the diff
    section that [main] logs. *)
Theorem diff_shown_iff_changed (initial_cache final_cache : list string) :
  (cache_diff initial_cache final_cache = [] <-> initial_cache = final_cache)
  /\ (diff_section initial_cache final_cache = []
      <-> initial_cache = final_cache).
Proof.
  assert (H1 : cache_diff initial_cache final_cache = []
               <-> initial_cache = final_cache).
  { split.
    - intros E. pose proof (cache_diff_is_unified_diff initial_cache final_cache)
        as H. rewrite E in H. exact (DiffSoundness.unified_diff_empty_equal _ _ _ _ _ _ _ _ H).
    - intros <-. unfold cache_diff.
      now rewrite DifflibFacts.unified_diff_equal. }
  split; [exact H1|]. split.
  - intros E. apply H1. unfold diff_section in E.
    destruct (cache_diff_header initial_cache final_cache) as [E0|[rest E0]];
      [exact E0|].
    rewrite E0 in E. destruct (join_header rest) as [tail Et].
    rewrite Et in E. cbn [append Py.truthy_str] in E. discriminate.
  - intros E. apply H1 in E. unfold diff_section. now rewrite E.
Qed.

(** X17: against an empty initial listing (the default that [main] keeps when
    the manifest has no entries, and what a failed initial capture gives), a
    final listing that is not empty is reported as added as a whole: the
    diff is the two header lines, one hunk line for the range from 0, and
    every line of the final listing with [+] before it; the diff section is
    then logged. *)
Theorem zero_entries_diff_all_added (final_cache : list string) :
  final_cache <> [] ->
  cache_diff [] final_cache
  = "--- initial" :: "+++ final"
    :: ("@@ -0,0 +"
        ++ difflib.format_range_unified 0 (difflib.len final_cache)
        ++ " @@")%string
    :: map (fun line => ("+" ++ line)%string) final_cache
  /\ diff_section [] final_cache
     = diff_header
       :: map diff_line_event
            (Py.splitlines (Py.join "" (cache_diff [] final_cache))).
Proof.
  intros Hne.
  assert (E : cache_diff [] final_cache
              = "--- initial" :: "+++ final"
                :: ("@@ -0,0 +"
                    ++ difflib.format_range_unified 0 (difflib.len final_cache)
                    ++ " @@")%string
                :: map (fun line => ("+" ++ line)%string) final_cache).
  { unfold cache_diff. now rewrite (DiffSoundness.unified_diff_from_empty final_cache Hne). }
  split; [exact E|].
  unfold diff_section. rewrite E.
  destruct (join_header
              (("@@ -0,0 +"
                ++ difflib.format_range_unified 0 (difflib.len final_cache)
                ++ " @@")%string
               :: map (fun line => ("+" ++ line)%string) final_cache))
    as [tail Et].
  rewrite Et. cbn [append Py.truthy_str]. reflexivity.
Qed.

Lemma zero_entries_diff_all_added_witness :
  cache_diff [] ["models--a"; "models--b"]
  = ["--- initial"; "+++ final"; "@@ -0,0 +1,2 @@"; "+models--a"; "+models--b"].
Proof.
  rewrite (proj1 (zero_entries_diff_all_added ["models--a"; "models--b"]
                    ltac:(discriminate))).
  reflexivity.
Defined.

Lemma string_append_assoc (a b c : string) :
  ((a ++ b) ++ c = a ++ (b ++ c))%string.
Proof. induction a as [|x a IH]; cbn; [reflexivity | now rewrite IH]. Qed.

Lemma splitlines_from_plain (c : ascii) (rest cur : string) :
  plain c = true ->
  Py.splitlines_from cur (String c rest)
  = Py.splitlines_from (cur ++ String c "") rest.
Proof.
  unfold plain. intros H. apply negb_true_iff in H.
  apply orb_false_iff in H as [H H226]. apply orb_false_iff in H as [H H194].
  apply orb_false_iff in H as [H13 Hlb].
  cbn [Py.splitlines_from]. rewrite H13, Hlb, H194, H226. cbn [andb].
  destruct rest as [|c1 [|c2 rest2]]; reflexivity.
Qed.

(** A prefix without line boundaries is read into the current line. *)
Lemma splitlines_from_plain_prefix (p : string) :
  forall (tail cur : string),
    forallb plain (list_ascii_of_string p) = true ->
    Py.splitlines_from cur (p ++ tail) = Py.splitlines_from (cur ++ p) tail.
Proof.
  induction p as [|c p IH]; intros tail cur H.
  - now rewrite append_empty_r.
  - cbn [list_ascii_of_string forallb] in H.
    apply andb_true_iff in H as [Hc Hp].
    cbn [append]. rewrite (splitlines_from_plain c _ cur Hc).
    rewrite (IH tail _ Hp). f_equal.
    now rewrite string_append_assoc.
Qed.

Lemma prefix_split (p l : string) :
  String.prefix p l = true -> exists q, l = (p ++ q)%string.
Proof.
  revert l; induction p as [|c p IH]; intros l H.
  - now exists l.
  - destruct l as [|c' l]; [discriminate H|].
    cbn [String.prefix] in H.
    destruct (Ascii.ascii_dec c c') as [<-|]; [|discriminate H].
    destruct (IH l H) as [q ->]. now exists q.
Qed.

Lemma prefix_app_l (p q l : string) :
  String.prefix (p ++ q) l = true -> String.prefix p l = true.
Proof.
  intros H. apply prefix_split in H as [r ->].
  rewrite string_append_assoc. apply prefix_append.
Qed.

Lemma prefix_refl (s : string) : String.prefix s s = true.
Proof. rewrite <- (append_empty_r s) at 2. apply prefix_append. Qed.

Lemma splitlines_from_head (s : string) :
  forall cur,
    cur <> "" ->
    exists l rest,
      Py.splitlines_from cur s = l :: rest /\ String.prefix cur l = true.
Proof.
  induction s as [|c s IH]; intros cur Hcur.
  - cbn. destruct cur; [congruence|]. cbn [Py.truthy_str].
    eexists _, _. split; [reflexivity | apply prefix_refl].
  - assert (Hgo : exists l rest,
               Py.splitlines_from (cur ++ String c "") s = l :: rest
               /\ String.prefix cur l = true).
    { destruct (IH (cur ++ String c "")%string) as [l [rest [E P]]].
      - destruct cur; discriminate.
      - exists l, rest. split; [exact E | exact (prefix_app_l cur (String c "") l P)]. }
    assert (Hcut : forall tail, exists l rest,
               cur :: tail = l :: rest /\ String.prefix cur l = true).
    { intros tail. exists cur, tail. split; [reflexivity | apply prefix_refl]. }
    cbn [Py.splitlines_from].
    destruct (Py.is_byte 13 c).
    + destruct s as [|c' s']; [apply Hcut|].
      destruct (Py.is_byte 10 c'); apply Hcut.
    + destruct (Py.is_linebreak c); [apply Hcut|].
      destruct s as [|c1 s1]; [exact Hgo|].
      destruct (Py.is_byte 194 c && Py.is_byte 133 c1)%bool; [apply Hcut|].
      destruct s1 as [|c2 s2]; [exact Hgo|].
      destruct (_ && _ && _)%bool; [apply Hcut | exact Hgo].
Qed.

(** X18: when the listings differ, the lines of the diff are joined without
    a separator before they are split again, so the first line that the diff
    section logs starts with the two header lines run together,
    [--- initial+++ final]; as it starts with [---], it is logged without a
    colour. *)
Theorem diff_header_lines_fused (initial_cache final_cache : list string) :
  initial_cache <> final_cache ->
  exists line rest,
    Py.splitlines (Py.join "" (cache_diff initial_cache final_cache))
    = line :: rest
    /\ String.prefix "--- initial+++ final" line = true
    /\ diff_section initial_cache final_cache
       = diff_header :: Log INFO line [] :: map diff_line_event rest.
Proof.
  intros Hne.
  destruct (cache_diff_header initial_cache final_cache) as [E0|[tl E0]].
  - exfalso. apply Hne.
    pose proof (cache_diff_is_unified_diff initial_cache final_cache) as H.
    rewrite E0 in H. exact (DiffSoundness.unified_diff_empty_equal _ _ _ _ _ _ _ _ H).
  - unfold diff_section. rewrite E0.
    destruct (join_header tl) as [tail Et]. rewrite Et.
    assert (Hs : Py.splitlines ("--- initial+++ final" ++ tail)
                 = Py.splitlines_from "--- initial+++ final" tail).
    { exact (splitlines_from_plain_prefix "--- initial+++ final" tail ""
               eq_refl). }
    destruct (splitlines_from_head tail "--- initial+++ final"
                ltac:(discriminate)) as [line [rest [E P]]].
    exists line, rest. rewrite Hs, E. split; [reflexivity|].
    split; [exact P|].
    cbn [Py.truthy_str append map]. f_equal. f_equal.
    apply prefix_split in P as [q ->]. unfold diff_line_event, Py.startswith.
    cbn [append]. reflexivity.
Qed.

Lemma diff_header_lines_fused_witness :
  exists line rest,
    Py.splitlines (Py.join "" (cache_diff ["models--a"] ["models--b"]))
    = line :: rest
    /\ String.prefix "--- initial+++ final" line = true
    /\ diff_section ["models--a"] ["models--b"]
       = diff_header :: Log INFO line [] :: map diff_line_event rest.
Proof.
  apply (diff_header_lines_fused ["models--a"] ["models--b"]). discriminate.
Defined.
